(** * The retrieval pipeline of [src/lib/scrapeEngine.ts] and what
      stands around it

    A shallow embedding of the eight-layer scraping engine: the content
    validators ([isSpaShell], [isJinaError]), the Markdown normaliser
    ([cleanHtmlToMarkdown], [buildJinaMarkdown]), the result assembler
    ([makeResult]) and the orchestrator ([scrapeUrl]); then of the
    five-layer engine that came before it ([unnamed/part_000]), of the
    history store ([useHistory] in [unnamed/part_001]), of the page's
    [handleScrape] and [handleDownload], and of what a row of the
    progress log shows ([src/components/LayerLog.tsx]).

    Conventions.
    - A JavaScript string is the list of its UTF-16 code units, so that
      [length] is the [.length] of the source.
    - The string built-ins the engine calls ([trim], [includes], [split],
      [replace], [encodeURIComponent], [toISOString]) and the regular
      expressions it uses are written out from ECMA-262.
    - What the engine obtains from its host (the DOM parser, Turndown, the
      Unicode lower-casing) is an interface, [Host]; its operations
      return for every string, as the DOM and Turndown do.
    - The network and the clock are an environment, [World], that answers
      every [fetch] call site of the source.
    - [scrapeUrl] is a computation over the [layers] array and the list
      of snapshots handed to [onLayerUpdate]; it returns or throws.  The
      callback is an observer: it records the snapshot and returns.
    - [JSON.parse] and [JSON.stringify] are an interface, [History.Json],
      at the type of the entries the history holds; the heading match
      and the URL parser of the page are an interface, [Page.Browser]. *)

From Stdlib Require Import List NArith ZArith QArith Qround Lia Bool String Ascii.
From Stdlib Require Import DecimalPos Sorted.
From stdpp Require Import base list.

Local Open Scope nat_scope.

(** ** Strings *)

Definition codeunit := N.
Bind Scope N_scope with codeunit.
Definition jsstring := list codeunit.

(** A string literal of the source whose characters are all ASCII. *)
Definition js (s : string) : jsstring :=
  map N_of_ascii (list_ascii_of_string s).

(** Reading a string of ASCII code units back. *)
Definition unjs (s : jsstring) : string :=
  string_of_list_ascii (map ascii_of_N s).

Definition LF : codeunit := 10%N.
Definition quote : codeunit := 34%N.
Definition apostrophe : codeunit := 39%N.

Definition within (lo hi c : codeunit) : bool := ((lo <=? c) && (c <=? hi))%N.

Definition memb (c : codeunit) (l : list codeunit) : bool :=
  existsb (N.eqb c) l.

(** LineTerminator (ECMA-262, 12.3): LF, CR, LS, PS. *)
Definition isLineTerminator (c : codeunit) : bool :=
  memb c [10; 13; 8232; 8233]%N.

(** WhiteSpace and LineTerminator together: the set that [\s] matches and
    that [trim] strips. *)
Definition isWhiteSpace (c : codeunit) : bool :=
  memb c [9; 11; 12; 32; 160; 5760; 8239; 8287; 12288; 65279]%N
  || within 8192 8202 c
  || isLineTerminator c.

Fixpoint trimStart (s : jsstring) : jsstring :=
  match s with
  | c :: t => if isWhiteSpace c then trimStart t else s
  | [] => []
  end.

Definition trimEnd (s : jsstring) : jsstring := rev (trimStart (rev s)).

(** [String.prototype.trim] *)
Definition trim (s : jsstring) : jsstring := trimEnd (trimStart s).

Fixpoint startsWith (s sub : jsstring) {struct sub} : bool :=
  match sub, s with
  | [], _ => true
  | p :: sub', c :: s' => N.eqb p c && startsWith s' sub'
  | _ :: _, [] => false
  end.

(** [String.prototype.includes] *)
Fixpoint includes (s sub : jsstring) : bool :=
  startsWith s sub ||
  match s with
  | [] => false
  | _ :: t => includes t sub
  end.

(** ** Numbers in template literals

    [`${n}`] for a non-negative integer is its decimal numeral. *)

Fixpoint digitsOfUint (d : Decimal.uint) : jsstring :=
  match d with
  | Decimal.Nil => []
  | Decimal.D0 d' => 48%N :: digitsOfUint d'
  | Decimal.D1 d' => 49%N :: digitsOfUint d'
  | Decimal.D2 d' => 50%N :: digitsOfUint d'
  | Decimal.D3 d' => 51%N :: digitsOfUint d'
  | Decimal.D4 d' => 52%N :: digitsOfUint d'
  | Decimal.D5 d' => 53%N :: digitsOfUint d'
  | Decimal.D6 d' => 54%N :: digitsOfUint d'
  | Decimal.D7 d' => 55%N :: digitsOfUint d'
  | Decimal.D8 d' => 56%N :: digitsOfUint d'
  | Decimal.D9 d' => 57%N :: digitsOfUint d'
  end.

Definition numberToString (n : Z) : jsstring :=
  match n with
  | Zneg p => 45%N :: digitsOfUint (Pos.to_uint p)
  | _ => digitsOfUint (N.to_uint (Z.to_N n))
  end.

(** A numeral padded with zeros on the left to [width] digits. *)
Definition padded (width : nat) (n : Z) : jsstring :=
  let d := numberToString n in
  repeat 48%N (width - length d) ++ d.

(** ** [Date.prototype.toISOString]

    A [Date] is its time value, the milliseconds since the epoch.  The
    calendar date comes from the day number by the usual civil-calendar
    arithmetic; years 0 to 9999 print with four digits, the others with a
    sign and six. *)

Definition civilFromDays (days : Z) : Z * Z * Z :=
  let z := (days + 719468)%Z in
  let era := (z / 146097)%Z in
  let doe := (z - era * 146097)%Z in
  let yoe := ((doe - doe / 1460 + doe / 36524 - doe / 146096) / 365)%Z in
  let doy := (doe - (365 * yoe + yoe / 4 - yoe / 100))%Z in
  let mp := ((5 * doy + 2) / 153)%Z in
  let d := (doy - (153 * mp + 2) / 5 + 1)%Z in
  let m := (if mp <? 10 then mp + 3 else mp - 9)%Z in
  let y := (yoe + era * 400 + (if m <=? 2 then 1 else 0))%Z in
  (y, m, d).

Definition toISOString (t : Z) : jsstring :=
  let days := (t / 86400000)%Z in
  let ms := (t mod 86400000)%Z in
  let '(y, m, d) := civilFromDays days in
  (if (0 <=? y)%Z && (y <=? 9999)%Z then padded 4 y
   else (if (y <? 0)%Z then js "-" else js "+") ++ padded 6 (Z.abs y)) ++
  js "-" ++ padded 2 m ++ js "-" ++
  padded 2 d ++ js "T" ++
  padded 2 (ms / 3600000) ++ js ":" ++
  padded 2 ((ms / 60000) mod 60) ++ js ":" ++
  padded 2 ((ms / 1000) mod 60) ++ js "." ++
  padded 3 (ms mod 1000) ++ js "Z".

(** ** [encodeURIComponent]

    Code units outside the unreserved set are decoded to a code point
    (a surrogate pair counts as one), encoded in UTF-8 and written as
    [%XX] escapes.  An unpaired surrogate raises [URIError]: the result
    is [None]. *)

Definition uriUnreserved (c : codeunit) : bool :=
  within 65 90 c || within 97 122 c || within 48 57 c
  || memb c [45; 95; 46; 33; 126; 42; 39; 40; 41]%N.

Definition hexDigit (n : N) : codeunit :=
  (if n <? 10 then 48 + n else 55 + n)%N.

Definition percent (octet : N) : jsstring :=
  [37%N; hexDigit (octet / 16); hexDigit (octet mod 16)].

Definition utf8 (cp : N) : list N :=
  (if cp <? 128 then [cp]
   else if cp <? 2048 then [192 + cp / 64; 128 + cp mod 64]
   else if cp <? 65536 then
     [224 + cp / 4096; 128 + (cp / 64) mod 64; 128 + cp mod 64]
   else
     [240 + cp / 262144; 128 + (cp / 4096) mod 64;
      128 + (cp / 64) mod 64; 128 + cp mod 64])%N.

Definition isHighSurrogate (c : codeunit) : bool := within 55296 56319 c.
Definition isLowSurrogate (c : codeunit) : bool := within 56320 57343 c.

Fixpoint encodeURIComponent (s : jsstring) : option jsstring :=
  match s with
  | [] => Some []
  | c :: t =>
      if uriUnreserved c then option_map (cons c) (encodeURIComponent t)
      else if isLowSurrogate c then None
      else if isHighSurrogate c then
        match t with
        | c2 :: t' =>
            if isLowSurrogate c2 then
              let cp := ((c - 55296) * 1024 + (c2 - 56320) + 65536)%N in
              option_map (app (concat (map percent (utf8 cp))))
                         (encodeURIComponent t')
            else None
        | [] => None
        end
      else option_map (app (concat (map percent (utf8 c))))
                      (encodeURIComponent t)
  end.

(** ** Regular expressions

    The patterns of the source are sequences of single-character atoms,
    greedy repetitions [a*], [a+], [a{n,}] of such atoms, and the
    assertion [^].  The matcher is the backtracking matcher of ECMA-262
    (22.2.2) on that fragment: a repetition takes as many characters as
    it can and gives them back one at a time while the rest of the
    pattern fails.  All pattern characters are ASCII, for which the
    [Canonicalize] of the [i] flag is ASCII upper-casing. *)

Inductive atom :=
| AChar (c : codeunit)                               (* a literal *)
| AClass (negated : bool) (members : list codeunit)  (* [abc], [^abc] *)
| ASpace                                             (* \s *)
| ADot.                                              (* . *)

Inductive item :=
| One (a : atom)
| Repeat (min : nat) (a : atom)    (* a{min,}; a* is min 0, a+ is min 1 *)
| Bol.                             (* ^ *)

Record regex := {
  items : list item;
  ignoreCase : bool;   (* flag i *)
  multiline : bool;    (* flag m *)
  global : bool        (* flag g *)
}.

Definition canonicalize (ic : bool) (c : codeunit) : codeunit :=
  if ic && within 97 122 c then (c - 32)%N else c.

Definition atomMatches (ic : bool) (a : atom) (c : codeunit) : bool :=
  match a with
  | AChar p => N.eqb (canonicalize ic p) (canonicalize ic c)
  | AClass negated members =>
      xorb negated
           (existsb (fun p => N.eqb (canonicalize ic p) (canonicalize ic c))
                    members)
  | ASpace => isWhiteSpace c
  | ADot => negb (isLineTerminator c)
  end.

(** A position in the subject: the code unit before it, if any, and
    what follows. *)
Definition cursor : Type := option codeunit * jsstring.

Definition atLineStart (ml : bool) (prev : option codeunit) : bool :=
  match prev with
  | None => true
  | Some c => ml && isLineTerminator c
  end.

Fixpoint repeatGreedy (ok : codeunit -> bool)
    (k : option codeunit -> jsstring -> option cursor)
    (min : nat) (prev : option codeunit) (s : jsstring) : option cursor :=
  let stop := match min with O => k prev s | S _ => None end in
  match s with
  | c :: t =>
      if ok c then
        match repeatGreedy ok k (pred min) (Some c) t with
        | Some r => Some r
        | None => stop
        end
      else stop
  | [] => stop
  end.

(** The match of a pattern at one position: the position where the
    match ends. *)
Fixpoint matchItems (ic ml : bool) (its : list item)
    (prev : option codeunit) (s : jsstring) : option cursor :=
  match its with
  | [] => Some (prev, s)
  | One a :: its' =>
      match s with
      | c :: t =>
          if atomMatches ic a c then matchItems ic ml its' (Some c) t
          else None
      | [] => None
      end
  | Repeat min a :: its' =>
      repeatGreedy (atomMatches ic a) (matchItems ic ml its') min prev s
  | Bol :: its' =>
      if atLineStart ml prev then matchItems ic ml its' prev s else None
  end.

Definition matchAt (r : regex) (prev : option codeunit) (s : jsstring)
  : option cursor :=
  matchItems (ignoreCase r) (multiline r) (items r) prev s.

(** The first match at or after a position: what is skipped before the
    match, and where the match ends. *)
Fixpoint search (r : regex) (prev : option codeunit) (s : jsstring)
  : option (jsstring * cursor) :=
  match matchAt r prev s with
  | Some cur => Some ([], cur)
  | None =>
      match s with
      | [] => None
      | c :: t =>
          match search r (Some c) t with
          | Some (skipped, cur) => Some (c :: skipped, cur)
          | None => None
          end
      end
  end.

(** [RegExp.prototype.test] of a pattern without the [g] flag. *)
Definition test (r : regex) (s : jsstring) : bool :=
  match search r None s with Some _ => true | None => false end.

(** The [g] loop of [String.prototype.replace]: every match from left to
    right, the search resuming where the last match ended (one code unit
    further after an empty match). *)
Fixpoint replaceLoop (fuel : nat) (r : regex) (by_ : jsstring)
    (prev : option codeunit) (s : jsstring) : jsstring :=
  match fuel with
  | O => s
  | S fuel' =>
      match matchAt r prev s with
      | Some (prev', s') =>
          if length s' <? length s then
            by_ ++ replaceLoop fuel' r by_ prev' s'
          else
            match s with
            | [] => by_
            | c :: t => by_ ++ c :: replaceLoop fuel' r by_ (Some c) t
            end
      | None =>
          match s with
          | [] => []
          | c :: t => c :: replaceLoop fuel' r by_ (Some c) t
          end
      end
  end.

(** [String.prototype.replace] with a pattern and a replacement string
    that holds no [$]. *)
Definition replace (s : jsstring) (r : regex) (by_ : jsstring) : jsstring :=
  if global r then replaceLoop (S (length s)) r by_ None s
  else
    match search r None s with
    | Some (skipped, (_, s')) => skipped ++ by_ ++ s'
    | None => s
    end.

(** The loop of [RegExp.prototype[Symbol.split]]: [tok] is the text since
    the last separator, [s] what is left to scan. *)
Fixpoint splitLoop (fuel : nat) (r : regex) (prev : option codeunit)
    (tok s : jsstring) : list jsstring :=
  match fuel with
  | O => [tok ++ s]
  | S fuel' =>
      match s with
      | [] => [tok]
      | c :: t =>
          match matchAt r prev s with
          | Some (prev', s') =>
              if length s' <? length s then
                tok :: splitLoop fuel' r prev' [] s'
              else
                match tok with
                | [] => splitLoop fuel' r (Some c) [c] t
                | _ :: _ => tok :: splitLoop fuel' r (Some c) [c] t
                end
          | None => splitLoop fuel' r (Some c) (tok ++ [c]) t
          end
      end
  end.

(** [String.prototype.split] with a pattern and no limit. *)
Definition split (s : jsstring) (r : regex) : list jsstring :=
  match s with
  | [] => match matchAt r None [] with Some _ => [] | None => [[]] end
  | _ :: _ => splitLoop (length s) r None [] s
  end.

(** Pattern syntax. *)
Definition lit (s : string) : list item := map (fun c => One (AChar c)) (js s).
Definition oneOf (l : list codeunit) : atom := AClass false l.
Definition noneOf (l : list codeunit) : atom := AClass true l.
Definition star (a : atom) : item := Repeat 0 a.
Definition plus (a : atom) : item := Repeat 1 a.

Definition pattern (its : list item) (flags : string) : regex :=
  {| items := its;
     ignoreCase := includes (js flags) (js "i");
     multiline := includes (js flags) (js "m");
     global := includes (js flags) (js "g") |}.

(** ** The host

    [parseFromString] is [new DOMParser().parseFromString(html, "text/html")],
    [removeAll sel] is [doc.querySelectorAll(sel).forEach(el => el.remove())],
    [turndown] is the service built by [initTurndown], and [toLowerCase] is
    [String.prototype.toLowerCase], which lowers the letters A to Z of any
    ASCII stretch in place. *)

Definition isAscii (c : codeunit) : bool := (c <? 128)%N.

Definition asciiLower (c : codeunit) : codeunit :=
  if within 65 90 c then (c + 32)%N else c.

Class Host := {
  Document : Type;
  Element : Type;
  parseFromString : jsstring -> Document;
  removeAll : jsstring -> Document -> Document;
  querySelector : Document -> jsstring -> option Element;
  body : Document -> option Element;
  innerText : Element -> jsstring;
  innerHTML : Element -> jsstring;
  turndown : jsstring -> jsstring;
  toLowerCase : jsstring -> jsstring;
  toLowerCase_ascii : forall a b c : jsstring,
    forallb isAscii b = true ->
    exists a' c', toLowerCase (a ++ b ++ c) = a' ++ map asciiLower b ++ c'
}.

(** ** The engine's data *)

Inductive Status := pending | trying | success | failed.

Record LayerStatus := {
  layer : Z;
  name : jsstring;
  status : Status
}.

Record ScrapeResult := {
  markdown : jsstring;
  layersTriedCount : Z;
  wordCount : Z;
  readTime : Z
}.

Definition Status_eqb (a b : Status) : bool :=
  match a, b with
  | pending, pending | trying, trying | success, success | failed, failed => true
  | _, _ => false
  end.

(** ** Content validators *)

Definition emptyRoot (id : string) : regex :=
  pattern (lit "<div" ++ [plus (noneOf [62%N])] ++ lit "id=" ++
           [One (oneOf [quote; apostrophe])] ++ lit id ++
           [One (oneOf [quote; apostrophe]); star (noneOf [62%N])] ++
           lit ">" ++ [star ASpace] ++ lit "</div>") "i".

Definition dataPage : regex :=
  pattern (lit "data-page=" ++
           [One (oneOf [quote; apostrophe]);
            plus (noneOf [quote; apostrophe]);
            One (oneOf [quote; apostrophe])]) "i".

Definition spaPatterns : list regex :=
  [emptyRoot "app"; emptyRoot "root"; emptyRoot "__next"; dataPage].

(** [/\s+/], [/\n{3,}/g] and [/^#.*\n=+\n/m] *)
Definition whitespaceRun : regex := pattern [plus ASpace] "".
Definition blankLines : regex := pattern [Repeat 3 (AChar LF)] "g".
Definition titleBlock : regex :=
  pattern ([Bol] ++ lit "#" ++
           [star ADot; One (AChar LF); plus (AChar 61%N); One (AChar LF)]) "m".

(** The four phrases [isJinaError] looks for. *)
Definition jinaMarkers : list jsstring :=
  [js "warning: target url returned error"; js "captcha";
   js "403: forbidden"; js "access denied"].

Definition isEmpty (s : jsstring) : bool :=
  match s with [] => true | _ :: _ => false end.

(** ** The environment

    Every [fetch] call site of [scrapeUrl] runs at most once in a run, so
    the network is a table from call site and request to what the call
    gives: [None] when the promise rejects (network error, aborted by its
    time-out), a response otherwise.  Of a response the engine reads
    [ok], [text()] and, through [json()], two fields: [contents] and
    [archived_snapshots.closest.url]; a field that is absent or [null] is
    [None], and so is a body whose read or parse rejects. *)

Inductive Site :=
| AllOrigins | ThingProxy | CodeTabs | JinaReader | GoogleCache
| WaybackAvailable | WaybackSnapshot | TwelveFt | HtmlRender.

Record Request := {
  href : jsstring;
  headers : list (string * string);
  timeout : Z                              (* AbortSignal.timeout, in ms *)
}.

Record Json := {
  contents : option jsstring;
  closestUrl : option jsstring
}.

Record Response := {
  ok : bool;
  text : option jsstring;
  json : option Json
}.

Record World := {
  respond : Site -> Request -> option Response;
  now : Z                                  (* the time value of new Date() *)
}.

(** ** The orchestrator's effects

    A run carries the [layers] array and the snapshots handed to
    [onLayerUpdate], oldest first.  A computation ends normally or
    throws. *)

Inductive JsError :=
| URIError
| FetchError
| BodyError
| Error (message : jsstring).

Inductive completion (A : Type) :=
| Normal (a : A)
| Throw (e : JsError).
Arguments Normal {A} a.
Arguments Throw {A} e.

Record Run := {
  layers : list LayerStatus;
  emitted : list (list LayerStatus)
}.

Definition M (A : Type) : Type := Run -> completion A * Run.

#[export] Instance M_ret : MRet M := fun A a st => (Normal a, st).
#[export] Instance M_bind : MBind M := fun A B f m st =>
  match m st with
  | (Normal a, st') => f a st'
  | (Throw e, st') => (Throw e, st')
  end.

Definition throw {A} (e : JsError) : M A := fun st => (Throw e, st).

(** [try { body } catch {}]: the body yields [Some x] when it runs into
    [return x] and [None] when it falls through; whatever it throws is
    swallowed and control falls through as well. *)
Definition try_ {A} (body : M (option A)) : M (option A) := fun st =>
  match body st with
  | (Normal r, st') => (Normal r, st')
  | (Throw _, st') => (Normal None, st')
  end.

Definition orNext {A} (attempt : M (option A)) (next : M A) : M A :=
  r ← attempt; match r with Some x => mret x | None => next end.

Definition initialLayers : list LayerStatus :=
  [ {| layer := 1; name := js "AllOrigins"; status := pending |};
    {| layer := 2; name := js "ThingProxy"; status := pending |};
    {| layer := 3; name := js "CodeTabs"; status := pending |};
    {| layer := 4; name := js "Jina Reader"; status := pending |};
    {| layer := 5; name := js "Google Cache"; status := pending |};
    {| layer := 6; name := js "Wayback Machine"; status := pending |};
    {| layer := 7; name := js "12ft.io"; status := pending |};
    {| layer := 8; name := js "HTMLRender.dev"; status := pending |} ].

(** Before [layers] is declared. *)
Definition unstarted : Run := {| layers := []; emitted := [] |}.

Definition declareLayers : M unit := fun st =>
  (Normal (), {| layers := initialLayers; emitted := emitted st |}).

(** [layers[index] = { ...layers[index], status }; onLayerUpdate([...layers])].
    The callback is the recorder of the snapshots.  Past the end of the
    array JavaScript would grow it by an entry that has a [status] only,
    which [LayerStatus] cannot hold; the array is left alone there, and
    [scrapeUrl] only writes indices 0 to 7 of its eight entries. *)
Definition updateLayer (index : nat) (st : Status) : M unit := fun run =>
  let layers' :=
    match layers run !! index with
    | Some l =>
        <[index := {| layer := layer l; name := name l; status := st |}]>
          (layers run)
    | None => layers run
    end in
  (Normal (), {| layers := layers'; emitted := emitted run ++ [layers'] |}).

Section Engine.
Context `{Host}.

Definition isSpaShell (html : jsstring) : bool :=
  let doc := removeAll (js "script, style, noscript, meta, link")
                       (parseFromString html) in
  let textContent :=
    trim (match body doc with Some b => innerText b | None => [] end) in
  if length textContent <? 150 then true
  else
    let bodyHtml := match body doc with Some b => innerHTML b | None => [] end in
    existsb (fun p => test p bodyHtml) spaPatterns.

Definition isJinaError (text : jsstring) : bool :=
  if isEmpty text || (length text <? 100) then true
  else
    let lower := toLowerCase text in
    if includes lower (js "warning: target url returned error") then true
    else if includes lower (js "captcha") then true
    else if includes lower (js "403: forbidden") then true
    else if includes lower (js "access denied") then true
    else
      let stripped := trim (replace text titleBlock []) in
      length stripped <? 100.

(** ** Markdown normaliser *)

Definition attributeSelector (attr value : string) : jsstring :=
  js "[" ++ js attr ++ js "=" ++ [quote] ++ js value ++ [quote] ++ js "]".

Definition noiseSelectors : list jsstring :=
  [js "script"; js "style"; js "nav"; js "footer"; js "header"; js "aside";
   js "iframe"; js "form"; js "button"; js "input"; js "select"; js "textarea";
   js "noscript"; attributeSelector "role" "navigation";
   attributeSelector "role" "banner"; attributeSelector "role" "complementary";
   js ".cookie-banner"; js ".popup"; js ".modal"; js ".advertisement";
   js ".ad"; js ".sidebar"].

Definition contentSelectors : list jsstring :=
  [js "article"; js "main"; attributeSelector "role" "main";
   js ".content"; js ".post-content"; js ".entry-content"; js ".article-body";
   js ".page-content"; js ".main-content"; js ".site-content";
   js "body"].

(** The loop that leaves in [mainEl] the first content root found. *)
Fixpoint firstMatch (doc : Document) (sels : list jsstring) : option Element :=
  match sels with
  | [] => None
  | sel :: sels' =>
      match querySelector doc sel with
      | Some el => Some el
      | None => firstMatch doc sels'
      end
  end.

(** The header both normalisers prepend; [date] is the time value of
    [new Date()]. *)
Definition provenance (sourceUrl : jsstring) (date : Z) (layersTriedCount : Z)
  : jsstring :=
  js "---" ++ [LF] ++
  js "source: " ++ sourceUrl ++ [LF] ++
  js "scraped: " ++ toISOString date ++ [LF] ++
  js "layers_tried: " ++ numberToString layersTriedCount ++ [LF] ++
  js "---" ++ [LF; LF].

(** [markdown.replace(/\n{3,}/g, "\n\n").trim()] *)
Definition collapseBlankLines (markdown : jsstring) : jsstring :=
  trim (replace markdown blankLines [LF; LF]).

Definition cleanHtmlToMarkdown (date : Z) (html sourceUrl : jsstring)
    (layersTriedCount : Z) : jsstring :=
  let doc := fold_left (fun d sel => removeAll sel d) noiseSelectors
                       (parseFromString html) in
  let mainEl := firstMatch doc contentSelectors in
  let rawHtml :=
    match mainEl with
    | Some el => innerHTML el
    | None => match body doc with Some b => innerHTML b | None => [] end
    end in
  let markdown := turndown rawHtml in
  let markdown := collapseBlankLines markdown in
  provenance sourceUrl date layersTriedCount ++ markdown.

Definition buildJinaMarkdown (date : Z) (text sourceUrl : jsstring)
    (layersTriedCount : Z) : jsstring :=
  provenance sourceUrl date layersTriedCount ++ trim text.

(** ** Result assembler

    [Math.ceil(wordCount / 200)] is taken over the rationals.  The
    double quotient of a count below 2^53 lies within 1/200 of the exact
    one and is exact when that is an integer, so its ceiling is the
    same. *)

Definition makeResult (markdown : jsstring) : ScrapeResult :=
  let wordCount :=
    Z.of_nat (length (List.filter (fun w => negb (isEmpty w))
                                  (split markdown whitespaceRun))) in
  let readTime := Qceiling (inject_Z wordCount / 200) in
  {| markdown := markdown; layersTriedCount := 0;
     wordCount := wordCount; readTime := readTime |}.

Section Orchestrator.
Variable world : World.

Definition fetch (site : Site) (url : jsstring)
    (hdrs : list (string * string)) (ms : Z) : M Response := fun st =>
  match respond world site
          {| href := url; headers := hdrs; timeout := ms |} with
  | Some res => (Normal res, st)
  | None => (Throw FetchError, st)
  end.

Definition resText (res : Response) : M jsstring :=
  match text res with Some t => mret t | None => throw BodyError end.

Definition resJson (res : Response) : M Json :=
  match json res with Some d => mret d | None => throw BodyError end.

Definition encode (s : jsstring) : M jsstring :=
  match encodeURIComponent s with Some e => mret e | None => throw URIError end.

(** A field read under [&&]: absent and [null] are falsy like [""]. *)
Definition orEmpty (field : option jsstring) : jsstring := default [] field.

Definition layer1 (url encodedURL : jsstring) : M (option ScrapeResult) :=
  updateLayer 0 trying;;
  r ← try_ (
    res ← fetch AllOrigins
            (js "https://api.allorigins.win/get?url=" ++ encodedURL) [] 12000;
    if ok res then
      data ← resJson res;
      let c := orEmpty (contents data) in
      if negb (isEmpty c) && (200 <? length c) && negb (isSpaShell c) then
        updateLayer 0 success;;
        mret (Some (makeResult (cleanHtmlToMarkdown (now world) c url 1)))
      else mret None
    else mret None);
  match r with
  | Some x => mret (Some x)
  | None => updateLayer 0 failed;; mret None
  end.

Definition layer2 (url encodedURL : jsstring) : M (option ScrapeResult) :=
  updateLayer 1 trying;;
  r ← try_ (
    res ← fetch ThingProxy
            (js "https://thingproxy.freeboard.io/fetch/" ++ url) [] 12000;
    if ok res then
      html ← resText res;
      if negb (isEmpty html) && (200 <? length html) && negb (isSpaShell html)
      then
        updateLayer 1 success;;
        mret (Some (makeResult (cleanHtmlToMarkdown (now world) html url 2)))
      else mret None
    else mret None);
  match r with
  | Some x => mret (Some x)
  | None => updateLayer 1 failed;; mret None
  end.

Definition layer3 (url encodedURL : jsstring) : M (option ScrapeResult) :=
  updateLayer 2 trying;;
  r ← try_ (
    res ← fetch CodeTabs
            (js "https://api.codetabs.com/v1/proxy?quest=" ++ encodedURL)
            [] 12000;
    if ok res then
      html ← resText res;
      if negb (isEmpty html) && (200 <? length html) && negb (isSpaShell html)
      then
        updateLayer 2 success;;
        mret (Some (makeResult (cleanHtmlToMarkdown (now world) html url 3)))
      else mret None
    else mret None);
  match r with
  | Some x => mret (Some x)
  | None => updateLayer 2 failed;; mret None
  end.

Definition jinaHeaders : list (string * string) :=
  [("Accept", "text/markdown,text/plain,*/*"); ("X-Return-Format", "markdown");
   ("X-No-Cache", "true"); ("X-Wait-For-Selector", "body");
   ("X-Timeout", "25")]%string.

Definition layer4 (url encodedURL : jsstring) : M (option ScrapeResult) :=
  updateLayer 3 trying;;
  r ← try_ (
    res ← fetch JinaReader (js "https://r.jina.ai/" ++ url) jinaHeaders 35000;
    if ok res then
      text ← resText res;
      if negb (isJinaError text) then
        updateLayer 3 success;;
        mret (Some (makeResult (buildJinaMarkdown (now world) text url 4)))
      else mret None
    else mret None);
  match r with
  | Some x => mret (Some x)
  | None => updateLayer 3 failed;; mret None
  end.

Definition layer5 (url encodedURL : jsstring) : M (option ScrapeResult) :=
  updateLayer 4 trying;;
  r ← try_ (
    let googleCacheUrl :=
      js "https://webcache.googleusercontent.com/search?q=cache:" ++
      encodedURL ++ js "&hl=en" in
    target ← encode googleCacheUrl;
    proxyRes ← fetch GoogleCache
                 (js "https://api.allorigins.win/get?url=" ++ target) [] 15000;
    if ok proxyRes then
      data ← resJson proxyRes;
      let c := orEmpty (contents data) in
      if negb (isEmpty c) && (300 <? length c) && negb (isSpaShell c) then
        updateLayer 4 success;;
        mret (Some (makeResult (cleanHtmlToMarkdown (now world) c url 5)))
      else mret None
    else mret None);
  match r with
  | Some x => mret (Some x)
  | None => updateLayer 4 failed;; mret None
  end.

Definition layer6 (url encodedURL : jsstring) : M (option ScrapeResult) :=
  updateLayer 5 trying;;
  r ← try_ (
    availRes ← fetch WaybackAvailable
                 (js "https://archive.org/wayback/available?url=" ++ encodedURL)
                 [] 10000;
    if ok availRes then
      availData ← resJson availRes;
      let snapshotUrl := orEmpty (closestUrl availData) in
      if negb (isEmpty snapshotUrl) then
        target ← encode snapshotUrl;
        snapRes ← fetch WaybackSnapshot
                    (js "https://api.allorigins.win/get?url=" ++ target)
                    [] 20000;
        if ok snapRes then
          snapData ← resJson snapRes;
          let c := orEmpty (contents snapData) in
          if negb (isEmpty c) && (300 <? length c) && negb (isSpaShell c) then
            updateLayer 5 success;;
            mret (Some (makeResult (cleanHtmlToMarkdown (now world) c url 6)))
          else mret None
        else mret None
      else mret None
    else mret None);
  match r with
  | Some x => mret (Some x)
  | None => updateLayer 5 failed;; mret None
  end.

Definition layer7 (url encodedURL : jsstring) : M (option ScrapeResult) :=
  updateLayer 6 trying;;
  r ← try_ (
    let twelveFootUrl := js "https://12ft.io/proxy?q=" ++ encodedURL in
    target ← encode twelveFootUrl;
    proxyRes ← fetch TwelveFt
                 (js "https://api.allorigins.win/get?url=" ++ target) [] 20000;
    if ok proxyRes then
      data ← resJson proxyRes;
      let c := orEmpty (contents data) in
      if negb (isEmpty c) && (300 <? length c) && negb (isSpaShell c) then
        updateLayer 6 success;;
        mret (Some (makeResult (cleanHtmlToMarkdown (now world) c url 7)))
      else mret None
    else mret None);
  match r with
  | Some x => mret (Some x)
  | None => updateLayer 6 failed;; mret None
  end.

Definition layer8 (url encodedURL : jsstring) : M (option ScrapeResult) :=
  updateLayer 7 trying;;
  r ← try_ (
    let withUaUrl :=
      js "https://api.allorigins.win/get?url=" ++ encodedURL ++
      js "&charset=utf-8" in
    res ← fetch HtmlRender withUaUrl [] 15000;
    if ok res then
      data ← resJson res;
      let c := orEmpty (contents data) in
      if negb (isEmpty c) && (300 <? length c) && negb (isSpaShell c) then
        updateLayer 7 success;;
        mret (Some (makeResult (cleanHtmlToMarkdown (now world) c url 8)))
      else mret None
    else mret None);
  match r with
  | Some x => mret (Some x)
  | None => updateLayer 7 failed;; mret None
  end.

Definition exhaustion : JsError := Error (js "All layers failed").

Definition scrapeUrl (url : jsstring) : M ScrapeResult :=
  encodedURL ← encode url;
  declareLayers;;
  orNext (layer1 url encodedURL) (
  orNext (layer2 url encodedURL) (
  orNext (layer3 url encodedURL) (
  orNext (layer4 url encodedURL) (
  orNext (layer5 url encodedURL) (
  orNext (layer6 url encodedURL) (
  orNext (layer7 url encodedURL) (
  orNext (layer8 url encodedURL) (
  throw exhaustion)))))))).

(** A call of [scrapeUrl]: how it completes, the final [layers] array
    and the snapshots the callback received. *)
Definition run (url : jsstring) : completion ScrapeResult * Run :=
  scrapeUrl url unstarted.

End Orchestrator.

End Engine.

(** * The vocabulary of the statements *)

(** ** Hosts and worlds to run the engine on

    The plain host reads a document as text without markup: the parser
    keeps the string, nothing matches a selector but [body], and Turndown
    has nothing to convert. *)

Definition plainHost : Host := {|
  Document := jsstring;
  Element := jsstring;
  parseFromString := fun html => html;
  removeAll := fun _ doc => doc;
  querySelector := fun doc sel =>
    if startsWith sel (js "body") && (length sel =? 4) then Some doc else None;
  body := fun doc => Some doc;
  innerText := fun el => el;
  innerHTML := fun el => el;
  turndown := fun html => html;
  toLowerCase := map asciiLower;
  toLowerCase_ascii := fun a b c _ =>
    ex_intro _ (map asciiLower a)
      (ex_intro _ (map asciiLower c)
         (eq_trans (List.map_app asciiLower a (b ++ c))
            (f_equal (app (map asciiLower a))
                     (List.map_app asciiLower b c))))
|}.

Definition Site_eqb (a b : Site) : bool :=
  match a, b with
  | AllOrigins, AllOrigins | ThingProxy, ThingProxy | CodeTabs, CodeTabs
  | JinaReader, JinaReader | GoogleCache, GoogleCache
  | WaybackAvailable, WaybackAvailable | WaybackSnapshot, WaybackSnapshot
  | TwelveFt, TwelveFt | HtmlRender, HtmlRender => true
  | _, _ => false
  end.

(** A page served with status 200, as text and inside the proxy's
    envelope. *)
Definition serving (page : jsstring) : Response :=
  {| ok := true; text := Some page;
     json := Some {| contents := Some page;
                     closestUrl := Some (js "http://web.archive.org/web/1/x") |} |}.

(** The world in which the listed sites serve their page and every
    other request fails in transport. *)
Definition worldServing (pages : list (Site * jsstring)) (date : Z) : World :=
  {| respond := fun site _ =>
       option_map (fun entry => serving entry.2)
                  (find (fun entry => Site_eqb site entry.1) pages);
     now := date |}.

Definition article (n : nat) : jsstring := repeat 97%N n.

Definition exampleUrl : jsstring := js "https://example.com/a b".

Definition encodedExample : jsstring := js "https%3A%2F%2Fexample.com%2Fa%20b".

Definition sampleReader : World := worldServing [(JinaReader, article 120)] 0.

Definition sampleProxy : World := worldServing [(CodeTabs, article 201)] 0.

(** A short page whose title block comes second: 103 code units, 96
    once the block is taken out. *)
Definition titledSecond : jsstring :=
  js "intro" ++ [LF] ++ js "# T" ++ [LF] ++ js "==" ++ [LF] ++ article 90.

(** ** Runs *)

Definition step (i : nat) (s : Status) (st : Run) : Run := (updateLayer i s st).2.

(** Layer [i] was tried and ended in [final]. *)
Definition settle (i : nat) (final : Status) (st : Run) : Run :=
  step i final (step i trying st).

Definition verdict {A} (o : option A) : Status :=
  match o with Some _ => success | None => failed end.

(** What a [try] body may do: fall through or throw with the run
    untouched, or mark layer [i] a success and return a result that
    satisfies [P]. *)
Definition polite (i : nat) (P : ScrapeResult -> Prop)
    (body : M (option ScrapeResult)) : Prop :=
  forall st,
    body st = (Normal None, st) \/
    (exists e, body st = (Throw e, st)) \/
    (exists r, P r /\ body st = (Normal (Some r), step i success st)).

(** The frame every layer of the source puts around its [try] body. *)
Definition attempt (i : nat) (body : M (option ScrapeResult))
  : M (option ScrapeResult) :=
  updateLayer i trying;;
  r ← try_ body;
  match r with
  | Some x => mret (Some x)
  | None => updateLayer i failed;; mret None
  end.

Definition jinaRequest (url : jsstring) : Request :=
  {| href := js "https://r.jina.ai/" ++ url; headers := jinaHeaders;
     timeout := 35000 |}.

(** The minimum length of the HTML layers, by 0-based layer index. *)
Definition threshold (k : nat) : nat := if k <? 3 then 200 else 300.

Section Layers.
Context `{Host} (world : World).

Definition layerN (k : nat) : jsstring -> jsstring -> M (option ScrapeResult) :=
  match k with
  | 0 => layer1 world | 1 => layer2 world | 2 => layer3 world
  | 3 => layer4 world | 4 => layer5 world | 5 => layer6 world
  | 6 => layer7 world | _ => layer8 world
  end.

(** Where the result of layer [k] (0-based) comes from: for the reader
    layer the text the service answered, for the others some HTML that
    passed the length and shell checks. *)
Definition produced (url : jsstring) (k : nat) (r : ScrapeResult) : Prop :=
  if k =? 3 then
    exists res t,
      respond world JinaReader (jinaRequest url) = Some res /\
      ok res = true /\ text res = Some t /\ isJinaError t = false /\
      r = makeResult (buildJinaMarkdown (now world) t url 4)
  else
    exists html,
      threshold k < length html /\ isSpaShell html = false /\
      r = makeResult
            (cleanHtmlToMarkdown (now world) html url (Z.of_nat (S k))).

End Layers.

(** The run after [declareLayers], after layers 0 to [n-1] failed, and
    after layer [k] succeeded behind them. *)
Definition declared : Run := {| layers := initialLayers; emitted := [] |}.

Fixpoint failedThrough (n : nat) : Run :=
  match n with
  | 0 => declared
  | S n' => settle n' failed (failedThrough n')
  end.

Definition succeededAt (k : nat) : Run := settle k success (failedThrough k).

Definition statuses (ls : list LayerStatus) : list Status := map status ls.


#[export] Instance Status_eq_dec : EqDecision Status.
Proof. solve_decision. Defined.

Definition statusAt (i : nat) (snap : list LayerStatus) : option Status :=
  status <$> snap !! i.

(** A list without its immediate repetitions. *)
Fixpoint changes (l : list (option Status)) : list (option Status) :=
  match l with
  | [] => []
  | x :: t =>
      match t with
      | [] => [x]
      | y :: _ => if decide (x = y) then changes t else x :: changes t
      end
  end.

(** The statuses layer [i] goes through, from the array as declared to
    the last snapshot. *)
Definition history (i : nat) (final : Run) : list (option Status) :=
  changes (map (statusAt i) (initialLayers :: emitted final)).





(** [String.prototype.isWellFormed]: no surrogate without its partner. *)
Fixpoint isWellFormed (s : jsstring) : bool :=
  match s with
  | [] => true
  | c :: t =>
      if isLowSurrogate c then false
      else if isHighSurrogate c then
        match t with
        | c2 :: t' => isLowSurrogate c2 && isWellFormed t'
        | [] => false
        end
      else isWellFormed t
  end.

Section Acquisition.
Context `{Host} (world : World).

(** What an answer with a 2xx status carries: the [contents] field of
    its JSON envelope, or its body. *)
Definition enveloped (site : Site) (url : jsstring) (ms : Z) : option jsstring :=
  res ← respond world site {| href := url; headers := []; timeout := ms |};
  if ok res then data ← json res; contents data else None.

Definition served (site : Site) (url : jsstring) (ms : Z) : option jsstring :=
  res ← respond world site {| href := url; headers := []; timeout := ms |};
  if ok res then text res else None.

Definition snapshotOf (encodedURL : jsstring) : option jsstring :=
  res ← respond world WaybackAvailable
        {| href := js "https://archive.org/wayback/available?url=" ++ encodedURL;
           headers := []; timeout := 10000 |};
  if ok res then
    data ← json res;
    if isEmpty (orEmpty (closestUrl data)) then None else closestUrl data
  else None.

(** The HTML that reaches the validators of layer [k] (0-based), when
    the layer's requests get that far. *)
Definition candidate (k : nat) (url encodedURL : jsstring) : option jsstring :=
  let viaAllOrigins target ms site :=
    enveloped site (js "https://api.allorigins.win/get?url=" ++ target) ms in
  match k with
  | 0 => viaAllOrigins encodedURL 12000%Z AllOrigins
  | 1 => served ThingProxy (js "https://thingproxy.freeboard.io/fetch/" ++ url)
                12000
  | 2 => served CodeTabs
                (js "https://api.codetabs.com/v1/proxy?quest=" ++ encodedURL)
                12000
  | 4 => target ← encodeURIComponent
                    (js "https://webcache.googleusercontent.com/search?q=cache:"
                     ++ encodedURL ++ js "&hl=en");
         viaAllOrigins target 15000%Z GoogleCache
  | 5 => snapshotUrl ← snapshotOf encodedURL;
         target ← encodeURIComponent snapshotUrl;
         viaAllOrigins target 20000%Z WaybackSnapshot
  | 6 => target ← encodeURIComponent
                    (js "https://12ft.io/proxy?q=" ++ encodedURL);
         viaAllOrigins target 20000%Z TwelveFt
  | 7 => viaAllOrigins (encodedURL ++ js "&charset=utf-8") 15000%Z HtmlRender
  | _ => None
  end.

End Acquisition.

Definition outcome (w : World) (url : jsstring)
  : option (jsstring * Z * Z * Z) * list Status * nat :=
  let out := run (H := plainHost) w url in
  (match out.1 with
   | Normal r => Some (take (length (provenance url (now w) 1)) (markdown r),
                       layersTriedCount r, wordCount r, readTime r)
   | Throw _ => None
   end,
   statuses (layers out.2), length (emitted out.2)).

(** ** Texts *)

Fixpoint takeWhile (ok : codeunit -> bool) (s : jsstring) : jsstring :=
  match s with
  | c :: t => if ok c then c :: takeWhile ok t else []
  | [] => []
  end.

Fixpoint dropWhile (ok : codeunit -> bool) (s : jsstring) : jsstring :=
  match s with
  | c :: t => if ok c then dropWhile ok t else s
  | [] => []
  end.

(** The code unit before the position reached after [w]. *)
Definition lastOr (prev : option codeunit) (w : jsstring) : option codeunit :=
  match last w with Some c => Some c | None => prev end.

(** The words of a text: its maximal stretches without white space.
    [cur] is the word being read. *)
Fixpoint wordsFrom (cur s : jsstring) : list jsstring :=
  match s with
  | [] => if isEmpty cur then [] else [cur]
  | c :: t =>
      if isWhiteSpace c then
        if isEmpty cur then wordsFrom [] t else cur :: wordsFrom [] t
      else wordsFrom (cur ++ [c]) t
  end.

Definition words (s : jsstring) : list jsstring := wordsFrom [] s.

Definition nonEmpty (w : jsstring) : bool := negb (isEmpty w).

Definition isLF (c : codeunit) : bool := N.eqb LF c.

(** The number of line feeds a text starts with. *)
Definition leadingLF (s : jsstring) : nat := length (takeWhile isLF s).

Definition threeLF : jsstring := [LF; LF; LF].

Definition isDigit (c : codeunit) : bool := within 48 57 c.

(** [n] decimal digits. *)
Definition digits (n : nat) (s : jsstring) : Prop :=
  length s = n /\ forallb isDigit s = true.

(** [YYYY-MM-DDTHH:mm:ss.sssZ], the ISO 8601 form of a UTC instant. *)
Definition isoShaped (s : jsstring) : Prop :=
  exists year month day hour minute second milli,
    s = year ++ js "-" ++ month ++ js "-" ++ day ++ js "T" ++
        hour ++ js ":" ++ minute ++ js ":" ++ second ++ js "." ++
        milli ++ js "Z" /\
    digits 4 year /\ digits 2 month /\ digits 2 day /\
    digits 2 hour /\ digits 2 minute /\ digits 2 second /\ digits 3 milli.

Definition digitsb (n : nat) (s : jsstring) : bool :=
  (length s =? n) && forallb isDigit s.

Definition isHash (c : codeunit) : bool := N.eqb 35 c.
Definition isEquals (c : codeunit) : bool := N.eqb 61 c.
Definition inLine (c : codeunit) : bool := negb (isLineTerminator c).

(** A title block at the start of [s]: a line that begins with [#], then
    a line of one or more [=]; what follows the block. *)
Definition titleBlockAt (s : jsstring) : option jsstring :=
  match s with
  | c :: t =>
      if isHash c then
        match dropWhile inLine t with
        | nl :: underline =>
            if isLF nl && (1 <=? length (takeWhile isEquals underline)) then
              match dropWhile isEquals underline with
              | nl' :: rest => if isLF nl' then Some rest else None
              | [] => None
              end
            else None
        | [] => None
        end
      else None
  | [] => None
  end.

(** The text without its first title block, a block counting where it
    starts a line. *)
Fixpoint stripFrom (lineStart : bool) (s : jsstring) : jsstring :=
  match s with
  | [] => []
  | c :: t =>
      match (if lineStart then titleBlockAt s else None) with
      | Some rest => rest
      | None => c :: stripFrom (isLineTerminator c) t
      end
  end.

Definition stripTitleBlock (s : jsstring) : jsstring := stripFrom true s.

(** C8 read to the letter: only a title block that leads the text is
    stripped. *)
Definition stripLeadingTitle (s : jsstring) : jsstring :=
  match titleBlockAt s with Some rest => rest | None => s end.

Definition botWallAsStated `{Host} (answer : jsstring) : bool :=
  isEmpty answer || (length answer <? 100)
  || existsb (includes (toLowerCase answer)) jinaMarkers
  || (length (trim (stripLeadingTitle answer)) <? 100).

(** ** Patterns *)

(** The words of a pattern without [^]: an atom stands for one
    character it matches, a repetition for [min] or more of them. *)
Fixpoint Matches (ic : bool) (its : list item) (w : jsstring) : Prop :=
  match its with
  | [] => w = []
  | One a :: its' =>
      exists c w', w = c :: w' /\ atomMatches ic a c = true /\ Matches ic its' w'
  | Repeat min a :: its' =>
      exists u v, w = u ++ v /\ min <= length u /\
                  forallb (atomMatches ic a) u = true /\ Matches ic its' v
  | Bol :: _ => False
  end.

Definition isBol (it : item) : bool :=
  match it with Bol => true | _ => false end.

Definition bolFree (its : list item) : bool := forallb (fun it => negb (isBol it)) its.

(** [w] spells the literal [str], letter case apart. *)
Definition caseless (str : string) (w : jsstring) : Prop :=
  Forall2 (fun p c => canonicalize true p = canonicalize true c) (js str) w.

Definition isQuote (c : codeunit) : Prop := c = quote \/ c = apostrophe.

Definition greaterThan : codeunit := 62%N.

(** An empty mount point: [<div], one or more characters other than
    [>], [id=], the id between quotes, characters other than [>], [>],
    white space only, [</div>]. *)
Definition hasEmptyRoot (id : string) (markup : jsstring) : Prop :=
  exists before tag attrs key q1 name q2 more spaces closing after,
    markup = before ++
             (tag ++ attrs ++ key ++ q1 :: name ++ q2 :: more ++
              greaterThan :: spaces ++ closing) ++ after /\
    caseless "<div" tag /\
    1 <= length attrs /\ Forall (fun c => c <> greaterThan) attrs /\
    caseless "id=" key /\ isQuote q1 /\ caseless id name /\ isQuote q2 /\
    Forall (fun c => c <> greaterThan) more /\
    Forall (fun c => isWhiteSpace c = true) spaces /\
    caseless "</div>" closing.

(** A [data-page] attribute with a value of one or more characters
    between quotes. *)
Definition hasDataPage (markup : jsstring) : Prop :=
  exists before key q1 value q2 after,
    markup = before ++ (key ++ q1 :: value ++ [q2]) ++ after /\
    caseless "data-page=" key /\ isQuote q1 /\
    1 <= length value /\ Forall (fun c => ~ isQuote c) value /\
    isQuote q2.

(** ** The decision of a layer *)

Section Decisions.
Context `{Host} (world : World).

(** What layer [k] (0-based) hands back: for the reader layer the
    document of an answer that [isJinaError] lets through, for the
    others the document of a candidate longer than the layer's minimum
    that is not a shell. *)
Definition decision (k : nat) (url encodedURL : jsstring) : option ScrapeResult :=
  if k =? 3 then
    res ← respond world JinaReader (jinaRequest url);
    if ok res then
      t ← text res;
      if isJinaError t then None
      else Some (makeResult (buildJinaMarkdown (now world) t url 4))
    else None
  else
    html ← candidate world k url encodedURL;
    if (threshold k <? length html) && negb (isSpaShell html) then
      Some (makeResult (cleanHtmlToMarkdown (now world) html url (Z.of_nat (S k))))
    else None.

(** The first of layers [k], [k+1], ... ([n] of them) that hands back a
    result. *)
Fixpoint firstAccepted (url encodedURL : jsstring) (k n : nat)
  : option (nat * ScrapeResult) :=
  match n with
  | 0 => None
  | S n' =>
      match decision k url encodedURL with
      | Some r => Some (k, r)
      | None => firstAccepted url encodedURL (S k) n'
      end
  end.

End Decisions.

(** The call sites of layer [k] (0-based). *)
Definition layerSites (k : nat) : list Site :=
  match k with
  | 0 => [AllOrigins] | 1 => [ThingProxy] | 2 => [CodeTabs]
  | 3 => [JinaReader] | 4 => [GoogleCache]
  | 5 => [WaybackAvailable; WaybackSnapshot]
  | 6 => [TwelveFt] | 7 => [HtmlRender]
  | _ => []
  end.

(** Two worlds that tell the same time and answer alike at the call
    sites of layers 0 to [k]. *)
Definition agreeThrough (k : nat) (w1 w2 : World) : Prop :=
  now w1 = now w2 /\
  forall j site, j <= k -> In site (layerSites j) ->
                 respond w1 site = respond w2 site.



(** ** The content root *)

(** The document once the noise is taken out. *)
Definition withoutNoise `{Host} (html : jsstring) : Document :=
  fold_left (fun d sel => removeAll sel d) noiseSelectors (parseFromString html).

(** [sel] is the first of [sels] that matches in [doc], and matches [el]. *)
Definition firstToMatch `{Host} (doc : Document) (sels : list jsstring)
    (sel : jsstring) (el : Element) : Prop :=
  exists i,
    sels !! i = Some sel /\ querySelector doc sel = Some el /\
    forall j other, j < i -> sels !! j = Some other ->
                    querySelector doc other = None.

(** ** Words and code units *)

(** A stretch without white space. *)
Definition solid (s : jsstring) : bool :=
  forallb (fun c => negb (isWhiteSpace c)) s.

(** The words of the provenance header that stand around the URL, the
    time stamp and the layer number: [---], [source:], [scraped:],
    [layers_tried:], [---], and the time stamp and the number
    themselves. *)
Definition headerWords : nat := 7.

(** A code unit that [encodeURIComponent] can write: an unreserved
    character, or the [%] of an escape. *)
Definition isUriSafe (c : codeunit) : bool := uriUnreserved c || N.eqb c 37.

(** UTF-16 code units are below 2^16. *)
Definition isCodeUnit (c : codeunit) : bool := (c <? 65536)%N.

Definition notSurrogate (c : codeunit) : bool :=
  negb (isLowSurrogate c) && negb (isHighSurrogate c).


(** * The five-layer engine of [unnamed/part_000]

    The earlier version of the engine: five layers, one minimum length
    for all of them and no content validator.  Its [buildJinaMarkdown]
    and [makeResult] are those of the eight-layer engine word for word,
    and so are [updateLayer] and the noise selectors of its
    [cleanHtmlToMarkdown]. *)

Module Legacy.

Inductive Site := AllOrigins | CorsProxy | CodeTabs | JinaReader | Direct.

(** The direct request of layer 5 is the one sent with [mode: "no-cors"]. *)
Record World := {
  respond : Site -> Request -> option Response;
  now : Z
}.

Definition initialLayers : list LayerStatus :=
  [ {| layer := 1; name := js "AllOrigins"; status := pending |};
    {| layer := 2; name := js "CorsProxy.io"; status := pending |};
    {| layer := 3; name := js "CodeTabs"; status := pending |};
    {| layer := 4; name := js "Jina Reader"; status := pending |};
    {| layer := 5; name := js "Direct Fetch"; status := pending |} ].

Definition declareLayers : M unit := fun st =>
  (Normal (), {| layers := initialLayers; emitted := emitted st |}).

Section Engine.
Context `{Host}.

Definition contentSelectors : list jsstring :=
  [js "article"; js "main"; attributeSelector "role" "main";
   js ".content"; js ".post-content"; js ".entry-content"; js ".article-body";
   js "body"].

Definition cleanHtmlToMarkdown (date : Z) (html sourceUrl : jsstring)
    (layersTriedCount : Z) : jsstring :=
  let doc := fold_left (fun d sel => removeAll sel d) noiseSelectors
                       (parseFromString html) in
  let mainEl := firstMatch doc contentSelectors in
  let rawHtml :=
    match mainEl with
    | Some el => innerHTML el
    | None => match body doc with Some b => innerHTML b | None => [] end
    end in
  let markdown := turndown rawHtml in
  let markdown := collapseBlankLines markdown in
  provenance sourceUrl date layersTriedCount ++ markdown.

Section Orchestrator.
Variable world : World.

Definition fetch (site : Site) (url : jsstring)
    (hdrs : list (string * string)) (ms : Z) : M Response := fun st =>
  match respond world site
          {| href := url; headers := hdrs; timeout := ms |} with
  | Some res => (Normal res, st)
  | None => (Throw FetchError, st)
  end.

Definition layer1 (url encodedURL : jsstring) : M (option ScrapeResult) :=
  updateLayer 0 trying;;
  r ← try_ (
    res ← fetch AllOrigins
            (js "https://api.allorigins.win/get?url=" ++ encodedURL) [] 8000;
    if ok res then
      data ← resJson res;
      let c := orEmpty (contents data) in
      if negb (isEmpty c) && (200 <? length c) then
        updateLayer 0 success;;
        mret (Some (makeResult (cleanHtmlToMarkdown (now world) c url 1)))
      else mret None
    else mret None);
  match r with
  | Some x => mret (Some x)
  | None => updateLayer 0 failed;; mret None
  end.

Definition layer2 (url encodedURL : jsstring) : M (option ScrapeResult) :=
  updateLayer 1 trying;;
  r ← try_ (
    res ← fetch CorsProxy (js "https://corsproxy.io/?" ++ encodedURL) [] 8000;
    if ok res then
      html ← resText res;
      if negb (isEmpty html) && (200 <? length html) then
        updateLayer 1 success;;
        mret (Some (makeResult (cleanHtmlToMarkdown (now world) html url 2)))
      else mret None
    else mret None);
  match r with
  | Some x => mret (Some x)
  | None => updateLayer 1 failed;; mret None
  end.

Definition layer3 (url encodedURL : jsstring) : M (option ScrapeResult) :=
  updateLayer 2 trying;;
  r ← try_ (
    res ← fetch CodeTabs
            (js "https://api.codetabs.com/v1/proxy?quest=" ++ encodedURL)
            [] 8000;
    if ok res then
      html ← resText res;
      if negb (isEmpty html) && (200 <? length html) then
        updateLayer 2 success;;
        mret (Some (makeResult (cleanHtmlToMarkdown (now world) html url 3)))
      else mret None
    else mret None);
  match r with
  | Some x => mret (Some x)
  | None => updateLayer 2 failed;; mret None
  end.

Definition jinaHeaders : list (string * string) :=
  [("Accept", "text/markdown,text/plain,*/*")]%string.

Definition layer4 (url encodedURL : jsstring) : M (option ScrapeResult) :=
  updateLayer 3 trying;;
  r ← try_ (
    res ← fetch JinaReader (js "https://r.jina.ai/" ++ url) jinaHeaders 15000;
    if ok res then
      text ← resText res;
      if negb (isEmpty text) && (200 <? length text) then
        updateLayer 3 success;;
        mret (Some (makeResult (buildJinaMarkdown (now world) text url 4)))
      else mret None
    else mret None);
  match r with
  | Some x => mret (Some x)
  | None => updateLayer 3 failed;; mret None
  end.

(** The opaque answer of the direct request is dropped ([void res]). *)
Definition layer5 (url encodedURL : jsstring) : M (option ScrapeResult) :=
  updateLayer 4 trying;;
  r ← try_ (
    res ← fetch Direct url [] 5000;
    mret None);
  match r with
  | Some x => mret (Some x)
  | None => updateLayer 4 failed;; mret None
  end.

Definition scrapeUrl (url : jsstring) : M ScrapeResult :=
  encodedURL ← encode url;
  declareLayers;;
  orNext (layer1 url encodedURL) (
  orNext (layer2 url encodedURL) (
  orNext (layer3 url encodedURL) (
  orNext (layer4 url encodedURL) (
  orNext (layer5 url encodedURL) (
  throw exhaustion))))).

Definition run (url : jsstring) : completion ScrapeResult * Run :=
  scrapeUrl url unstarted.

End Orchestrator.
End Engine.

(** ** Vocabulary *)

Definition declared : Run := {| layers := initialLayers; emitted := [] |}.

Fixpoint failedThrough (n : nat) : Run :=
  match n with
  | 0 => declared
  | S n' => settle n' failed (failedThrough n')
  end.

Definition succeededAt (k : nat) : Run := settle k success (failedThrough k).

Section Decisions.
Context `{Host} (world : World).

Definition layerN (k : nat) : jsstring -> jsstring -> M (option ScrapeResult) :=
  match k with
  | 0 => layer1 world | 1 => layer2 world | 2 => layer3 world
  | 3 => layer4 world | _ => layer5 world
  end.

(** What an answer with a 2xx status carries, by layer. *)
Definition candidate (k : nat) (url encodedURL : jsstring) : option jsstring :=
  match k with
  | 0 => res ← respond world AllOrigins
                  {| href := js "https://api.allorigins.win/get?url=" ++ encodedURL;
                     headers := []; timeout := 8000 |};
         if ok res then data ← json res; contents data else None
  | 1 => res ← respond world CorsProxy
                  {| href := js "https://corsproxy.io/?" ++ encodedURL;
                     headers := []; timeout := 8000 |};
         if ok res then text res else None
  | 2 => res ← respond world CodeTabs
                  {| href := js "https://api.codetabs.com/v1/proxy?quest="
                             ++ encodedURL;
                     headers := []; timeout := 8000 |};
         if ok res then text res else None
  | 3 => res ← respond world JinaReader
                  {| href := js "https://r.jina.ai/" ++ url;
                     headers := jinaHeaders; timeout := 15000 |};
         if ok res then text res else None
  | _ => None
  end.

(** What layer [k] (0-based) hands back: the document of a candidate
    longer than 200 code units. *)
Definition decision (k : nat) (url encodedURL : jsstring) : option ScrapeResult :=
  c ← candidate k url encodedURL;
  if 200 <? length c then
    Some (makeResult
            (if k =? 3 then buildJinaMarkdown (now world) c url 4
             else cleanHtmlToMarkdown (now world) c url (Z.of_nat (S k))))
  else None.

Fixpoint firstAccepted (url encodedURL : jsstring) (k n : nat)
  : option (nat * ScrapeResult) :=
  match n with
  | 0 => None
  | S n' =>
      match decision k url encodedURL with
      | Some r => Some (k, r)
      | None => firstAccepted url encodedURL (S k) n'
      end
  end.

End Decisions.

(** The world in which every site serves [page]. *)
Definition worldServing (page : jsstring) (date : Z) : World :=
  {| respond := fun _ _ => Some (serving page); now := date |}.

End Legacy.

(** * The history store of [unnamed/part_001]

    [useHistory] keeps the last URLs scraped under one [localStorage]
    key.  The store is that key's item: absent, or a string.
    [JSON.parse] and [JSON.stringify] are taken at the type the source
    gives them, [HistoryEntry[]]: [parse] is [None] where [JSON.parse]
    throws, reading back what [stringify] wrote gives the same entries,
    and the empty array is written [[]].  [setItem] stores what it is
    given. *)

Module History.

Record HistoryEntry := {
  url : jsstring;
  title : jsstring;
  timestamp : Z
}.

Class Json := {
  stringify : list HistoryEntry -> jsstring;
  parse : jsstring -> option (list HistoryEntry);
  parse_stringify : forall entries, parse (stringify entries) = Some entries;
  stringify_nil : stringify [] = js "[]";
  stringify_nonempty : forall entries, stringify entries <> []
}.

(** The item under [site-unraveler-history]. *)
Definition Storage := option jsstring.

Section Hook.
Context `{Json}.

Definition getHistory (store : Storage) : list HistoryEntry :=
  let item :=
    match store with
    | Some s => if isEmpty s then js "[]" else s
    | None => js "[]"
    end in
  match parse item with
  | Some entries => entries
  | None => []
  end.

(** [date] is the value of [Date.now()]. *)
Definition addHistory (u t : jsstring) (date : Z) (store : Storage) : Storage :=
  let existing :=
    List.filter (fun h => negb (bool_decide (url h = u))) (getHistory store) in
  let updated :=
    take 5 ({| url := u; title := t; timestamp := date |} :: existing) in
  Some (stringify updated).

End Hook.

(** ** Vocabulary *)

Definition entry (u t : jsstring) (date : Z) : HistoryEntry :=
  {| url := u; title := t; timestamp := date |}.

Definition other (u : jsstring) (h : HistoryEntry) : bool :=
  negb (bool_decide (url h = u)).

(** A call of [addHistory]: the URL, the title, and what [Date.now()]
    gives at the call. *)
Record Call := { visited : jsstring; titled : jsstring; at_ : Z }.

(** The store after a sequence of calls, oldest first. *)
Definition after `{Json} (calls : list Call) (store : Storage) : Storage :=
  fold_left (fun st c => addHistory (visited c) (titled c) (at_ c) st)
            calls store.

(** The URLs visited, without repetition, the most recent first. *)
Definition recency (urls : list jsstring) : list jsstring :=
  fold_left (fun acc u => u :: List.filter (fun v => negb (bool_decide (v = u))) acc)
            urls [].

Definition newestFirst (h : list HistoryEntry) : Prop :=
  StronglySorted (fun a b => (timestamp b <= timestamp a)%Z) h.

Definition chronological (calls : list Call) : Prop :=
  StronglySorted (fun a b => (at_ a <= at_ b)%Z) calls.

(** A codec to run the hook on: an entry is written as the length of
    its URL, the URL, the length of its title, the title, and a code of
    its time stamp; the entries stand between brackets. *)
Definition zcode (z : Z) : N :=
  match z with
  | Z0 => 0%N
  | Zpos p => Npos (xO p)
  | Zneg p => Npos (xI p)
  end.

Definition zdecode (n : N) : Z :=
  match n with
  | Npos (xO p) => Zpos p
  | Npos (xI p) => Zneg p
  | _ => 0%Z
  end.

Definition writeEntry (h : HistoryEntry) : jsstring :=
  N.of_nat (length (url h)) :: url h ++
  N.of_nat (length (title h)) :: title h ++ [zcode (timestamp h)].

Fixpoint readEntries (fuel : nat) (s : jsstring) : option (list HistoryEntry) :=
  match fuel with
  | 0 => None
  | S fuel' =>
      match s with
      | [] => None
      | [c] => if N.eqb c 93 then Some [] else None
      | n :: rest =>
          let u := take (N.to_nat n) rest in
          match drop (N.to_nat n) rest with
          | m :: rest' =>
              let t := take (N.to_nat m) rest' in
              match drop (N.to_nat m) rest' with
              | z :: rest'' =>
                  if (length u =? N.to_nat n) && (length t =? N.to_nat m) then
                    cons (entry u t (zdecode z)) <$> readEntries fuel' rest''
                  else None
              | [] => None
              end
          | [] => None
          end
      end
  end.

Definition plainStringify (entries : list HistoryEntry) : jsstring :=
  91%N :: concat (map writeEntry entries) ++ [93%N].

Definition plainParse (s : jsstring) : option (list HistoryEntry) :=
  match s with
  | c :: rest => if N.eqb c 91 then readEntries (length s) rest else None
  | [] => None
  end.

End History.

(** * What [handleScrape] passes to the engine

    [handleScrape] is the handler of the page component that follows the
    engine in [src/lib/scrapeEngine.ts] and calls its [scrapeUrl].

    [/^https?:\/\//i]: the optional [s] is written as its two
    readings, and the test succeeds when one of them matches. *)

Definition schemePattern (scheme : string) : regex :=
  pattern (Bol :: lit scheme) "i".

Definition hasScheme (s : jsstring) : bool :=
  test (schemePattern "https://") s || test (schemePattern "http://") s.

(** The first lines of [handleScrape]: the address to scrape, [None]
    when the handler returns at once.  [targetUrl] is the optional
    argument, [url] the state of the input field. *)
Definition scrapeTarget (targetUrl : option jsstring) (url : jsstring)
  : option jsstring :=
  let scrapeUrl_ :=
    match targetUrl with
    | Some t => if isEmpty t then url else t
    | None => url
    end in
  if isEmpty scrapeUrl_ then None
  else if negb (hasScheme scrapeUrl_) then Some (js "https://" ++ scrapeUrl_)
  else Some scrapeUrl_.

(** [s] begins with the scheme [scheme], letter case apart. *)
Definition beginsWith (scheme : string) (s : jsstring) : Prop :=
  exists p rest, s = p ++ rest /\ caseless scheme p.

(** * The progress log of [src/components/LayerLog.tsx]

    What a row of the log shows of a layer's status: the icon, the
    label and the two class names that depend on it. *)

Record Icon := {
  component : string;
  className : jsstring
}.

Definition statusIcon (s : Status) : Icon :=
  match s with
  | trying =>
      {| component := "Loader2";
         className := js "w-3.5 h-3.5 animate-spin text-primary" |}
  | success =>
      {| component := "CheckCircle2";
         className := js "w-3.5 h-3.5 text-success" |}
  | failed =>
      {| component := "XCircle";
         className := js "w-3.5 h-3.5 text-destructive" |}
  | _ =>
      {| component := "Clock";
         className := js "w-3.5 h-3.5 text-muted-foreground" |}
  end.

Definition statusLabel (s : Status) : jsstring :=
  match s with
  | trying => js "Trying..."
  | success => js "Success"
  | failed => js "Failed"
  | _ => js "Pending"
  end.

(** The class that dims the row of a layer. *)
Definition rowOpacity (l : LayerStatus) : jsstring :=
  if Status_eqb (status l) pending then js "opacity-40" else js "opacity-100".

(** The class of the label. *)
Definition labelClass (l : LayerStatus) : jsstring :=
  if Status_eqb (status l) success then js "text-success"
  else if Status_eqb (status l) failed then js "text-destructive"
  else if Status_eqb (status l) trying then js "text-primary"
  else js "text-muted-foreground".

(** [s] ends with [suffix] after a space. *)
Definition lastClass (s suffix : jsstring) : Prop :=
  exists before, s = before ++ 32%N :: suffix.

(** * The page: [handleScrape] and [handleDownload]

    The state of the page component is the record of its [useState]
    cells, with [ticking] for [loadingInterval.current] being set; the
    two [localStorage] items are the store.  A state setter assigns its
    cell.  [String.prototype.match] with [/^#\s+(.+)$/m] and the URL
    parser are taken from the browser: [titleMatch] is the first group of
    the match, [hostname] is [new URL(u).hostname], [None] where the
    constructor throws.  While a scrape is awaited the interval fires
    some number of times, [ticks]. *)

(** [String.prototype.split] with a separator string and no limit. *)
Fixpoint splitOnLoop (fuel : nat) (sep tok s : jsstring) : list jsstring :=
  match fuel with
  | 0 => [tok ++ s]
  | S fuel' =>
      match s with
      | [] => [tok]
      | c :: t =>
          if startsWith s sep then
            tok :: splitOnLoop fuel' sep [] (drop (length sep) s)
          else splitOnLoop fuel' sep (tok ++ [c]) t
      end
  end.

Definition splitOn (s sep : jsstring) : list jsstring :=
  if isEmpty sep then map (fun c => [c]) s
  else splitOnLoop (S (length s)) sep [] s.

(** [/\./g] *)
Definition everyDot : regex := pattern [One (AChar 46%N)] "g".

Module Page.

Inductive AppState := idle | loading | success | error.

Inductive Tab := preview | raw.

Record View := {
  url : jsstring;
  appState : AppState;
  markdown : jsstring;
  layers : list LayerStatus;
  loadingMsgIdx : nat;
  wordCount : Z;
  readTime : Z;
  activeTab : Tab;
  progressKey : Z;
  errorMsg : jsstring;
  ticking : bool
}.

Record Store := {
  lastUrl : option jsstring;            (* site-unraveler-last-url *)
  history : History.Storage             (* site-unraveler-history *)
}.

Class Browser := {
  titleMatch : jsstring -> option jsstring;
  hostname : jsstring -> option jsstring
}.

(** The number of [LOADING_MESSAGES]. *)
Definition loadingMessages : nat := 11.

Definition failureMessage : jsstring :=
  js "All 8 scraping layers failed " ++ [8212%N] ++
  js " including Google Cache, Wayback Machine, Jina AI, and 12ft.io bypass." ++
  js " The site enforces strict bot protection.".

Section Handlers.
Context `{Host} `{History.Json} `{Browser} (world : World).

(** [stopLoadingMessages(); setErrorMsg(...); setAppState("error")] *)
Definition showFailure (v : View) : View :=
  {| url := url v; appState := error; markdown := markdown v;
     layers := layers v; loadingMsgIdx := loadingMsgIdx v;
     wordCount := wordCount v; readTime := readTime v;
     activeTab := activeTab v; progressKey := progressKey v;
     errorMsg := failureMessage; ticking := false |}.

(** [ticks] is the number of times the interval fires during the
    scrape, [clock] what [Date.now()] gives to [addHistory]. *)
Definition handleScrape (targetUrl : option jsstring) (ticks : nat) (clock : Z)
    (v : View) (s : Store) : View * Store :=
  match scrapeTarget targetUrl (url v) with
  | None => (v, s)
  | Some scrapeUrl_ =>
      let typed :=
        match targetUrl with
        | Some t => isEmpty t
        | None => true
        end in
      let url' :=
        if negb (hasScheme (url v)) && typed then scrapeUrl_ else url v in
      let s := {| lastUrl := Some scrapeUrl_; history := history s |} in
      let out := run world scrapeUrl_ in
      (* the snapshots go to [setLayers], the interval to [setLoadingMsgIdx] *)
      let v :=
        {| url := url'; appState := loading; markdown := [];
           layers := default [] (last (emitted out.2));
           loadingMsgIdx :=
             Nat.iter ticks (fun i => (i + 1) mod loadingMessages) 0;
           wordCount := wordCount v; readTime := readTime v;
           activeTab := activeTab v; progressKey := progressKey v + 1;
           errorMsg := []; ticking := true |} in
      match out.1 with
      | Normal (Build_ScrapeResult md _ words minutes) =>
          let v :=
            {| url := url v; appState := success; markdown := md;
               layers := layers v; loadingMsgIdx := loadingMsgIdx v;
               wordCount := words; readTime := minutes;
               activeTab := preview; progressKey := progressKey v;
               errorMsg := errorMsg v; ticking := false |} in
          let title :=
            match titleMatch md with
            | Some t => Some t
            | None => hostname scrapeUrl_
            end in
          match title with
          | Some t =>
              (v, {| lastUrl := lastUrl s;
                     history := History.addHistory scrapeUrl_ t clock
                                                   (history s) |})
          | None => (showFailure v, s)
          end
      | Throw _ => (showFailure v, s)
      end
  end.

(** The name [handleDownload] gives the file, [None] when [new URL]
    throws; [date] is the time value of [new Date()]. *)
Definition downloadName (v : View) (date : Z) : option jsstring :=
  h ← hostname (url v);
  let domain := replace h everyDot (js "-") in
  let day := default [] (head (splitOn (toISOString date) (js "T"))) in
  Some (domain ++ js "-" ++ day ++ js ".md").

End Handlers.
End Page.

(** ** Vocabulary *)


(** A browser for the worked cases: a heading is a line that begins
    with [# ] and goes on, a host is what stands between the scheme and
    the next slash. *)
Definition notSlash (c : codeunit) : bool := negb (N.eqb 47 c).

Fixpoint plainTitle (lineStart : bool) (md : jsstring) : option jsstring :=
  match md with
  | [] => None
  | c :: t =>
      if lineStart && startsWith md (js "# ") &&
         negb (isEmpty (takeWhile inLine (drop 2 md)))
      then Some (takeWhile inLine (drop 2 md))
      else plainTitle (isLineTerminator c) t
  end.

Definition plainHostname (u : jsstring) : option jsstring :=
  let after n := takeWhile notSlash (drop n u) in
  if startsWith u (js "https://") && negb (isEmpty (after 8)) then Some (after 8)
  else if startsWith u (js "http://") && negb (isEmpty (after 7)) then Some (after 7)
  else None.

Definition plainBrowser : Page.Browser :=
  {| Page.titleMatch := plainTitle true; Page.hostname := plainHostname |}.

(** The page before anything is entered. *)
Definition blankView : Page.View :=
  {| Page.url := []; Page.appState := Page.idle; Page.markdown := [];
     Page.layers := []; Page.loadingMsgIdx := 0; Page.wordCount := 0;
     Page.readTime := 0; Page.activeTab := Page.preview;
     Page.progressKey := 0; Page.errorMsg := []; Page.ticking := false |}.

Definition emptyStore : Page.Store :=
  {| Page.lastUrl := None; Page.history := None |}.


(** * Facts about the orchestrator *)

Section OrchestratorFacts.
Context `{Host} (world : World).

Lemma polite_none i P : polite i P (mret None).
Proof. intros st. now left. Qed.

Lemma polite_success i (P : ScrapeResult -> Prop) r :
  P r -> polite i P (updateLayer i success;; mret (Some r)).
Proof. intros HP st. right; right. exists r. split; [exact HP|reflexivity]. Qed.

Lemma polite_if i P (b : bool) body1 body2 :
  (b = true -> polite i P body1) -> (b = false -> polite i P body2) ->
  polite i P (if b then body1 else body2).
Proof. destruct b; auto. Qed.

Lemma polite_fetch i P site url hdrs ms k :
  (forall res,
      respond world site {| href := url; headers := hdrs; timeout := ms |}
        = Some res -> polite i P (k res)) ->
  polite i P (fetch world site url hdrs ms ≫= k).
Proof.
  intros Hk st. unfold mbind, M_bind, fetch.
  destruct (respond world site _) as [res|] eqn:E; [apply (Hk res eq_refl)|].
  right; left. now exists FetchError.
Qed.

Lemma polite_resJson i P res k :
  (forall data, json res = Some data -> polite i P (k data)) ->
  polite i P (resJson res ≫= k).
Proof.
  intros Hk st. unfold mbind, M_bind, resJson.
  destruct (json res) as [data|] eqn:E; [apply (Hk data eq_refl)|].
  right; left. now exists BodyError.
Qed.

Lemma polite_resText i P res k :
  (forall t, text res = Some t -> polite i P (k t)) ->
  polite i P (resText res ≫= k).
Proof.
  intros Hk st. unfold mbind, M_bind, resText.
  destruct (text res) as [t|] eqn:E; [apply (Hk t eq_refl)|].
  right; left. now exists BodyError.
Qed.

Lemma polite_encode i P s k :
  (forall e, encodeURIComponent s = Some e -> polite i P (k e)) ->
  polite i P (encode s ≫= k).
Proof.
  intros Hk st. unfold mbind, M_bind, encode.
  destruct (encodeURIComponent s) as [e|] eqn:E; [apply (Hk e eq_refl)|].
  right; left. now exists URIError.
Qed.

Lemma attempt_settles i P body st :
  polite i P body ->
  exists o, attempt i body st = (Normal o, settle i (verdict o) st)
            /\ forall r, o = Some r -> P r.
Proof.
  intros Hb. unfold attempt, settle.
  assert (E0 : updateLayer i trying st = (Normal (), step i trying st))
    by reflexivity.
  unfold mbind, M_bind, try_. rewrite E0.
  destruct (Hb (step i trying st)) as [E|[[e E]|[r [HP E]]]]; rewrite E.
  - exists None. split; [reflexivity|discriminate].
  - exists None. split; [reflexivity|discriminate].
  - exists (Some r). split; [reflexivity|]. now intros ? [= <-].
Qed.

Lemma accepted_html (c : jsstring) (n : nat) :
  negb (isEmpty c) && (n <? length c) && negb (isSpaShell c) = true ->
  n < length c /\ isSpaShell c = false.
Proof.
  intros Hc. apply andb_true_iff in Hc as [Hc Hspa].
  apply andb_true_iff in Hc as [_ Hlen].
  apply Nat.ltb_lt in Hlen. apply negb_true_iff in Hspa. now split.
Qed.

Ltac polite_steps :=
  repeat first
    [ progress cbv zeta
    | apply polite_none
    | apply polite_fetch; intros ? ?
    | apply polite_resJson; intros ? ?
    | apply polite_resText; intros ? ?
    | apply polite_encode; intros ? ?
    | apply polite_if; intros ? ].

Lemma layerN_settles k url enc st :
  k < 8 ->
  exists o, layerN world k url enc st = (Normal o, settle k (verdict o) st)
            /\ forall r, o = Some r -> produced world url k r.
Proof.
  intros Hk.
  destruct k as [|[|[|[|[|[|[|[|k]]]]]]]]; [..|lia]; cbn [layerN].
  all: unfold layer1, layer2, layer3, layer4, layer5, layer6, layer7, layer8;
    eapply (attempt_settles _ (produced world url _)).
  all: polite_steps.
  all: apply polite_success; unfold produced; cbn [Nat.eqb].
  all: try (match goal with
            | Hc : _ && _ && _ = true |- _ =>
                apply accepted_html in Hc; destruct Hc as [Hlen Hspa]
            end;
            eexists; split; [|split; [|reflexivity]]; [exact Hlen|exact Hspa]).
  eexists _, _. repeat split; eauto.
  now apply negb_true_iff.
Qed.

End OrchestratorFacts.

Section RunFacts.
Context `{Host} (world : World).

Ltac next_layer world url enc n :=
  let o := fresh "o" in let E := fresh "E" in let HP := fresh "HP" in
  destruct (layerN_settles world n url enc (failedThrough n))
    as [o [E HP]]; [lia|];
  cbn [layerN] in E; rewrite E; clear E; cbv iota beta;
  destruct o as [r|];
  [ left; exists n, r; split; [lia|]; split; [now apply HP|reflexivity]
  | clear HP; change (settle n (verdict None) (failedThrough n))
               with (failedThrough (S n)) ].

(** How a call ends: on a URL that does not encode, with [URIError]
    before anything else happens; otherwise with the result of the first
    layer that accepts, or with the exhaustion error once all eight have
    failed. *)
Lemma run_cases url :
  match encodeURIComponent url with
  | None => run world url = (Throw URIError, unstarted)
  | Some enc =>
      (exists k r, k < 8 /\ produced world url k r /\
                   run world url = (Normal r, succeededAt k)) \/
      run world url = (Throw exhaustion, failedThrough 8)
  end.
Proof.
  unfold run, scrapeUrl, encode.
  destruct (encodeURIComponent url) as [enc|]; [|reflexivity].
  unfold orNext, mbind, M_bind, mret, M_ret, declareLayers, unstarted.
  cbn [emitted].
  change {| layers := initialLayers; emitted := [] |} with (failedThrough 0).
  next_layer world url enc 0. next_layer world url enc 1.
  next_layer world url enc 2. next_layer world url enc 3.
  next_layer world url enc 4. next_layer world url enc 5.
  next_layer world url enc 6. next_layer world url enc 7.
  right. reflexivity.
Qed.

End RunFacts.

(** * The final layer statuses *)

Ltac each_outcome world url :=
  let C := fresh "C" in
  pose proof (run_cases world url) as C;
  destruct (encodeURIComponent url) as [?enc|];
  [ destruct C as [(k & r & Hk & Hprod & C)|C];
    [ destruct k as [|[|[|[|[|[|[|[|k]]]]]]]]; [..|lia] | ] | ];
  rewrite C; clear C; cbn [fst snd].

Ltac each_index i :=
  destruct i as [|[|[|[|[|[|[|[|i]]]]]]]];
  try discriminate; try lia.

(** C2. In the [layers] array a call leaves behind (which is also the
    last snapshot the callback received) at most one entry is [success];
    every entry before a [success] entry is [failed] and every entry
    after it is [pending]; and when the call throws the exhaustion error
    all eight entries are [failed]. *)
Theorem final_statuses_shape `{Host} (world : World) (url : jsstring) :
  let c := (run world url).1 in
  let final := (run world url).2 in
  let ss := statuses (layers final) in
  (emitted final <> [] -> last (emitted final) = Some (layers final)) /\
  length (List.filter (Status_eqb success) ss) <= 1 /\
  (forall i, ss !! i = Some success ->
     (forall j, j < i -> ss !! j = Some failed) /\
     (forall j, i < j -> j < length ss -> ss !! j = Some pending)) /\
  (c = Throw exhaustion -> length ss = 8 /\ Forall (eq failed) ss).
Proof.
  cbv zeta. each_outcome world url.
  all: split; [intros Hne; first [reflexivity | now destruct Hne]|].
  all: match goal with
       | |- context [statuses (layers ?t)] =>
           let v := eval vm_compute in (statuses (layers t)) in
           change (statuses (layers t)) with v
       end.
  all: split; [vm_compute; lia|].
  all: split;
    [|first [discriminate
            |intros _; split; [reflexivity|repeat constructor]]].
  all: intros i Hi; each_index i.
  all: split; intros j Hj; try intros Hj'; each_index j; try reflexivity.
  all: try (cbn in Hj'; lia).
Qed.

(** * The life of a layer *)


Ltac concretize f :=
  match goal with
  | |- context [f ?t] =>
      let v := eval vm_compute in (f t) in change (f t) with v
  end.


(** * What a successful call reports *)

Lemma startsWith_app (p x : jsstring) : startsWith (p ++ x) p = true.
Proof.
  induction p as [|c p IH]; [reflexivity|].
  cbn. now rewrite N.eqb_refl, IH.
Qed.

Lemma markdown_makeResult `{Host} md : markdown (makeResult md) = md.
Proof. reflexivity. Qed.

(** Every result comes out of [makeResult], which sets the field to 0. *)
Lemma layersTriedCount_makeResult `{Host} md :
  layersTriedCount (makeResult md) = 0%Z.
Proof. reflexivity. Qed.

(** The body under the header, for a result of layer [k]. *)
Lemma produced_markdown `{Host} world url k r :
  produced world url k r ->
  layersTriedCount r = 0%Z /\
  exists content,
    markdown r = provenance url (now world) (Z.of_nat (S k)) ++ content /\
    (k = 3 -> exists res t,
        respond world JinaReader (jinaRequest url) = Some res /\
        ok res = true /\ text res = Some t /\ content = trim t).
Proof.
  unfold produced. destruct (k =? 3) eqn:Ek.
  - apply Nat.eqb_eq in Ek as ->.
    intros (res & t & Hres & Hok & Ht & _ & ->). split; [reflexivity|].
    exists (trim t). split; [reflexivity|]. intros _. now exists res, t.
  - apply Nat.eqb_neq in Ek.
    intros (html & _ & _ & ->). split; [reflexivity|].
    eexists. split; [reflexivity|]. intros ->. now destruct Ek.
Qed.

(** A call that returns: the layer that succeeded, its header, and the
    snapshots, in which no later layer has left [pending]. *)
Lemma returned_report `{Host} world url r :
  (run world url).1 = Normal r ->
  exists k, k < 8 /\
    (run world url).2 = succeededAt k /\
    produced world url k r.
Proof.
  intros Hr. pose proof (run_cases world url) as C.
  destruct (encodeURIComponent url) as [enc|].
  - destruct C as [(k & r' & Hk & Hp & C)|C]; rewrite C in Hr |- *.
    + injection Hr as <-. now exists k.
    + discriminate.
  - rewrite C in Hr. discriminate.
Qed.

(** C1, evaluated where the third layer is the first to accept: the
    header says [layers_tried: 3], the callback has heard of layers 1 to
    3 only, and [layersTriedCount] is 0, not 3. *)
Theorem layersTriedCount_stays_zero :
  let w := worldServing [(CodeTabs, article 201)] 1000000000000 in
  let out := run (H := plainHost) w exampleUrl in
  exists r, out.1 = Normal r /\
    statuses (layers out.2) =
      [failed; failed; success; pending; pending; pending; pending; pending] /\
    startsWith (markdown r) (provenance exampleUrl (now w) 3) = true /\
    Forall (fun snap => drop 3 (statuses snap) = replicate 5 pending)
           (emitted out.2) /\
    layersTriedCount r = 0%Z.
Proof.
  cbv zeta. eexists. split; [vm_compute; reflexivity|].
  split; [vm_compute; reflexivity|].
  split; [vm_compute; reflexivity|].
  split; [|reflexivity].
  concretize emitted. repeat constructor.
Qed.

(** The field is 0 whatever layer succeeds. *)
Lemma layersTriedCount_always_zero `{Host} world url r :
  (run world url).1 = Normal r -> layersTriedCount r = 0%Z.
Proof.
  intros Hr. destruct (returned_report world url r Hr) as (k & _ & _ & Hp).
  now destruct (produced_markdown world url k r Hp).
Qed.

(** The rest of what C1 says does hold: the header carries the 1-based
    index of the layer that succeeded, and no snapshot shows a later
    layer out of [pending]. *)
Lemma first_success_reported `{Host} world url r :
  (run world url).1 = Normal r ->
  exists k, k < 8 /\
    statuses (layers (run world url).2) !! k = Some success /\
    startsWith (markdown r) (provenance url (now world) (Z.of_nat k + 1)) = true /\
    Forall (fun snap => forall j, k < j -> j < 8 ->
                                  statusAt j snap = Some pending)
           (emitted (run world url).2).
Proof.
  intros Hr. destruct (returned_report world url r Hr) as (k & Hk & E & Hp).
  exists k. split; [exact Hk|]. rewrite E.
  destruct (produced_markdown world url k r Hp) as (_ & content & -> & _).
  replace (Z.of_nat k + 1)%Z with (Z.of_nat (S k)) by lia.
  rewrite startsWith_app.
  each_index k.
  all: split; [reflexivity|split; [reflexivity|]].
  all: concretize emitted; repeat constructor.
  all: intros j Hj Hj'; each_index j; reflexivity.
Qed.

(** * The timestamp *)

Lemma padded_digits (w : nat) (bound : Z) (n : Z) :
  forallb (fun k => digitsb w (padded w (Z.of_nat k)))
          (seq 0 (Z.to_nat bound)) = true ->
  (0 <= n < bound)%Z -> digits w (padded w n).
Proof.
  intros Hall Hn. rewrite forallb_forall in Hall.
  specialize (Hall (Z.to_nat n)).
  rewrite Z2Nat.id in Hall by lia.
  unfold digitsb in Hall. unfold digits.
  rewrite andb_true_iff, Nat.eqb_eq in Hall. apply Hall.
  apply in_seq. lia.
Qed.

Lemma civilFromDays_bounds days :
  (0 <= days < 2932897)%Z ->
  let '(y, m, d) := civilFromDays days in
  (1970 <= y <= 9999 /\ 1 <= m <= 12 /\ 1 <= d <= 31)%Z.
Proof.
  intros Hd. unfold civilFromDays. cbv zeta.
  destruct (_ <? 10)%Z eqn:E; [apply Z.ltb_lt in E|apply Z.ltb_ge in E];
    destruct (_ <=? 2)%Z eqn:E2;
    [apply Z.leb_le in E2|apply Z.leb_gt in E2
    |apply Z.leb_le in E2|apply Z.leb_gt in E2].
  all: Z.div_mod_to_equations; lia.
Qed.

(** From 1970 to the end of the year 9999 the timestamp has the ISO
    form. *)
Lemma toISOString_shape (t : Z) :
  (0 <= t < 253402300800000)%Z -> isoShaped (toISOString t).
Proof.
  intros Ht. unfold toISOString.
  pose proof (civilFromDays_bounds (t / 86400000)) as Hc.
  destruct (civilFromDays (t / 86400000)) as [[y m] d].
  destruct Hc as (Hy & Hm & Hd); [Z.div_mod_to_equations; lia|].
  rewrite (proj2 (Z.leb_le 0 y)), (proj2 (Z.leb_le y 9999)) by lia.
  cbn [andb].
  eexists _, _, _, _, _, _, _. split; [reflexivity|].
  repeat split.
  all: first
    [ apply (padded_digits 4 10000%Z); [vm_compute; reflexivity|]
    | apply (padded_digits 3 1000%Z); [vm_compute; reflexivity|]
    | apply (padded_digits 2 100%Z); [vm_compute; reflexivity|] ].
  all: try lia.
  all: Z.div_mod_to_equations; lia.
Qed.

(** * The provenance header *)

(** C5. The Markdown of every result is the header block, with the URL
    as it was passed in, the timestamp of the clock (of the ISO form for
    a clock between 1970 and 9999) and the 1-based index of the layer
    that succeeded in decimal, then an empty line, then the body; and
    the body of a reader (layer 4) result is the text the service
    answered, trimmed, and nothing else. *)
Theorem provenance_header_shape `{Host} (world : World) (url : jsstring)
    (r : ScrapeResult) :
  (run world url).1 = Normal r ->
  exists k content,
    k < 8 /\
    statuses (layers (run world url).2) !! k = Some success /\
    markdown r =
      js "---" ++ [LF] ++
      js "source: " ++ url ++ [LF] ++
      js "scraped: " ++ toISOString (now world) ++ [LF] ++
      js "layers_tried: " ++ numberToString (Z.of_nat k + 1) ++ [LF] ++
      js "---" ++ [LF] ++
      [LF] ++
      content /\
    ((0 <= now world < 253402300800000)%Z ->
       isoShaped (toISOString (now world))) /\
    (k = 3 -> exists res t,
        respond world JinaReader (jinaRequest url) = Some res /\
        ok res = true /\ text res = Some t /\ content = trim t).
Proof.
  intros Hr. destruct (returned_report world url r Hr) as (k & Hk & E & Hp).
  destruct (produced_markdown world url k r Hp) as (_ & content & Hmd & H4).
  exists k, content. split; [exact Hk|]. rewrite E, Hmd.
  split; [|split; [|split; [apply toISOString_shape|exact H4]]].
  - each_index k; reflexivity.
  - unfold provenance. rewrite <- !app_assoc.
    each_index k; reflexivity.
Qed.

Lemma provenance_header_shape_witness :
  exists r,
    (run (H := plainHost) sampleReader exampleUrl).1 = Normal r /\
    exists k content,
      k < 8 /\
      statuses (layers (run (H := plainHost) sampleReader exampleUrl).2) !! k
        = Some success /\
      markdown r =
        js "---" ++ [LF] ++
        js "source: " ++ exampleUrl ++ [LF] ++
        js "scraped: " ++ toISOString (now sampleReader) ++ [LF] ++
        js "layers_tried: " ++ numberToString (Z.of_nat k + 1) ++ [LF] ++
        js "---" ++ [LF] ++
        [LF] ++
        content /\
      ((0 <= now sampleReader < 253402300800000)%Z ->
         isoShaped (toISOString (now sampleReader))) /\
      (k = 3 -> exists res t,
          respond sampleReader JinaReader (jinaRequest exampleUrl) = Some res /\
          ok res = true /\ text res = Some t /\ content = trim t).
Proof.
  eexists. split; [vm_compute; reflexivity|].
  apply (provenance_header_shape (H := plainHost) sampleReader exampleUrl).
  vm_compute. reflexivity.
Defined.

(** * Failure handling *)

Lemma unreserved_not_surrogate c :
  uriUnreserved c = true -> isLowSurrogate c = false /\ isHighSurrogate c = false.
Proof.
  unfold uriUnreserved, isLowSurrogate, isHighSurrogate, within, memb.
  cbn [existsb]. intros Hu.
  assert (Hc : (c < 127)%N).
  { repeat match type of Hu with
    | (_ || _ = true) => apply orb_true_iff in Hu as [Hu|Hu]
    | (_ && _ = true) => apply andb_true_iff in Hu as [_ Hu]
    end;
    first [apply N.leb_le in Hu; lia | apply N.eqb_eq in Hu; lia | discriminate]. }
  split; apply andb_false_iff; left; apply N.leb_gt; lia.
Qed.

Lemma encodeURIComponent_defined s :
  isWellFormed s = true <-> exists e, encodeURIComponent s = Some e.
Proof.
  assert (Hn : forall n s, length s <= n ->
             (isWellFormed s = true <-> exists e, encodeURIComponent s = Some e)).
  { clear s. induction n as [|n IH]; intros s Hlen.
    - destruct s; [|cbn in Hlen; lia]. cbn. split; eauto.
    - destruct s as [|c t]; [cbn; split; eauto|].
      cbn [length] in Hlen. cbn [isWellFormed encodeURIComponent].
      destruct (uriUnreserved c) eqn:Eu.
      + destruct (unreserved_not_surrogate c Eu) as [-> ->].
        rewrite (IH t) by lia. split; intros [e He].
        * rewrite He. cbn. eauto.
        * destruct (encodeURIComponent t); [eauto|discriminate].
      + destruct (isLowSurrogate c); [split; [discriminate|intros [e He]; discriminate]|].
        destruct (isHighSurrogate c).
        * destruct t as [|c2 t']; [split; [discriminate|intros [e He]; discriminate]|].
          cbn [length] in Hlen.
          destruct (isLowSurrogate c2); [|split; [discriminate|intros [e He]; discriminate]].
          cbn [andb]. rewrite (IH t') by lia. split; intros [e He].
          -- rewrite He. cbn. eauto.
          -- destruct (encodeURIComponent t'); [eauto|discriminate].
        * rewrite (IH t) by lia. split; intros [e He].
          -- rewrite He. cbn. eauto.
          -- destruct (encodeURIComponent t); [eauto|discriminate]. }
  now apply (Hn (length s)).
Qed.




(** * The length boundary of the HTML layers *)

Section Candidates.
Context `{Host} (world : World).





Lemma attempt_rejects i body st :
  body (step i trying st) = (Normal None, step i trying st) ->
  attempt i body st = (Normal None, settle i failed st).
Proof.
  intros E. unfold attempt, settle.
  assert (E0 : updateLayer i trying st = (Normal (), step i trying st))
    by reflexivity.
  unfold mbind, M_bind, try_. now rewrite E0, E.
Qed.

Lemma fetch_answered {A} site url hdrs ms res (k : Response -> M A) st :
  respond world site {| href := url; headers := hdrs; timeout := ms |}
    = Some res ->
  (fetch world site url hdrs ms ≫= k) st = k res st.
Proof. intros E. unfold mbind, M_bind, fetch. now rewrite E. Qed.

Lemma resJson_parsed {A} res data (k : Json -> M A) st :
  json res = Some data -> (resJson res ≫= k) st = k data st.
Proof. intros E. unfold mbind, M_bind, resJson. now rewrite E. Qed.

Lemma resText_read {A} res t (k : jsstring -> M A) st :
  text res = Some t -> (resText res ≫= k) st = k t st.
Proof. intros E. unfold mbind, M_bind, resText. now rewrite E. Qed.

Lemma encode_done {A} s e (k : jsstring -> M A) st :
  encodeURIComponent s = Some e -> (encode s ≫= k) st = k e st.
Proof. intros E. unfold mbind, M_bind, encode. now rewrite E. Qed.



End Candidates.


(** * Fuel

    The two loops recurse on what is left of the subject, which gets
    shorter every round: the fuel [replace] and [split] give them is
    never used up. *)

Lemma replaceLoop_fuel r by_ fuel fuel' prev s :
  length s < fuel -> length s < fuel' ->
  replaceLoop fuel r by_ prev s = replaceLoop fuel' r by_ prev s.
Proof.
  revert fuel' prev s. induction fuel as [|fuel IH]; intros fuel' prev s H1 H2;
    [lia|].
  destruct fuel' as [|fuel']; [lia|]. cbn [replaceLoop].
  destruct (matchAt r prev s) as [[p' s']|].
  - destruct (length s' <? length s) eqn:E.
    + apply Nat.ltb_lt in E. f_equal. apply IH; lia.
    + destruct s as [|c t]; [reflexivity|].
      cbn [length] in H1, H2. do 2 f_equal. apply IH; lia.
  - destruct s as [|c t]; [reflexivity|].
    cbn [length] in H1, H2. f_equal. apply IH; lia.
Qed.

Lemma splitLoop_fuel r fuel fuel' prev tok s :
  length s <= fuel -> length s <= fuel' ->
  splitLoop fuel r prev tok s = splitLoop fuel' r prev tok s.
Proof.
  revert fuel' prev tok s.
  induction fuel as [|fuel IH]; intros fuel' prev tok s H1 H2.
  - destruct s; [|cbn in H1; lia].
    destruct fuel'; cbn; now rewrite ?app_nil_r.
  - destruct fuel' as [|fuel'].
    + destruct s; [|cbn in H2; lia]. cbn. now rewrite app_nil_r.
    + cbn [splitLoop]. destruct s as [|c t]; [reflexivity|].
      cbn [length] in H1, H2.
      destruct (matchAt r prev (c :: t)) as [[p' s']|].
      * destruct (length s' <? length (c :: t)) eqn:E.
        -- apply Nat.ltb_lt in E. cbn [length] in E. f_equal. apply IH; lia.
        -- destruct tok; [|f_equal]; apply IH; lia.
      * apply IH; lia.
Qed.

(** * Runs of characters *)

Lemma trimStart_dropWhile s : trimStart s = dropWhile isWhiteSpace s.
Proof. induction s as [|c t IH]; [reflexivity|]. cbn. now rewrite IH. Qed.

Lemma takeWhile_dropWhile ok s : takeWhile ok s ++ dropWhile ok s = s.
Proof.
  induction s as [|c t IH]; [reflexivity|].
  cbn. destruct (ok c); [|reflexivity]. cbn. now rewrite IH.
Qed.

Lemma dropWhile_length ok s : length (dropWhile ok s) <= length s.
Proof.
  induction s as [|c t IH]; [reflexivity|].
  cbn. destruct (ok c); cbn; lia.
Qed.

Lemma lastOr_cons prev c w : lastOr prev (c :: w) = lastOr (Some c) w.
Proof.
  unfold lastOr. destruct w as [|d w]; [reflexivity|].
  change (last (c :: d :: w)) with (last (d :: w)).
  destruct (last (d :: w)) eqn:E; [reflexivity|].
  now apply last_None in E.
Qed.

(** A repetition followed by nothing takes the whole run. *)
Lemma repeatGreedy_all ok min prev s :
  repeatGreedy ok (fun p r => Some (p, r)) min prev s =
  if min <=? length (takeWhile ok s)
  then Some (lastOr prev (takeWhile ok s), dropWhile ok s)
  else None.
Proof.
  revert min prev. induction s as [|c t IH]; intros min prev.
  - cbn. now destruct min.
  - cbn [repeatGreedy takeWhile dropWhile]. destruct (ok c).
    + rewrite IH. rewrite lastOr_cons. cbn [length].
      destruct min as [|min]; cbn [pred].
      * cbn [Nat.leb]. reflexivity.
      * cbn [Nat.leb]. now destruct (min <=? length (takeWhile ok t)).
    + cbn. now destruct min.
Qed.

(** * Word count and reading time *)

Lemma whitespaceRun_matchAt prev s :
  matchAt whitespaceRun prev s =
  match s with
  | c :: _ =>
      if isWhiteSpace c
      then Some (lastOr prev (takeWhile isWhiteSpace s), dropWhile isWhiteSpace s)
      else None
  | [] => None
  end.
Proof.
  unfold matchAt, whitespaceRun. cbn [items pattern matchItems plus].
  change (matchItems _ _ []) with (fun (p : option codeunit) (r : jsstring) => Some (p, r)).
  rewrite repeatGreedy_all.
  change (atomMatches _ ASpace) with isWhiteSpace.
  destruct s as [|c t]; [reflexivity|].
  cbn [takeWhile]. destruct (isWhiteSpace c); reflexivity.
Qed.

Lemma wordsFrom_skip s : wordsFrom [] (dropWhile isWhiteSpace s) = wordsFrom [] s.
Proof.
  induction s as [|c t IH]; [reflexivity|].
  cbn. destruct (isWhiteSpace c) eqn:E; [exact IH|].
  cbn. now rewrite E.
Qed.

Lemma splitLoop_words fuel prev tok s :
  length s <= fuel ->
  List.filter nonEmpty (splitLoop fuel whitespaceRun prev tok s)
  = wordsFrom tok s.
Proof.
  revert prev tok s. induction fuel as [|fuel IH]; intros prev tok s Hlen.
  - destruct s; [|cbn in Hlen; lia]. cbn. rewrite app_nil_r.
    unfold nonEmpty. now destruct tok.
  - destruct s as [|c t].
    + cbn. unfold nonEmpty. now destruct tok.
    + cbn [splitLoop]. rewrite whitespaceRun_matchAt.
      cbn [wordsFrom]. destruct (isWhiteSpace c) eqn:E.
      * assert (Hshort : length (dropWhile isWhiteSpace (c :: t)) < length (c :: t)).
        { cbn [dropWhile]. rewrite E.
          pose proof (dropWhile_length isWhiteSpace t) as Hd.
          cbn [length]. lia. }
        rewrite (proj2 (Nat.ltb_lt _ _) Hshort).
        cbn [List.filter]. rewrite IH by (cbn [length] in Hlen, Hshort; lia).
        rewrite wordsFrom_skip. cbn [wordsFrom]. rewrite E.
        unfold nonEmpty. now destruct tok.
      * apply IH. cbn in Hlen. lia.
Qed.

Lemma split_words s : List.filter nonEmpty (split s whitespaceRun) = words s.
Proof.
  unfold split, words. destruct s as [|c t]; [reflexivity|].
  now apply splitLoop_words.
Qed.

Lemma ceiling_of_ratio (n : Z) :
  (0 <= n)%Z ->
  (Qceiling (inject_Z n / 200) = (n + 199) / 200)%Z.
Proof.
  intros Hn. unfold Qceiling, Qfloor, Qdiv, Qmult, Qinv, Qopp, inject_Z.
  cbn [Qnum Qden]. change (Z.pos (1 * 200)) with 200%Z.
  rewrite Z.mul_1_r. Z.div_mod_to_equations. lia.
Qed.

(** C3. In every returned result [wordCount] is the number of words of
    the returned Markdown, header included, and [readTime] is the
    ceiling of [wordCount / 200]: the least integer whose 200-fold
    reaches [wordCount], hence at least 1 when there is a word and 0
    when there is none. *)
Theorem word_count_and_read_time `{Host} (world : World) (url : jsstring)
    (r : ScrapeResult) :
  (run world url).1 = Normal r ->
  wordCount r = Z.of_nat (length (words (markdown r))) /\
  readTime r = Qceiling (inject_Z (wordCount r) / 200) /\
  (200 * (readTime r - 1) < wordCount r <= 200 * readTime r)%Z /\
  (0 < wordCount r -> 1 <= readTime r)%Z /\
  (wordCount r = 0 -> readTime r = 0)%Z.
Proof.
  intros Hr. destruct (returned_report world url r Hr) as (k & _ & _ & Hp).
  assert (Hmk : r = makeResult (markdown r)).
  { unfold produced in Hp. destruct (k =? 3).
    - destruct Hp as (? & ? & _ & _ & _ & _ & ->). reflexivity.
    - destruct Hp as (? & _ & _ & ->). reflexivity. }
  set (md := markdown r) in *.
  assert (Hwc : wordCount r = Z.of_nat (length (words md))).
  { rewrite Hmk. unfold makeResult. cbn [wordCount].
    now rewrite <- split_words. }
  assert (Hrt : readTime r = Qceiling (inject_Z (wordCount r) / 200)).
  { rewrite Hmk. reflexivity. }
  split; [exact Hwc|]. split; [exact Hrt|].
  rewrite Hrt, ceiling_of_ratio by lia.
  Z.div_mod_to_equations. lia.
Qed.

Lemma word_count_and_read_time_witness :
  exists r,
    (run (H := plainHost) sampleProxy exampleUrl).1 = Normal r /\
    wordCount r = Z.of_nat (length (words (markdown r))) /\
    readTime r = Qceiling (inject_Z (wordCount r) / 200) /\
    (200 * (readTime r - 1) < wordCount r <= 200 * readTime r)%Z /\
    (0 < wordCount r -> 1 <= readTime r)%Z /\
    (wordCount r = 0 -> readTime r = 0)%Z.
Proof.
  eexists. split; [vm_compute; reflexivity|].
  apply (word_count_and_read_time (H := plainHost) sampleProxy exampleUrl).
  vm_compute. reflexivity.
Defined.

(** * Substrings *)

Lemma startsWith_spec s sub :
  startsWith s sub = true <-> exists b, s = sub ++ b.
Proof.
  revert s. induction sub as [|p sub IH]; intros s.
  - cbn. split; [intros _; now exists s|reflexivity].
  - destruct s as [|c s]; cbn.
    + split; [discriminate|intros [b Hb]; discriminate].
    + rewrite andb_true_iff, N.eqb_eq, IH. split.
      * intros [-> [b ->]]. now exists b.
      * intros [b [= -> ->]]. split; [reflexivity|now exists b].
Qed.

Lemma includes_spec s sub :
  includes s sub = true <-> exists a b, s = a ++ sub ++ b.
Proof.
  induction s as [|c s IH].
  - cbn [includes]. rewrite orb_false_r, startsWith_spec. split.
    + intros [b Hb]. now exists [], b.
    + intros (a & b & Hs). destruct a; [now exists b|discriminate].
  - cbn [includes]. rewrite orb_true_iff, startsWith_spec, IH. split.
    + intros [[b Hb]|(a & b & ->)]; [now exists [], b|now exists (c :: a), b].
    + intros (a & b & Hs). destruct a as [|a0 a].
      * left. now exists b.
      * right. injection Hs as -> ->. now exists a, b.
Qed.

Lemma includes_infix s a b sub :
  includes (a ++ s ++ b) sub = false -> includes s sub = false.
Proof.
  intros Hf. destruct (includes s sub) eqn:E; [|reflexivity].
  apply includes_spec in E as (x & y & ->).
  rewrite <- Hf. symmetry. apply includes_spec.
  exists (a ++ x), (y ++ b). now rewrite <- !app_assoc.
Qed.

(** * Trimming *)

Lemma trimStart_suffix s : s = takeWhile isWhiteSpace s ++ trimStart s.
Proof. now rewrite trimStart_dropWhile, takeWhile_dropWhile. Qed.

Lemma trimEnd_prefix s : exists x, s = trimEnd s ++ x.
Proof.
  unfold trimEnd. exists (rev (takeWhile isWhiteSpace (rev s))).
  rewrite <- rev_app_distr, <- trimStart_suffix. now rewrite rev_involutive.
Qed.

Lemma trim_infix s : exists a b, s = a ++ trim s ++ b.
Proof.
  unfold trim. destruct (trimEnd_prefix (trimStart s)) as [x Hx].
  exists (takeWhile isWhiteSpace s), x.
  rewrite <- Hx. apply trimStart_suffix.
Qed.

Lemma trimStart_idem s : trimStart (trimStart s) = trimStart s.
Proof.
  induction s as [|c t IH]; [reflexivity|].
  cbn. destruct (isWhiteSpace c) eqn:E; [exact IH|]. cbn. now rewrite E.
Qed.

Lemma trimStart_snoc s c :
  isWhiteSpace c = false -> trimStart (s ++ [c]) = trimStart s ++ [c].
Proof.
  intros Hc. induction s as [|d t IH]; cbn.
  - now rewrite Hc.
  - destruct (isWhiteSpace d); [exact IH|reflexivity].
Qed.

Lemma trimEnd_cons c s :
  isWhiteSpace c = false -> trimEnd (c :: s) = c :: trimEnd s.
Proof.
  intros Hc. unfold trimEnd. cbn [rev].
  rewrite trimStart_snoc by exact Hc. now rewrite rev_app_distr.
Qed.

Lemma trimEnd_idem s : trimEnd (trimEnd s) = trimEnd s.
Proof. unfold trimEnd. now rewrite rev_involutive, trimStart_idem. Qed.

Lemma trimStart_head s :
  match trimStart s with
  | c :: _ => isWhiteSpace c = false
  | [] => True
  end.
Proof.
  induction s as [|c t IH]; [exact I|].
  cbn. destruct (isWhiteSpace c) eqn:E; [exact IH|exact E].
Qed.

Lemma trim_idem s : trim (trim s) = trim s.
Proof.
  unfold trim at 2 3. pose proof (trimStart_head s) as Hh.
  destruct (trimStart s) as [|c t]; [reflexivity|].
  rewrite trimEnd_cons by exact Hh.
  unfold trim. cbn [trimStart]. rewrite Hh.
  rewrite <- trimEnd_cons by exact Hh. apply trimEnd_idem.
Qed.

(** * The blank-line collapse *)

Lemma blankLines_matchAt prev s :
  matchAt blankLines prev s =
  if 3 <=? leadingLF s
  then Some (lastOr prev (takeWhile isLF s), dropWhile isLF s)
  else None.
Proof.
  unfold matchAt, blankLines. cbn [items pattern matchItems].
  change (matchItems _ _ []) with (fun (p : option codeunit) (r : jsstring) => Some (p, r)).
  now rewrite repeatGreedy_all.
Qed.

Lemma startsWith_threeLF s : startsWith s threeLF = (3 <=? leadingLF s).
Proof.
  unfold leadingLF, threeLF.
  destruct s as [|a [|b [|c s]]]; cbn [startsWith takeWhile];
    repeat match goal with
    | |- context [N.eqb LF ?x] => change (N.eqb LF x) with (isLF x)
    end;
    repeat match goal with
    | |- context [isLF ?x] =>
        destruct (isLF x); cbn [andb length takeWhile Nat.leb]
    end; reflexivity.
Qed.

Lemma leadingLF_dropWhile s : leadingLF (dropWhile isLF s) = 0.
Proof.
  unfold leadingLF. induction s as [|c t IH]; [reflexivity|].
  cbn [dropWhile]. destruct (isLF c) eqn:E; [exact IH|].
  cbn [takeWhile]. now rewrite E.
Qed.

Lemma leadingLF_cons c s :
  leadingLF (c :: s) = if isLF c then S (leadingLF s) else 0.
Proof. unfold leadingLF. cbn [takeWhile]. now destruct (isLF c). Qed.

Lemma includes_cons c s sub :
  includes (c :: s) sub = startsWith (c :: s) sub || includes s sub.
Proof. reflexivity. Qed.

(** A text without three line feeds in a row is left as it is. *)
Lemma replaceLoop_fixes fuel by_ prev s :
  includes s threeLF = false ->
  replaceLoop fuel blankLines by_ prev s = s.
Proof.
  revert prev s. induction fuel as [|fuel IH]; intros prev s Hs; [reflexivity|].
  cbn [replaceLoop]. rewrite blankLines_matchAt, <- startsWith_threeLF.
  destruct s as [|c t]; [reflexivity|].
  rewrite includes_cons in Hs. apply orb_false_iff in Hs as [-> Ht].
  now rewrite IH.
Qed.

(** The loop leaves no three line feeds in a row, and its output starts
    with no more line feeds than its input, two at most. *)
Lemma replaceLoop_collapses fuel prev s :
  length s < fuel ->
  let out := replaceLoop fuel blankLines [LF; LF] prev s in
  includes out threeLF = false /\
  leadingLF out <= leadingLF s /\ leadingLF out <= 2.
Proof.
  revert prev s. induction fuel as [|fuel IH]; intros prev s Hlen; [lia|].
  cbn zeta. cbn [replaceLoop]. rewrite blankLines_matchAt.
  destruct (3 <=? leadingLF s) eqn:E3.
  - apply Nat.leb_le in E3.
    assert (Hshort : length (dropWhile isLF s) < length s).
    { rewrite <- (takeWhile_dropWhile isLF s) at 2.
      rewrite length_app. fold (leadingLF s). lia. }
    rewrite (proj2 (Nat.ltb_lt _ _) Hshort).
    destruct (IH (lastOr prev (takeWhile isLF s)) (dropWhile isLF s))
      as (Hfree & Hlead & _); [lia|].
    rewrite leadingLF_dropWhile in Hlead.
    set (out := replaceLoop fuel blankLines [LF; LF] _ _) in *.
    assert (Hout : leadingLF out = 0) by lia.
    cbn [app]. rewrite !includes_cons, !startsWith_threeLF, Hfree.
    rewrite !leadingLF_cons. change (isLF LF) with true. cbn iota.
    rewrite Hout. cbn. lia.
  - apply Nat.leb_gt in E3.
    destruct s as [|c t]; [cbn; lia|].
    destruct (IH (Some c) t) as (Hfree & Hlead & Htwo);
      [cbn [length] in Hlen; lia|].
    set (out := replaceLoop fuel blankLines [LF; LF] _ _) in *.
    rewrite includes_cons, startsWith_threeLF, Hfree.
    rewrite leadingLF_cons in E3 |- *. rewrite !leadingLF_cons.
    destruct (isLF c).
    + assert (Hle : S (leadingLF out) <= 2) by lia.
      rewrite orb_false_r. split; [|lia].
      apply Nat.leb_gt. lia.
    + cbn. lia.
Qed.

Lemma replace_blankLines_free s :
  includes (replace s blankLines [LF; LF]) threeLF = false.
Proof.
  unfold replace. change (global blankLines) with true. cbn iota.
  apply (replaceLoop_collapses (S (length s)) None s). lia.
Qed.

Lemma collapse_free s : includes (collapseBlankLines s) threeLF = false.
Proof.
  unfold collapseBlankLines.
  destruct (trim_infix (replace s blankLines [LF; LF])) as (a & b & Hab).
  apply (includes_infix _ a b). rewrite <- Hab. apply replace_blankLines_free.
Qed.

(** C6. Collapsing the blank lines of a text that the collapse has
    produced gives the same text back. *)
Theorem collapseBlankLines_idempotent (markdown : jsstring) :
  collapseBlankLines (collapseBlankLines markdown)
  = collapseBlankLines markdown.
Proof.
  unfold collapseBlankLines at 1.
  unfold replace. change (global blankLines) with true. cbn iota.
  rewrite replaceLoop_fixes by apply collapse_free.
  unfold collapseBlankLines. apply trim_idem.
Qed.

(** * The bot-wall detector *)

(** A repetition in front of a continuation that cannot start with a
    character of the repetition takes the whole run or fails: giving
    characters back never helps. *)
Lemma repeatGreedy_committed ok k min prev s :
  (forall p c t, ok c = true -> k p (c :: t) = None) ->
  repeatGreedy ok k min prev s =
  if min <=? length (takeWhile ok s)
  then k (lastOr prev (takeWhile ok s)) (dropWhile ok s)
  else None.
Proof.
  intros Hk. revert min prev. induction s as [|c t IH]; intros min prev.
  - cbn. now destruct min.
  - cbn [repeatGreedy takeWhile dropWhile]. destruct (ok c) eqn:Ec.
    + rewrite IH, lastOr_cons. cbn [length].
      destruct min as [|min]; cbn [pred Nat.leb].
      * destruct (k _ (dropWhile ok t)) eqn:Ek; [reflexivity|].
        now apply Hk.
      * destruct (min <=? length (takeWhile ok t)); [|reflexivity].
        now destruct (k _ (dropWhile ok t)).
    + cbn. now destruct min.
Qed.

Lemma titleBlock_parsed :
  titleBlock =
  {| items := [Bol; One (AChar 35); Repeat 0 ADot; One (AChar LF);
               Repeat 1 (AChar 61); One (AChar LF)];
     ignoreCase := false; multiline := true; global := false |}.
Proof. reflexivity. Qed.

Lemma titleBlock_matchAt prev s :
  matchAt titleBlock prev s =
  if atLineStart true prev
  then option_map (fun rest => (Some LF, rest)) (titleBlockAt s)
  else None.
Proof.
  unfold matchAt. rewrite titleBlock_parsed.
  cbn [items ignoreCase multiline matchItems].
  destruct (atLineStart true prev); [|reflexivity].
  destruct s as [|c t]; [reflexivity|].
  cbn [titleBlockAt].
  change (atomMatches false (AChar 35) c) with (isHash c).
  destruct (isHash c); [|reflexivity].
  change (atomMatches false ADot) with inLine.
  rewrite repeatGreedy_committed.
  2:{ intros p d u Hd. cbn [matchItems].
      change (atomMatches false (AChar LF) d) with (isLF d).
      unfold inLine, isLineTerminator, memb in Hd. cbn [existsb] in Hd.
      unfold isLF. destruct (N.eqb LF d) eqn:E; [|reflexivity].
      apply N.eqb_eq in E. subst d. discriminate. }
  change (0 <=? length (takeWhile inLine t)) with true. cbn iota.
  destruct (dropWhile inLine t) as [|nl underline]; [reflexivity|].
  cbn [matchItems].
  change (atomMatches false (AChar LF) nl) with (isLF nl).
  destruct (isLF nl); [|reflexivity]. cbn [andb].
  change (atomMatches false (AChar 61)) with isEquals.
  rewrite repeatGreedy_committed.
  2:{ intros p d u Hd. cbn [matchItems].
      change (atomMatches false (AChar LF) d) with (isLF d).
      unfold isEquals in Hd. apply N.eqb_eq in Hd. now subst d. }
  destruct (1 <=? length (takeWhile isEquals underline)); [|reflexivity].
  destruct (dropWhile isEquals underline) as [|nl' rest]; [reflexivity|].
  cbn [matchItems].
  change (atomMatches false (AChar LF) nl') with (isLF nl').
  unfold isLF. destruct (N.eqb LF nl') eqn:E; [|reflexivity].
  apply N.eqb_eq in E. now subst nl'.
Qed.

Lemma search_titleBlock prev s :
  match search titleBlock prev s with
  | Some (skipped, (_, rest)) => skipped ++ rest
  | None => s
  end = stripFrom (atLineStart true prev) s.
Proof.
  revert prev. induction s as [|c t IH]; intros prev.
  - cbn [search]. rewrite titleBlock_matchAt.
    now destruct (atLineStart true prev).
  - cbn [search stripFrom]. rewrite titleBlock_matchAt.
    destruct (atLineStart true prev).
    + destruct (titleBlockAt (c :: t)) as [rest|]; [reflexivity|].
      cbn [option_map]. specialize (IH (Some c)). cbn [atLineStart andb] in IH.
      rewrite <- IH. now destruct (search titleBlock (Some c) t) as [[? [? ?]]|].
    + specialize (IH (Some c)). cbn [atLineStart andb] in IH.
      rewrite <- IH. now destruct (search titleBlock (Some c) t) as [[? [? ?]]|].
Qed.

Lemma replace_titleBlock s : replace s titleBlock [] = stripTitleBlock s.
Proof.
  unfold replace, stripTitleBlock.
  change (global titleBlock) with false. cbn iota.
  pose proof (search_titleBlock None s) as E. cbn [atLineStart] in E.
  rewrite <- E. now destruct (search titleBlock None s) as [[? [? ?]]|].
Qed.

(** C8 as stated fails there: the detector rejects the text, though it
    is 103 code units long, holds no marker and has no leading title
    block. *)
Lemma later_title_is_stripped :
  isJinaError (H := plainHost) titledSecond = true /\
  botWallAsStated (H := plainHost) titledSecond = false.
Proof. split; vm_compute; reflexivity. Qed.

Lemma isEmpty_spec (s : jsstring) : isEmpty s = true <-> s = [].
Proof. destruct s; cbn; split; congruence. Qed.

(** C8, amended. The detector rejects a text exactly when it is empty
    or shorter than 100, or its lower-casing holds one of the four
    markers, or fewer than 100 code units are left once its first title
    block (a [#] line followed by a line of [=], starting a line anywhere
    in the text) is taken out and the rest is trimmed.  So a text that
    holds "403: Forbidden" is rejected, and the reader layer that gets it
    with a 2xx status ends failed. *)
Theorem botwall_detector `{Host} (answer : jsstring) :
  (isJinaError answer = true <->
     answer = [] \/ length answer < 100 \/
     (exists marker, In marker jinaMarkers /\
                     includes (toLowerCase answer) marker = true) \/
     length (trim (stripTitleBlock answer)) < 100) /\
  (forall before after,
     answer = before ++ js "403: Forbidden" ++ after ->
     isJinaError answer = true /\
     forall world url enc st res,
       respond world JinaReader (jinaRequest url) = Some res ->
       ok res = true -> text res = Some answer ->
       layerN world 3 url enc st = (Normal None, settle 3 failed st)).
Proof.
  assert (Hiff : isJinaError answer = true <->
     answer = [] \/ length answer < 100 \/
     (exists marker, In marker jinaMarkers /\
                     includes (toLowerCase answer) marker = true) \/
     length (trim (stripTitleBlock answer)) < 100).
  { unfold isJinaError. rewrite replace_titleBlock.
    destruct (isEmpty answer) eqn:Ee.
    { apply isEmpty_spec in Ee. cbn [orb]. tauto. }
    assert (Hne : answer <> []) by (intros ->; discriminate).
    cbn [orb]. destruct (length answer <? 100) eqn:El.
    { apply Nat.ltb_lt in El. tauto. }
    apply Nat.ltb_ge in El.
    unfold jinaMarkers.
    repeat match goal with
    | |- context [if includes ?l ?m then _ else _] =>
        let E := fresh "Em" in
        destruct (includes l m) eqn:E;
        [ split; [intros _|reflexivity];
          right; right; left; exists m; split; [cbn; tauto|exact E] | ]
    end.
    rewrite Nat.ltb_lt. split; [tauto|].
    intros [?|[?|[(m & Hin & Hm)|?]]]; [tauto|lia| |assumption].
    cbn [In] in Hin.
    destruct Hin as [<-|[<-|[<-|[<-|[]]]]]; congruence. }
  split; [exact Hiff|].
  intros before after Hans.
  assert (Hrej : isJinaError answer = true).
  { apply Hiff. right; right; left. exists (js "403: forbidden").
    split; [cbn; tauto|].
    destruct (toLowerCase_ascii before (js "403: Forbidden") after eq_refl)
      as (a' & c' & Hlow).
    rewrite Hans, Hlow. apply includes_spec. now exists a', c'. }
  split; [exact Hrej|].
  intros world url enc st res Hres Hok Htext.
  cbn [layerN]. unfold layer4. apply attempt_rejects.
  erewrite fetch_answered by exact Hres. rewrite Hok.
  erewrite resText_read by exact Htext. now rewrite Hrej.
Qed.

(** * What a pattern matches *)

Lemma repeatGreedy_sound ok k min prev s cur :
  repeatGreedy ok k min prev s = Some cur ->
  exists u v p, s = u ++ v /\ min <= length u /\ forallb ok u = true /\
                k p v = Some cur.
Proof.
  revert min prev. induction s as [|c t IH]; intros min prev Hm.
  - cbn in Hm. destruct min; [|discriminate].
    exists [], [], prev. repeat split; [lia|exact Hm].
  - cbn [repeatGreedy] in Hm.
    assert (Hstop : match min with 0 => k prev (c :: t) | S _ => None end
                    = Some cur ->
                    exists u v p, c :: t = u ++ v /\ min <= length u /\
                                  forallb ok u = true /\ k p v = Some cur).
    { destruct min; [|discriminate]. intros Hk.
      exists [], (c :: t), prev. repeat split; [lia|exact Hk]. }
    destruct (ok c) eqn:Ec; [|now apply Hstop].
    destruct (repeatGreedy ok k (pred min) (Some c) t) as [r|] eqn:Er;
      [|now apply Hstop].
    injection Hm as <-.
    destruct (IH _ _ Er) as (u & v & p & -> & Hmin & Hall & Hk).
    exists (c :: u), v, p. cbn [forallb length]. rewrite Ec, Hall.
    repeat split; [lia|exact Hk].
Qed.

Lemma repeatGreedy_complete ok k min prev u v :
  forallb ok u = true -> min <= length u -> (forall p, k p v <> None) ->
  repeatGreedy ok k min prev (u ++ v) <> None.
Proof.
  intros Hall Hmin Hk. revert min prev Hmin.
  induction u as [|c u IH]; intros min prev Hmin.
  - cbn [length] in Hmin. assert (min = 0) as -> by lia. cbn [app].
    destruct v as [|d v]; cbn [repeatGreedy]; [apply Hk|].
    destruct (ok d); [|apply Hk].
    destruct (repeatGreedy ok k (pred 0) (Some d) v); [discriminate|apply Hk].
  - cbn [forallb] in Hall. apply andb_true_iff in Hall as [Hc Hall].
    cbn [app repeatGreedy]. rewrite Hc.
    specialize (IH Hall (pred min) (Some c)).
    destruct (repeatGreedy ok k (pred min) (Some c) (u ++ v));
      [discriminate|].
    exfalso. apply IH; [cbn [length] in Hmin; lia|reflexivity].
Qed.

Lemma matchItems_sound ic ml its prev s cur :
  bolFree its = true ->
  matchItems ic ml its prev s = Some cur ->
  exists w, s = w ++ cur.2 /\ Matches ic its w.
Proof.
  revert prev s. induction its as [|[a|min a|] its IH]; intros prev s Hfree Hm.
  - injection Hm as <-. now exists [].
  - cbn [matchItems] in Hm. destruct s as [|c t]; [discriminate|].
    destruct (atomMatches ic a c) eqn:Ea; [|discriminate].
    destruct (IH _ _ Hfree Hm) as (w & -> & Hw).
    exists (c :: w). split; [reflexivity|]. now exists c, w.
  - cbn [matchItems] in Hm.
    destruct (repeatGreedy_sound _ _ _ _ _ _ Hm)
      as (u & v & p & -> & Hmin & Hall & Hk).
    destruct (IH _ _ Hfree Hk) as (w & -> & Hw).
    exists (u ++ w). split; [now rewrite app_assoc|]. now exists u, w.
  - discriminate.
Qed.

Lemma matchItems_complete ic ml its w :
  bolFree its = true -> Matches ic its w ->
  forall prev rest, matchItems ic ml its prev (w ++ rest) <> None.
Proof.
  revert w. induction its as [|[a|min a|] its IH]; intros w Hfree Hw prev rest.
  - discriminate.
  - destruct Hw as (c & w' & -> & Ha & Hw').
    cbn [app matchItems]. rewrite Ha. now apply IH.
  - destruct Hw as (u & v & -> & Hmin & Hall & Hv).
    cbn [matchItems]. rewrite <- app_assoc.
    apply repeatGreedy_complete; [exact Hall|exact Hmin|].
    intros p. now apply IH.
  - discriminate.
Qed.

Lemma search_found r prev s :
  search r prev s <> None <->
  exists a b, s = a ++ b /\ matchAt r (lastOr prev a) b <> None.
Proof.
  revert prev. induction s as [|c t IH]; intros prev.
  - cbn [search]. split.
    + intros Hs. exists [], []. split; [reflexivity|].
      cbn. now destruct (matchAt r prev []).
    + intros (a & b & Hab & Hm).
      symmetry in Hab. apply app_eq_nil in Hab as [-> ->].
      cbn in Hm. now destruct (matchAt r prev []).
  - cbn [search]. destruct (matchAt r prev (c :: t)) as [cur|] eqn:Em.
    + split; [intros _|discriminate].
      exists [], (c :: t). split; [reflexivity|]. cbn. now rewrite Em.
    + specialize (IH (Some c)). split.
      * intros Hs.
        destruct (search r (Some c) t) as [[sk cur]|] eqn:Es; [|congruence].
        destruct (proj1 IH) as (a & b & -> & Hm); [discriminate|].
        exists (c :: a), b. split; [reflexivity|]. now rewrite lastOr_cons.
      * intros (a & b & Hab & Hm). destruct a as [|a0 a].
        { cbn in Hab, Hm. subst b. congruence. }
        injection Hab as <- ->. rewrite lastOr_cons in Hm.
        destruct (search r (Some c) (a ++ b)) as [[sk cur]|] eqn:Es;
          [discriminate|].
        exfalso. apply (proj2 IH); [now exists a, b|reflexivity].
Qed.

(** [test] finds a pattern without [^] exactly in the texts that hold
    one of its words. *)
Lemma test_spec r s :
  bolFree (items r) = true ->
  test r s = true <->
  exists a w b, s = a ++ w ++ b /\ Matches (ignoreCase r) (items r) w.
Proof.
  intros Hfree. unfold test.
  assert (Hs : search r None s <> None <->
               exists a w b, s = a ++ w ++ b /\
                             Matches (ignoreCase r) (items r) w).
  { rewrite search_found. split.
    - intros (a & b & -> & Hm). unfold matchAt in Hm.
      destruct (matchItems _ _ _ _ b) as [cur|] eqn:Em; [|congruence].
      destruct (matchItems_sound _ _ _ _ _ _ Hfree Em) as (w & -> & Hw).
      now exists a, w, cur.2.
    - intros (a & w & b & -> & Hw). exists a, (w ++ b).
      split; [reflexivity|]. now apply matchItems_complete. }
  destruct (search r None s); split; intros Hx;
    try reflexivity; try discriminate.
  - apply Hs. discriminate.
  - exfalso. now apply Hs.
Qed.

(** * The shell detector *)

Lemma canonicalize_below_letters (p c : codeunit) :
  (p < 65)%N ->
  N.eqb (canonicalize true p) (canonicalize true c) = N.eqb p c.
Proof.
  intros Hp. unfold canonicalize, within. cbn [andb].
  destruct (97 <=? p)%N eqn:E1; [apply N.leb_le in E1; lia|]. cbn [andb].
  destruct (97 <=? c)%N eqn:E2; [|reflexivity].
  destruct (c <=? 122)%N eqn:E3; [|reflexivity]. cbn [andb].
  apply N.leb_le in E2.
  destruct (N.eqb_spec p (c - 32)), (N.eqb_spec p c); try reflexivity; lia.
Qed.

Lemma forallb_Forall {A} (f : A -> bool) (l : list A) :
  forallb f l = true <-> Forall (fun x => f x = true) l.
Proof.
  induction l as [|x l IH]; cbn.
  - split; [constructor|reflexivity].
  - rewrite andb_true_iff, IH. split.
    + intros [Hx Hl]. now constructor.
    + intros Hl. inversion Hl; subst. now split.
Qed.

Lemma notGreaterThan_spec c :
  atomMatches true (noneOf [greaterThan]) c = true <-> c <> greaterThan.
Proof.
  cbn [atomMatches noneOf existsb]. rewrite xorb_true_l.
  rewrite canonicalize_below_letters by reflexivity.
  rewrite orb_false_r. rewrite negb_true_iff, N.eqb_neq.
  split; intros Hc E; now apply Hc.
Qed.

Lemma quote_spec c :
  atomMatches true (oneOf [quote; apostrophe]) c = true <-> isQuote c.
Proof.
  cbn [atomMatches oneOf existsb]. rewrite xorb_false_l.
  rewrite !canonicalize_below_letters by reflexivity.
  rewrite orb_false_r. unfold isQuote.
  rewrite orb_true_iff, !N.eqb_eq. split; intros [E|E]; auto.
Qed.

Lemma notQuote_spec c :
  atomMatches true (noneOf [quote; apostrophe]) c = true <-> ~ isQuote c.
Proof.
  cbn [atomMatches noneOf existsb]. rewrite xorb_true_l.
  rewrite !canonicalize_below_letters by reflexivity.
  rewrite orb_false_r. unfold isQuote.
  rewrite negb_true_iff, orb_false_iff, !N.eqb_neq.
  split; [intros [H1 H2] [E|E]; auto|intros Hn; split; intros E; apply Hn; auto].
Qed.

Lemma Matches_literal ic (l : jsstring) its w :
  Matches ic (map (fun c => One (AChar c)) l ++ its) w <->
  exists u v, w = u ++ v /\
              Forall2 (fun p c => canonicalize ic p = canonicalize ic c) l u /\
              Matches ic its v.
Proof.
  revert w. induction l as [|p l IH]; intros w.
  - cbn [map app]. split.
    + intros Hw. exists [], w. repeat split; [constructor|exact Hw].
    + intros (u & v & -> & Hu & Hv). inversion Hu; subst. exact Hv.
  - cbn [map app Matches atomMatches]. split.
    + intros (c & w' & -> & Hc & Hw').
      apply IH in Hw' as (u & v & -> & Hu & Hv).
      exists (c :: u), v. repeat split; [|exact Hv].
      constructor; [now apply N.eqb_eq|exact Hu].
    + intros (u & v & -> & Hu & Hv). inversion Hu as [|? c ? u' Hc Hu']; subst.
      exists c, (u' ++ v). repeat split; [now apply N.eqb_eq|].
      apply IH. now exists u', v.
Qed.

Lemma bolFree_app a b : bolFree (a ++ b) = bolFree a && bolFree b.
Proof. apply forallb_app. Qed.

Lemma bolFree_cons it its :
  bolFree (it :: its) = negb (isBol it) && bolFree its.
Proof. reflexivity. Qed.

Lemma bolFree_lit str : bolFree (lit str) = true.
Proof. unfold lit. induction (js str); [reflexivity|exact IHj]. Qed.

Lemma caseless_gt w : caseless ">" w <-> w = [greaterThan].
Proof.
  unfold caseless. change (js ">") with [greaterThan]. split.
  - intros Hw. inversion Hw as [|? c ? u Hc Hu]; subst.
    inversion Hu; subst. f_equal.
    apply N.eqb_eq in Hc. rewrite canonicalize_below_letters in Hc by reflexivity.
    apply N.eqb_eq in Hc. now subst.
  - intros ->. repeat constructor.
Qed.

Lemma emptyRoot_items id :
  items (emptyRoot id) =
  lit "<div" ++ Repeat 1 (noneOf [greaterThan]) ::
  lit "id=" ++ One (oneOf [quote; apostrophe]) ::
  lit id ++ One (oneOf [quote; apostrophe]) ::
  Repeat 0 (noneOf [greaterThan]) ::
  lit ">" ++ Repeat 0 ASpace :: lit "</div>" ++ [].
Proof. unfold emptyRoot. cbn [items pattern]. now rewrite app_nil_r. Qed.

Lemma emptyRoot_words id w :
  Matches true (items (emptyRoot id)) w <->
  exists tag attrs key q1 name q2 more spaces closing,
    w = tag ++ attrs ++ key ++ q1 :: name ++ q2 :: more ++
        greaterThan :: spaces ++ closing /\
    caseless "<div" tag /\
    1 <= length attrs /\ Forall (fun c => c <> greaterThan) attrs /\
    caseless "id=" key /\ isQuote q1 /\ caseless id name /\ isQuote q2 /\
    Forall (fun c => c <> greaterThan) more /\
    Forall (fun c => isWhiteSpace c = true) spaces /\
    caseless "</div>" closing.
Proof.
  rewrite emptyRoot_items. unfold lit. split.
  - intros Hm.
    apply Matches_literal in Hm as (tag & v & -> & Htag & Hm).
    destruct Hm as (attrs & v1 & -> & Hlen & Hattrs & Hm).
    apply Matches_literal in Hm as (key & v2 & -> & Hkey & Hm).
    destruct Hm as (q1 & v3 & -> & Hq1 & Hm).
    apply Matches_literal in Hm as (name & v4 & -> & Hname & Hm).
    destruct Hm as (q2 & v5 & -> & Hq2 & Hm).
    destruct Hm as (more & v6 & -> & _ & Hmore & Hm).
    apply Matches_literal in Hm as (gt & v7 & -> & Hgt & Hm).
    apply caseless_gt in Hgt as ->.
    destruct Hm as (spaces & v8 & -> & _ & Hspaces & Hm).
    apply Matches_literal in Hm as (closing & v9 & -> & Hclosing & ->).
    exists tag, attrs, key, q1, name, q2, more, spaces, closing.
    rewrite app_nil_r. split; [reflexivity|].
    apply forallb_Forall in Hattrs, Hmore, Hspaces.
    repeat split; try assumption.
    + eapply Forall_impl; [exact Hattrs|]. intros c. apply notGreaterThan_spec.
    + now apply quote_spec.
    + now apply quote_spec.
    + eapply Forall_impl; [exact Hmore|]. intros c. apply notGreaterThan_spec.
  - intros (tag & attrs & key & q1 & name & q2 & more & spaces & closing &
            -> & Htag & Hlen & Hattrs & Hkey & Hq1 & Hname & Hq2 & Hmore &
            Hspaces & Hclosing).
    apply Matches_literal. exists tag, (attrs ++ key ++ q1 :: name ++ q2 :: more ++ greaterThan :: spaces ++ closing).
    split; [reflexivity|]. split; [exact Htag|].
    exists attrs, (key ++ q1 :: name ++ q2 :: more ++ greaterThan :: spaces ++ closing).
    split; [reflexivity|]. split; [exact Hlen|]. split.
    { apply forallb_Forall. eapply Forall_impl; [exact Hattrs|].
      intros c. apply notGreaterThan_spec. }
    apply Matches_literal. exists key, (q1 :: name ++ q2 :: more ++ greaterThan :: spaces ++ closing).
    split; [reflexivity|]. split; [exact Hkey|].
    exists q1, (name ++ q2 :: more ++ greaterThan :: spaces ++ closing).
    split; [reflexivity|]. split; [now apply quote_spec|].
    apply Matches_literal. exists name, (q2 :: more ++ greaterThan :: spaces ++ closing).
    split; [reflexivity|]. split; [exact Hname|].
    exists q2, (more ++ greaterThan :: spaces ++ closing).
    split; [reflexivity|]. split; [now apply quote_spec|].
    exists more, (greaterThan :: spaces ++ closing).
    split; [reflexivity|]. split; [lia|]. split.
    { apply forallb_Forall. eapply Forall_impl; [exact Hmore|].
      intros c. apply notGreaterThan_spec. }
    apply Matches_literal. exists [greaterThan], (spaces ++ closing).
    split; [reflexivity|]. split; [now apply caseless_gt|].
    exists spaces, closing.
    split; [reflexivity|]. split; [lia|]. split.
    { now apply forallb_Forall. }
    apply Matches_literal. exists closing, [].
    split; [now rewrite app_nil_r|]. split; [exact Hclosing|reflexivity].
Qed.

Lemma dataPage_words w :
  Matches true (items dataPage) w <->
  exists key q1 value q2,
    w = key ++ q1 :: value ++ [q2] /\
    caseless "data-page=" key /\ isQuote q1 /\
    1 <= length value /\ Forall (fun c => ~ isQuote c) value /\
    isQuote q2.
Proof.
  change (items dataPage)
    with (lit "data-page=" ++
          [One (oneOf [quote; apostrophe]);
           Repeat 1 (noneOf [quote; apostrophe]);
           One (oneOf [quote; apostrophe])]).
  unfold lit. split.
  - intros Hm.
    apply Matches_literal in Hm as (key & v & -> & Hkey & Hm).
    destruct Hm as (q1 & v1 & -> & Hq1 & Hm).
    destruct Hm as (value & v2 & -> & Hlen & Hvalue & Hm).
    destruct Hm as (q2 & v3 & -> & Hq2 & ->).
    exists key, q1, value, q2. split; [reflexivity|].
    apply forallb_Forall in Hvalue.
    repeat split; try assumption.
    + now apply quote_spec.
    + eapply Forall_impl; [exact Hvalue|]. intros c. apply notQuote_spec.
    + now apply quote_spec.
  - intros (key & q1 & value & q2 & -> & Hkey & Hq1 & Hlen & Hvalue & Hq2).
    apply Matches_literal. exists key, (q1 :: value ++ [q2]).
    split; [reflexivity|]. split; [exact Hkey|].
    exists q1, (value ++ [q2]).
    split; [reflexivity|]. split; [now apply quote_spec|].
    exists value, [q2].
    split; [reflexivity|]. split; [exact Hlen|]. split.
    { apply forallb_Forall. eapply Forall_impl; [exact Hvalue|].
      intros c. apply notQuote_spec. }
    exists q2, []. split; [reflexivity|]. split; [now apply quote_spec|reflexivity].
Qed.

Lemma test_emptyRoot id markup :
  test (emptyRoot id) markup = true <-> hasEmptyRoot id markup.
Proof.
  rewrite test_spec.
  2:{ rewrite emptyRoot_items.
      repeat first [rewrite bolFree_app | rewrite bolFree_lit
                   | rewrite bolFree_cons].
      reflexivity. }
  change (ignoreCase (emptyRoot id)) with true. unfold hasEmptyRoot. split.
  - intros (a & w & b & -> & Hw).
    apply emptyRoot_words in Hw
      as (tag & attrs & key & q1 & name & q2 & more & spaces & closing &
          -> & Hrest).
    now exists a, tag, attrs, key, q1, name, q2, more, spaces, closing, b.
  - intros (a & tag & attrs & key & q1 & name & q2 & more & spaces & closing &
            b & -> & Hrest).
    eexists a, _, b. split; [reflexivity|].
    apply emptyRoot_words.
    now exists tag, attrs, key, q1, name, q2, more, spaces, closing.
Qed.

Lemma test_dataPage markup :
  test dataPage markup = true <-> hasDataPage markup.
Proof.
  rewrite test_spec by reflexivity.
  change (ignoreCase dataPage) with true. unfold hasDataPage. split.
  - intros (a & w & b & -> & Hw).
    apply dataPage_words in Hw as (key & q1 & value & q2 & -> & Hrest).
    now exists a, key, q1, value, q2, b.
  - intros (a & key & q1 & value & q2 & b & -> & Hrest).
    eexists a, _, b. split; [reflexivity|].
    apply dataPage_words. now exists key, q1, value, q2.
Qed.

(** C9. The detector is a function of the HTML string alone.  It
    rejects exactly when, with the script, style, noscript, meta and
    link elements removed, the trimmed text of the body is shorter than
    150, or the markup of the body holds an empty [div] whose id is
    [app], [root] or [__next], or a [data-page] attribute. *)
Theorem spa_shell_detector `{Host} (html : jsstring) :
  let doc := removeAll (js "script, style, noscript, meta, link")
                       (parseFromString html) in
  let visible :=
    trim (match body doc with Some b => innerText b | None => [] end) in
  let markup := match body doc with Some b => innerHTML b | None => [] end in
  isSpaShell html = true <->
  length visible < 150 \/
  hasEmptyRoot "app" markup \/ hasEmptyRoot "root" markup \/
  hasEmptyRoot "__next" markup \/ hasDataPage markup.
Proof.
  cbv zeta. unfold isSpaShell.
  set (doc := removeAll _ _).
  set (visible := trim _).
  set (markup := match body doc with Some b => innerHTML b | None => [] end).
  destruct (length visible <? 150) eqn:El.
  - apply Nat.ltb_lt in El. split; [intros _; now left|reflexivity].
  - apply Nat.ltb_ge in El. unfold spaPatterns. cbn [existsb].
    rewrite orb_false_r, !orb_true_iff.
    rewrite !test_emptyRoot, test_dataPage.
    split; [tauto|]. intros [Hshort|Hrest]; [lia|tauto].
Qed.

(** * The scenarios of the specification, run on the plain host *)

(** Scenario A: the first proxy serves a long article. *)
Example scenario_A :
  outcome (worldServing [(AllOrigins, article 5000)] 0) exampleUrl =
  (Some (provenance exampleUrl 0 1, 0, 10, 1)%Z,
   [success; pending; pending; pending; pending; pending; pending; pending],
   2).
Proof. vm_compute. reflexivity. Qed.

(** Scenario B: the first proxy times out, the second serves 50
    characters, the third a 1200-character article. *)
Example scenario_B :
  outcome (worldServing [(ThingProxy, article 50); (CodeTabs, article 1200)] 0)
          exampleUrl =
  (Some (provenance exampleUrl 0 3, 0, 10, 1)%Z,
   [failed; failed; success; pending; pending; pending; pending; pending],
   6).
Proof. vm_compute. reflexivity. Qed.

(** Scenario C: nothing answers. *)
Example scenario_C :
  (run (H := plainHost) (worldServing [] 0) exampleUrl).1
    = Throw (Error (js "All layers failed")) /\
  outcome (worldServing [] 0) exampleUrl =
  (None, [failed; failed; failed; failed; failed; failed; failed; failed], 16).
Proof. split; vm_compute; reflexivity. Qed.

(** Scenario D: the reader answers 200 with a page that says
    "403: Forbidden"; the layer fails, and the cache behind it serves. *)
Example scenario_D :
  outcome (worldServing [(JinaReader, article 100 ++ js "403: Forbidden");
                         (GoogleCache, article 400)] 0) exampleUrl =
  (Some (provenance exampleUrl 0 5, 0, 10, 1)%Z,
   [failed; failed; failed; failed; success; pending; pending; pending],
   10).
Proof. vm_compute. reflexivity. Qed.

(** The shell detector on text that the plain host shows as it is. *)
Example shell_examples :
  isSpaShell (H := plainHost) (js "<div id='app'></div>") = true /\
  isSpaShell (H := plainHost) (article 160) = false /\
  isSpaShell (H := plainHost)
    (article 160 ++ js "<DIV class='x' ID='root'> </div>") = true /\
  isSpaShell (H := plainHost)
    (article 160 ++ js "<div id='root'>text</div>") = false /\
  isSpaShell (H := plainHost)
    (article 160 ++ js "<main data-page='{}'>") = true.
Proof. repeat split; vm_compute; reflexivity. Qed.

(** The string built-ins on small inputs. *)
Example builtin_examples :
  map unjs (split (js "  hello   world foo ") whitespaceRun)
    = [""; "hello"; "world"; "foo"; ""]%string /\
  split [] whitespaceRun = [[]] /\
  replace (js "a" ++ [LF; LF; LF; LF] ++ js "b" ++ [LF; LF] ++ js "c")
          blankLines [LF; LF]
    = js "a" ++ [LF; LF] ++ js "b" ++ [LF; LF] ++ js "c" /\
  unjs (trim (js "  a b  ")) = "a b"%string /\
  option_map unjs (encodeURIComponent (js "https://a.b/c d?x=1"))
    = Some "https%3A%2F%2Fa.b%2Fc%20d%3Fx%3D1"%string /\
  encodeURIComponent [55357; 56832]%N = Some (js "%F0%9F%98%80") /\
  encodeURIComponent [56832; 55357]%N = None /\
  unjs (toISOString 1000000000000) = "2001-09-09T01:46:40.000Z"%string /\
  unjs (toISOString (-1)) = "1969-12-31T23:59:59.999Z"%string.
Proof. repeat split; vm_compute; reflexivity. Qed.

(** * What a layer decides *)

Section DecisionFacts.
Context `{Host} (world : World).

Lemma fetch_refused {A} site url hdrs ms (k : Response -> M A) st :
  respond world site {| href := url; headers := hdrs; timeout := ms |} = None ->
  (fetch world site url hdrs ms ≫= k) st = (Throw FetchError, st).
Proof. intros E. unfold mbind, M_bind, fetch. now rewrite E. Qed.

Lemma resJson_unreadable {A} res (k : Json -> M A) st :
  json res = None -> (resJson res ≫= k) st = (Throw BodyError, st).
Proof. intros E. unfold mbind, M_bind, resJson. now rewrite E. Qed.

Lemma resText_unreadable {A} res (k : jsstring -> M A) st :
  text res = None -> (resText res ≫= k) st = (Throw BodyError, st).
Proof. intros E. unfold mbind, M_bind, resText. now rewrite E. Qed.

Lemma encode_refused {A} s (k : jsstring -> M A) st :
  encodeURIComponent s = None -> (encode s ≫= k) st = (Throw URIError, st).
Proof. intros E. unfold mbind, M_bind, encode. now rewrite E. Qed.

(** [c && c.length > n]: the first test is implied by the second. *)
Lemma nonempty_above (n : nat) (c : jsstring) :
  negb (isEmpty c) && (n <? length c) = (n <? length c).
Proof.
  destruct c; [|reflexivity]. cbn. now destruct n.
Qed.

(** The frame of a layer around its body: a result is handed on, a
    fall-through and an exception both end in [failed]. *)
Lemma attempt_eval i body st :
  attempt i body st =
  match body (step i trying st) with
  | (Normal (Some r), st') => (Normal (Some r), st')
  | (Normal None, st') | (Throw _, st') => (Normal None, step i failed st')
  end.
Proof.
  unfold attempt.
  assert (E0 : updateLayer i trying st = (Normal (), step i trying st))
    by reflexivity.
  unfold mbind, M_bind, try_. rewrite E0.
  destruct (body (step i trying st)) as [[[r|]|e] st']; reflexivity.
Qed.

Ltac simplify_decision :=
  match goal with
  | |- ?d = ?t -> ?G =>
      let t' := eval cbn [mbind option_bind orEmpty default from_option id
                          isEmpty negb andb] in t in
      change (d = t' -> G)
  end.

Ltac case_decision :=
  repeat (simplify_decision;
    match goal with
    | |- _ = ?rhs -> _ =>
        match rhs with
        | context [respond ?w ?s ?r] =>
            destruct (respond w s r) as [?res|] eqn:?
        | context [ok ?r] => destruct (ok r) eqn:?
        | context [json ?r] => destruct (json r) as [?data|] eqn:?
        | context [text ?r] => destruct (text r) as [?body|] eqn:?
        | context [contents ?d] => destruct (contents d) as [?c|] eqn:?
        | context [closestUrl ?d] => destruct (closestUrl d) as [[|? ?]|] eqn:?
        | context [encodeURIComponent ?s] =>
            destruct (encodeURIComponent s) as [?target|] eqn:?
        | context [isJinaError ?s] => destruct (isJinaError s) eqn:?
        | context [?n <? length ?s] => destruct (n <? length s) eqn:?
        | context [isSpaShell ?s] => destruct (isSpaShell s) eqn:?
        end
    end).

Ltac replay_all :=
  repeat first
    [ progress cbv zeta
    | erewrite fetch_answered by eassumption
    | erewrite fetch_refused by eassumption
    | erewrite resJson_parsed by eassumption
    | erewrite resJson_unreadable by eassumption
    | erewrite resText_read by eassumption
    | erewrite resText_unreadable by eassumption
    | erewrite encode_done by eassumption
    | erewrite encode_refused by eassumption
    | rewrite nonempty_above
    | match goal with
      | E : ?x = _ |- context [?x] => rewrite E
      end
    | progress cbn [orEmpty default from_option id isEmpty negb andb] ].

Lemma layerN_decision_aux (k : nat) (url enc : jsstring) (st : Run) d :
  k < 8 ->
  d = decision world k url enc ->
  layerN world k url enc st = (Normal d, settle k (verdict d) st).
Proof.
  intros Hk. destruct k as [|[|[|[|[|[|[|[|k]]]]]]]]; [..|lia]; clear Hk.
  all: unfold decision; cbn [Nat.eqb layerN].
  all: repeat match goal with
       | |- context [threshold ?k] =>
           let v := eval vm_compute in (threshold k) in
           change (threshold k) with v
       end.
  all: unfold candidate, enveloped, served, snapshotOf, jinaRequest.
  all: case_decision.
  all: simplify_decision.
  all: intros ->; cbn [verdict].
  all: unfold layer1, layer2, layer3, layer4, layer5, layer6, layer7, layer8.
  all: (etransitivity; [apply attempt_eval|]).
  all: replay_all.
  all: reflexivity.
Qed.

Lemma layerN_decision (k : nat) (url enc : jsstring) (st : Run) :
  k < 8 ->
  layerN world k url enc st =
    (Normal (decision world k url enc),
     settle k (verdict (decision world k url enc)) st).
Proof. intros Hk. now apply layerN_decision_aux. Qed.


Ltac decide_layer world url enc n :=
  let L := fresh "L" in let E := fresh "E" in
  pose proof (layerN_decision n url enc (failedThrough n)) as L;
  cbn [layerN] in L; rewrite L by lia; clear L; cbv iota beta;
  destruct (decision world n url enc) as [?r|] eqn:E;
  [ reflexivity
  | cbn [verdict];
    change (settle n failed (failedThrough n)) with (failedThrough (S n)) ].

Lemma run_firstAccepted (url : jsstring) :
  run world url =
  match encodeURIComponent url with
  | None => (Throw URIError, unstarted)
  | Some enc =>
      match firstAccepted world url enc 0 8 with
      | Some (k, r) => (Normal r, succeededAt k)
      | None => (Throw exhaustion, failedThrough 8)
      end
  end.
Proof.
  unfold run, scrapeUrl, encode.
  destruct (encodeURIComponent url) as [enc|]; [|reflexivity].
  unfold orNext, mbind, M_bind, mret, M_ret, declareLayers, unstarted.
  cbn [emitted firstAccepted].
  change {| layers := initialLayers; emitted := [] |} with (failedThrough 0).
  decide_layer world url enc 0. decide_layer world url enc 1.
  decide_layer world url enc 2. decide_layer world url enc 3.
  decide_layer world url enc 4. decide_layer world url enc 5.
  decide_layer world url enc 6. decide_layer world url enc 7.
  reflexivity.
Qed.

Lemma firstAccepted_range url enc s n k r :
  firstAccepted world url enc s n = Some (k, r) ->
  s <= k < s + n /\ decision world k url enc = Some r.
Proof.
  revert s. induction n as [|n IH]; intros s; [discriminate|].
  cbn [firstAccepted]. destruct (decision world s url enc) as [r'|] eqn:E.
  - intros [= <- <-]. split; [lia|exact E].
  - intros Hf. destruct (IH _ Hf) as [Hr Hd]. split; [lia|exact Hd].
Qed.




End DecisionFacts.


(** * The layers behind the one that succeeds *)

Lemma emitted_failedThrough n : length (emitted (failedThrough n)) = 2 * n.
Proof.
  induction n as [|n IH]; [reflexivity|].
  cbn [failedThrough]. unfold settle, step, updateLayer. cbn [snd emitted].
  rewrite !length_app. cbn [length]. lia.
Qed.

Lemma emitted_succeededAt k : length (emitted (succeededAt k)) = 2 * k + 2.
Proof.
  unfold succeededAt, settle, step, updateLayer. cbn [snd emitted].
  rewrite !length_app, emitted_failedThrough. cbn [length]. lia.
Qed.

Lemma decision_agree `{Host} (w1 w2 : World) j url enc :
  now w1 = now w2 ->
  (forall site, In site (layerSites j) -> respond w1 site = respond w2 site) ->
  decision w1 j url enc = decision w2 j url enc.
Proof.
  intros Hnow Hsites.
  destruct j as [|[|[|[|[|[|[|[|j]]]]]]]].
  all: unfold decision, candidate, enveloped, served, snapshotOf;
    cbn [Nat.eqb]; cbn [layerSites] in Hsites.
  all: repeat match goal with
       | |- context [respond _ ?s] =>
           rewrite (Hsites s) by (cbn; tauto)
       end.
  all: rewrite ?Hnow; reflexivity.
Qed.

Lemma firstAccepted_agree `{Host} (w1 w2 : World) url enc k r :
  (forall j, j <= k -> decision w1 j url enc = decision w2 j url enc) ->
  forall n s, firstAccepted w1 url enc s n = Some (k, r) ->
              firstAccepted w2 url enc s n = Some (k, r).
Proof.
  intros Hd. induction n as [|n IH]; intros s; [discriminate|].
  intros Hf. pose proof (firstAccepted_range w1 _ _ _ _ _ _ Hf) as [Hr _].
  cbn [firstAccepted] in Hf |- *. rewrite <- (Hd s) by lia.
  destruct (decision w1 s url enc) as [r'|]; [exact Hf|].
  apply IH, Hf.
Qed.

(** X3. The layers behind the one that succeeds play no part: when a
    call returns from layer [k+1], it ends the same way, with the same
    document and the same snapshots, in every world that tells the same
    time and answers the requests of layers 1 to [k+1] alike, whatever
    the services of the later layers would have said. *)
Theorem later_layers_irrelevant `{Host} (w1 w2 : World) (url : jsstring)
    (k : nat) (r : ScrapeResult) :
  agreeThrough k w1 w2 ->
  run w1 url = (Normal r, succeededAt k) ->
  run w2 url = run w1 url.
Proof.
  intros [Hnow Hsites] Hrun. rewrite Hrun.
  rewrite run_firstAccepted in Hrun |- *.
  destruct (encodeURIComponent url) as [enc|]; [|discriminate].
  destruct (firstAccepted w1 url enc 0 8) as [[k' r']|] eqn:Hf; [|discriminate].
  assert (k' = k) as ->.
  { apply (f_equal (fun p => length (emitted p.2))) in Hrun. cbn [snd] in Hrun.
    rewrite !emitted_succeededAt in Hrun. lia. }
  apply (f_equal fst) in Hrun. cbn [fst] in Hrun. injection Hrun as <-.
  rewrite (firstAccepted_agree w1 w2 url enc k r' (fun j Hj =>
             decision_agree w1 w2 j url enc Hnow (fun site => Hsites j site Hj))
             8 0 Hf).
  reflexivity.
Qed.

Lemma later_layers_irrelevant_witness :
  run (H := plainHost)
      (worldServing [(CodeTabs, article 201); (HtmlRender, article 500)] 0)
      exampleUrl =
  run (H := plainHost) sampleProxy exampleUrl.
Proof.
  eapply (later_layers_irrelevant (H := plainHost) sampleProxy
            (worldServing [(CodeTabs, article 201); (HtmlRender, article 500)] 0)
            exampleUrl 2).
  - split; [reflexivity|].
    intros j site Hj Hin.
    destruct j as [|[|[|j]]]; [..|lia]; cbn in Hin;
      destruct Hin as [<-|[]]; reflexivity.
  - vm_compute. reflexivity.
Defined.

(** * The snapshots *)

(** X4. Every snapshot the callback receives lists the eight layers in
    order, each under its number (1 to 8) and its name; only statuses
    change.  The numbers, which the progress log uses as the keys of its
    rows, are therefore distinct. *)
Theorem snapshots_keep_identity `{Host} (world : World) (url : jsstring) :
  Forall (fun snap => map layer snap = [1; 2; 3; 4; 5; 6; 7; 8]%Z /\
                      map name snap = map name initialLayers /\
                      List.NoDup (map layer snap))
         (emitted (run world url).2).
Proof.
  each_outcome world url.
  all: concretize emitted; repeat constructor.
  all: cbn; intros Hin;
    repeat match type of Hin with _ \/ _ => destruct Hin as [Hin|Hin] end;
    first [discriminate | contradiction].
Qed.


(** * The words of a document *)

Lemma wordsFrom_break cur x c y :
  isWhiteSpace c = true ->
  wordsFrom cur (x ++ c :: y) = wordsFrom cur x ++ wordsFrom [] y.
Proof.
  intros Hc. revert cur. induction x as [|d x IH]; intros cur.
  - cbn [app wordsFrom]. rewrite Hc. now destruct (isEmpty cur).
  - cbn [app wordsFrom]. destruct (isWhiteSpace d).
    + destruct (isEmpty cur); cbn [app]; now rewrite IH.
    + apply IH.
Qed.

Lemma wordsFrom_solid cur w :
  solid w = true ->
  wordsFrom cur w = if isEmpty (cur ++ w) then [] else [cur ++ w].
Proof.
  revert cur. induction w as [|c w IH]; intros cur Hw.
  - cbn [wordsFrom]. rewrite app_nil_r. reflexivity.
  - cbn [solid forallb] in Hw. apply andb_true_iff in Hw as [Hc Hw].
    apply negb_true_iff in Hc. cbn [wordsFrom]. rewrite Hc.
    rewrite (IH _ Hw), <- app_assoc. reflexivity.
Qed.

Lemma words_break x c y :
  isWhiteSpace c = true -> words (x ++ c :: y) = words x ++ words y.
Proof. apply wordsFrom_break. Qed.

Lemma words_solid w : solid w = true -> w <> [] -> words w = [w].
Proof.
  intros Hw Hne. unfold words. rewrite (wordsFrom_solid _ _ Hw).
  destruct w; [now destruct Hne|reflexivity].
Qed.

Lemma solid_app a b : solid (a ++ b) = solid a && solid b.
Proof. apply forallb_app. Qed.

Lemma solid_digitsOfUint d : solid (digitsOfUint d) = true.
Proof. induction d; cbn; auto. Qed.

Lemma solid_numberToString n : solid (numberToString n) = true.
Proof. destruct n; cbn; try reflexivity; apply solid_digitsOfUint. Qed.

Lemma digitsOfUint_nonempty d : d <> Decimal.Nil -> digitsOfUint d <> [].
Proof. destruct d; [congruence|discriminate..]. Qed.

Lemma numberToString_nonempty n : numberToString n <> [].
Proof.
  destruct n as [|p|p]; cbn; [discriminate| |discriminate].
  apply digitsOfUint_nonempty, Unsigned.to_uint_nonnil.
Qed.

Lemma solid_repeat n : solid (repeat 48%N n) = true.
Proof. induction n; cbn; auto. Qed.

Lemma solid_padded w n : solid (padded w n) = true.
Proof.
  unfold padded. now rewrite solid_app, solid_repeat, solid_numberToString.
Qed.

Lemma solid_toISOString t : solid (toISOString t) = true.
Proof.
  unfold toISOString. destruct (civilFromDays _) as [[y m] d].
  destruct ((0 <=? y)%Z && (y <=? 9999)%Z); [|destruct (y <? 0)%Z].
  all: now rewrite !solid_app, !solid_padded.
Qed.

Lemma toISOString_nonempty t : toISOString t <> [].
Proof.
  unfold toISOString. destruct (civilFromDays _) as [[y m] d].
  intros E. apply (f_equal (@length _)) in E.
  rewrite !length_app in E. cbn in E. lia.
Qed.

(** The words of a document: those of the header, with the URL's among
    them, then those of the body. *)
Lemma words_provenance url date n content :
  words (provenance url date n ++ content) =
    [js "---"; js "source:"] ++ words url ++
    [js "scraped:"; toISOString date; js "layers_tried:"; numberToString n;
     js "---"] ++ words content.
Proof.
  transitivity
    (words (js "---" ++ LF :: js "source:" ++ 32%N :: url ++
            LF :: js "scraped:" ++ 32%N :: toISOString date ++
            LF :: js "layers_tried:" ++ 32%N :: numberToString n ++
            LF :: js "---" ++ LF :: [] ++ LF :: content));
    [unfold provenance; now rewrite <- !app_assoc|].
  rewrite !words_break by reflexivity.
  rewrite (words_solid (toISOString date))
    by (apply solid_toISOString || apply toISOString_nonempty).
  rewrite (words_solid (numberToString n))
    by (apply solid_numberToString || apply numberToString_nonempty).
  reflexivity.
Qed.

Section Counting.
Context `{Host}.

Lemma wordCount_words md : wordCount (makeResult md) = Z.of_nat (length (words md)).
Proof. unfold makeResult. cbn [wordCount]. now rewrite <- split_words. Qed.

Lemma readTime_ceiling md :
  readTime (makeResult md) = ((wordCount (makeResult md) + 199) / 200)%Z.
Proof.
  unfold makeResult at 1. cbn [readTime]. rewrite ceiling_of_ratio by lia.
  reflexivity.
Qed.

(** The word count of a document: seven for the header, the words of
    the URL, the words of the body. *)
Lemma header_counts_as_words (url : jsstring) (date n : Z) (content : jsstring) :
  let r := makeResult (provenance url date n ++ content) in
  wordCount r =
    Z.of_nat (headerWords + length (words url) + length (words content)) /\
  (1 <= readTime r)%Z.
Proof.
  cbv zeta. rewrite readTime_ceiling, wordCount_words, words_provenance.
  rewrite !length_app. cbn [length]. unfold headerWords. split; [f_equal; lia|].
  Z.div_mod_to_equations. lia.
Qed.

End Counting.
Section Documents.
Context `{Host}.

(** X6. The counts of a returned result take the header in: the word
    count is seven, plus the words of the URL, plus the words of the
    body under the header; so the reading time is never below one
    minute, even for an empty body. *)
Theorem result_counts_header (world : World) (url : jsstring) (r : ScrapeResult) :
  (run world url).1 = Normal r ->
  exists k content,
    k < 8 /\
    markdown r = provenance url (now world) (Z.of_nat (S k)) ++ content /\
    wordCount r =
      Z.of_nat (headerWords + length (words url) + length (words content)) /\
    (1 <= readTime r)%Z.
Proof.
  intros Hr. destruct (returned_report world url r Hr) as (k & Hk & _ & Hp).
  exists k. unfold produced in Hp. destruct (k =? 3) eqn:Ek.
  - apply Nat.eqb_eq in Ek as ->. destruct Hp as (res & t & _ & _ & _ & _ & ->). exists (trim t).
    split; [exact Hk|]. split; [reflexivity|].
    apply header_counts_as_words.
  - destruct Hp as (html & _ & _ & ->). eexists.
    split; [exact Hk|]. split; [reflexivity|].
    apply header_counts_as_words.
Qed.

(** X7. Under the header, the document that [cleanHtmlToMarkdown]
    builds has a body that neither starts nor ends with white space
    (trimming it again changes nothing) and holds no run of three line
    feeds, whatever Turndown made of the page. *)
Theorem normalised_body_is_tidy (date : Z) (html url : jsstring) (n : Z) :
  exists body,
    cleanHtmlToMarkdown date html url n = provenance url date n ++ body /\
    trim body = body /\
    includes body threeLF = false.
Proof.
  eexists. split; [reflexivity|]. split.
  - apply trim_idem.
  - apply collapse_free.
Qed.

End Documents.

Lemma result_counts_header_witness :
  exists r, (run (H := plainHost) sampleProxy exampleUrl).1 = Normal r /\
    exists k content,
      k < 8 /\
      markdown r = provenance exampleUrl (now sampleProxy) (Z.of_nat (S k))
                   ++ content /\
      wordCount r =
        Z.of_nat (headerWords + length (words exampleUrl)
                  + length (words content)) /\
      (1 <= readTime r)%Z.
Proof.
  eexists. split; [vm_compute; reflexivity|].
  apply (result_counts_header (H := plainHost) sampleProxy exampleUrl).
  vm_compute. reflexivity.
Defined.

(** ** Trimming what is left after a deletion *)

Lemma trimStart_length s : length (trimStart s) <= length s.
Proof.
  induction s as [|c s IH]; [reflexivity|].
  cbn [trimStart]. destruct (isWhiteSpace c); cbn [length]; lia.
Qed.

Lemma trimStart_app_le p q : length (trimStart p) <= length (trimStart (p ++ q)).
Proof.
  induction p as [|c p IH]; [cbn; lia|].
  cbn [app trimStart]. destruct (isWhiteSpace c); [exact IH|].
  cbn [length]. rewrite length_app. lia.
Qed.

Lemma trimStart_prepend_le m q : length (trimStart q) <= length (trimStart (m ++ q)).
Proof.
  induction m as [|c m IH]; [reflexivity|].
  cbn [app trimStart]. destruct (isWhiteSpace c); [exact IH|].
  cbn [length]. rewrite length_app. pose proof (trimStart_length q). lia.
Qed.

Lemma trimStart_delete_le p m q :
  length (trimStart (p ++ q)) <= length (trimStart (p ++ m ++ q)).
Proof.
  induction p as [|c p IH]; [apply (trimStart_prepend_le m q)|].
  cbn [app trimStart]. destruct (isWhiteSpace c); [exact IH|].
  cbn [length]. rewrite !length_app. lia.
Qed.

Lemma trimEnd_delete_le a m b :
  length (trimEnd (a ++ b)) <= length (trimEnd (a ++ m ++ b)).
Proof.
  unfold trimEnd. rewrite !length_rev, !rev_app_distr, <- app_assoc.
  apply trimStart_delete_le.
Qed.

Lemma trimEnd_length s : length (trimEnd s) <= length s.
Proof.
  unfold trimEnd. rewrite length_rev.
  etransitivity; [apply trimStart_length|]. now rewrite length_rev.
Qed.

Lemma trimEnd_prepend_le m b : length (trimEnd b) <= length (trimEnd (m ++ b)).
Proof.
  unfold trimEnd. rewrite !length_rev, rev_app_distr. apply trimStart_app_le.
Qed.

Lemma trim_le_trimEnd s : length (trim s) <= length (trimEnd s).
Proof.
  unfold trim. rewrite (trimStart_suffix s) at 2. apply trimEnd_prepend_le.
Qed.

Lemma trim_prepend_le m b : length (trim b) <= length (trim (m ++ b)).
Proof.
  induction m as [|c m IH]; [reflexivity|].
  unfold trim at 2. cbn [app trimStart]. destruct (isWhiteSpace c) eqn:Ec.
  - exact IH.
  - rewrite (trimEnd_cons _ _ Ec). cbn [length].
    pose proof (trim_le_trimEnd b). pose proof (trimEnd_prepend_le m b). lia.
Qed.

(** Taking a stretch out of a text does not lengthen what [trim]
    leaves. *)
Lemma trim_delete_le a m b :
  length (trim (a ++ b)) <= length (trim (a ++ m ++ b)).
Proof.
  induction a as [|c a IH]; [apply (trim_prepend_le m b)|].
  unfold trim. cbn [app trimStart]. destruct (isWhiteSpace c) eqn:Ec.
  - exact IH.
  - rewrite !(trimEnd_cons _ _ Ec). cbn [length].
    pose proof (trimEnd_delete_le a m b). lia.
Qed.

Lemma titleBlockAt_suffix s rest :
  titleBlockAt s = Some rest -> exists m, s = m ++ rest.
Proof.
  unfold titleBlockAt. destruct s as [|c t]; [discriminate|].
  destruct (isHash c); [|discriminate].
  pose proof (takeWhile_dropWhile inLine t) as E1.
  destruct (dropWhile inLine t) as [|nl underline]; [discriminate|].
  destruct (isLF nl && _); [|discriminate].
  pose proof (takeWhile_dropWhile isEquals underline) as E2.
  destruct (dropWhile isEquals underline) as [|nl' rest']; [discriminate|].
  destruct (isLF nl'); [|discriminate]. intros [= <-].
  exists (c :: takeWhile inLine t ++ nl :: takeWhile isEquals underline ++ [nl']).
  rewrite <- E1 at 1. rewrite <- E2 at 1.
  cbn [app]. repeat (rewrite <- app_assoc; cbn [app]). reflexivity.
Qed.

Lemma stripFrom_deletes b s :
  exists a m rest, s = a ++ m ++ rest /\ stripFrom b s = a ++ rest.
Proof.
  revert b. induction s as [|c t IH]; intros b.
  - now exists [], [], [].
  - cbn [stripFrom].
    destruct (if b then titleBlockAt (c :: t) else None) as [rest|] eqn:E.
    + destruct b; [|discriminate].
      destruct (titleBlockAt_suffix _ _ E) as [m Hm].
      exists [], m, rest. now split.
    + destruct (IH (isLineTerminator c)) as (a & m & rest & -> & ->).
      now exists (c :: a), m, rest.
Qed.

Section Reader.
Context `{Host}.

(** X8. A text that [isJinaError] lets through gives a document whose
    body, the trimmed text, has at least 100 code units: white space
    around a short answer does not carry it past the detector. *)
Theorem reader_body_is_substantial (date : Z) (text url : jsstring) (n : Z) :
  isJinaError text = false ->
  exists body,
    buildJinaMarkdown date text url n = provenance url date n ++ body /\
    trim body = body /\
    100 <= length body.
Proof.
  intros He. exists (trim text). split; [reflexivity|].
  split; [apply trim_idem|].
  unfold isJinaError in He.
  destruct (isEmpty text || _); [discriminate|].
  repeat match type of He with
         | (if ?c then true else _) = false => destruct c; [discriminate|]
         end.
  cbv zeta in He. apply Nat.ltb_ge in He.
  rewrite replace_titleBlock in He. unfold stripTitleBlock in He.
  destruct (stripFrom_deletes true text) as (a & m & rest & E1 & E2).
  rewrite E2 in He. rewrite E1. pose proof (trim_delete_le a m rest). lia.
Qed.

(** X9. Letter case does not hide a marker: a text that holds one of
    the four phrases of the detector with any of its letters in upper
    case is rejected, whatever stands around the phrase. *)
Theorem markers_in_any_case (marker w before after : jsstring) :
  In marker jinaMarkers ->
  forallb isAscii w = true ->
  map asciiLower w = marker ->
  isJinaError (before ++ w ++ after) = true.
Proof.
  intros Hin Hascii Hlow. unfold isJinaError.
  destruct (isEmpty _ || _); [reflexivity|].
  destruct (toLowerCase_ascii before w after Hascii) as (a' & c' & ->).
  rewrite Hlow.
  assert (Hinc : includes (a' ++ marker ++ c') marker = true)
    by (apply includes_spec; eauto).
  unfold jinaMarkers in Hin. cbn [In] in Hin. destruct Hin as [<-|[<-|[<-|[<-|[]]]]]; rewrite Hinc.
  all: repeat match goal with
       | |- (if ?c then true else _) = true => destruct c; [reflexivity|]
       end; reflexivity.
Qed.

End Reader.

Lemma reader_body_is_substantial_witness :
  exists body,
    buildJinaMarkdown 0 (article 120) exampleUrl 4 =
      provenance exampleUrl 0 4 ++ body /\
    trim body = body /\
    100 <= length body.
Proof.
  apply (reader_body_is_substantial (H := plainHost) 0 (article 120)
                                    exampleUrl 4).
  vm_compute. reflexivity.
Defined.

Lemma markers_in_any_case_witness :
  isJinaError (H := plainHost) (article 100 ++ js "CAPTCHA" ++ article 100)
    = true.
Proof.
  apply (markers_in_any_case (H := plainHost) (js "captcha") (js "CAPTCHA")
                             (article 100) (article 100)).
  - right. left. reflexivity.
  - vm_compute. reflexivity.
  - vm_compute. reflexivity.
Defined.
(** * The content root *)

Section ContentRoot.
Context `{Host}.

Lemma firstMatch_spec doc sels el :
  firstMatch doc sels = Some el <-> exists sel, firstToMatch doc sels sel el.
Proof.
  induction sels as [|s sels IH]; cbn [firstMatch].
  - split; [discriminate|]. intros (sel & i & Hi & _). destruct i; discriminate.
  - destruct (querySelector doc s) as [e|] eqn:E.
    + split.
      * intros [= <-]. exists s, 0. split; [reflexivity|]. split; [exact E|].
        intros j other Hj. lia.
      * intros (sel & i & Hi & Hq & Hbefore). destruct i as [|i].
        -- injection Hi as <-. congruence.
        -- specialize (Hbefore 0 s (Nat.lt_0_succ i) eq_refl). congruence.
    + rewrite IH. split.
      * intros (sel & i & Hi & Hq & Hbefore). exists sel, (S i).
        split; [exact Hi|]. split; [exact Hq|].
        intros [|j] other Hj Ho; [injection Ho as <-; exact E|].
        apply (Hbefore j); [lia|exact Ho].
      * intros (sel & i & Hi & Hq & Hbefore). destruct i as [|i].
        -- injection Hi as <-. congruence.
        -- exists sel, i. split; [exact Hi|]. split; [exact Hq|].
           intros j other Hj Ho. apply (Hbefore (S j)); [lia|exact Ho].
Qed.

Lemma firstMatch_none doc sels :
  firstMatch doc sels = None <->
  forall sel, In sel sels -> querySelector doc sel = None.
Proof.
  induction sels as [|s sels IH]; cbn [firstMatch].
  - split; [intros _ sel []|reflexivity].
  - destruct (querySelector doc s) as [e|] eqn:E.
    + split; [discriminate|]. intros Hall.
      specialize (Hall s (or_introl eq_refl)). congruence.
    + rewrite IH. split.
      * intros Hall sel [<-|Hin]; [exact E|now apply Hall].
      * intros Hall sel Hin. apply Hall. now right.
Qed.

(** X26. The content root: what [cleanHtmlToMarkdown] converts is the
    inner HTML of the element matched by the first content selector that
    matches at all, in the order article, main, [role=main], .content,
    ..., body, after the noise has been removed from the document; a
    later selector counts only when every earlier one matches nothing. *)
Theorem content_root_priority (date : Z) (html url : jsstring) (n : Z)
    (sel : jsstring) (el : Element) :
  firstToMatch (withoutNoise html) contentSelectors sel el ->
  cleanHtmlToMarkdown date html url n =
    provenance url date n ++ collapseBlankLines (turndown (innerHTML el)).
Proof.
  intros Hfirst. unfold cleanHtmlToMarkdown. fold (withoutNoise html).
  assert (E : firstMatch (withoutNoise html) contentSelectors = Some el)
    by (apply firstMatch_spec; eauto).
  now rewrite E.
Qed.

(** The [body] property is the fall-back when no selector matches. *)
Lemma content_root_fallback (date : Z) (html url : jsstring) (n : Z) :
  (forall sel, In sel contentSelectors ->
               querySelector (withoutNoise html) sel = None) ->
  cleanHtmlToMarkdown date html url n =
    provenance url date n ++
    collapseBlankLines
      (turndown (match body (withoutNoise html) with
                 | Some b => innerHTML b
                 | None => []
                 end)).
Proof.
  intros Hnone. unfold cleanHtmlToMarkdown. fold (withoutNoise html).
  apply firstMatch_none in Hnone. now rewrite Hnone.
Qed.

End ContentRoot.

Lemma content_root_priority_witness :
  cleanHtmlToMarkdown (H := plainHost) 0 (article 10) exampleUrl 1 =
    provenance exampleUrl 0 1 ++
    collapseBlankLines (@turndown plainHost (@innerHTML plainHost (article 10))).
Proof.
  apply (content_root_priority (H := plainHost) 0 (article 10) exampleUrl 1
                               (js "body") (article 10)).
  exists 10. split; [reflexivity|]. split; [reflexivity|].
  intros j other Hj Ho.
  do 10 (destruct j as [|j]; [injection Ho as <-; reflexivity|]).
  lia.
Defined.
(** * Encoding twice *)

Lemma hexDigit_unreserved n : (n < 16)%N -> uriUnreserved (hexDigit n) = true.
Proof.
  intros Hn.
  assert (Hall : forallb (fun k => uriUnreserved (hexDigit (N.of_nat k)))
                         (seq 0 16) = true) by (vm_compute; reflexivity).
  rewrite forallb_forall in Hall. specialize (Hall (N.to_nat n)).
  rewrite N2Nat.id in Hall. apply Hall, in_seq. lia.
Qed.

Lemma percent_safe o : (o < 256)%N -> forallb isUriSafe (percent o) = true.
Proof.
  intros Ho. unfold percent, isUriSafe. cbn [forallb].
  rewrite !hexDigit_unreserved.
  - reflexivity.
  - apply N.mod_lt. lia.
  - apply N.Div0.div_lt_upper_bound. lia.
Qed.

Lemma utf8_octets cp :
  (cp < 1114112)%N -> Forall (fun o => (o < 256)%N) (utf8 cp).
Proof.
  intros Hcp. unfold utf8.
  destruct (cp <? 128)%N eqn:E1; [apply N.ltb_lt in E1; repeat constructor; lia|].
  destruct (cp <? 2048)%N eqn:E2.
  { apply N.ltb_lt in E2.
    assert (cp / 64 < 32)%N by (apply N.Div0.div_lt_upper_bound; lia).
    assert (cp mod 64 < 64)%N by (apply N.mod_lt; lia).
    repeat constructor; lia. }
  destruct (cp <? 65536)%N eqn:E3.
  { apply N.ltb_lt in E3.
    assert (cp / 4096 < 16)%N by (apply N.Div0.div_lt_upper_bound; lia).
    assert ((cp / 64) mod 64 < 64)%N by (apply N.mod_lt; lia).
    assert (cp mod 64 < 64)%N by (apply N.mod_lt; lia).
    repeat constructor; lia. }
  assert (cp / 262144 < 5)%N by (apply N.Div0.div_lt_upper_bound; lia).
  assert ((cp / 4096) mod 64 < 64)%N by (apply N.mod_lt; lia).
  assert ((cp / 64) mod 64 < 64)%N by (apply N.mod_lt; lia).
  assert (cp mod 64 < 64)%N by (apply N.mod_lt; lia).
  repeat constructor; lia.
Qed.

Lemma escapes_safe cp :
  (cp < 1114112)%N ->
  forallb isUriSafe (concat (map percent (utf8 cp))) = true.
Proof.
  intros Hcp. pose proof (utf8_octets cp Hcp) as Ho.
  induction Ho as [|o os Ho _ IH]; [reflexivity|].
  cbn [map concat]. now rewrite forallb_app, percent_safe, IH.
Qed.

Lemma encodeURIComponent_safe s e :
  forallb isCodeUnit s = true ->
  encodeURIComponent s = Some e ->
  forallb isUriSafe e = true.
Proof.
  assert (Hn : forall n s e, length s <= n ->
             forallb isCodeUnit s = true ->
             encodeURIComponent s = Some e -> forallb isUriSafe e = true).
  { clear s e. induction n as [|n IH]; intros s e Hlen Hs He.
    - destruct s; [|cbn in Hlen; lia]. injection He as <-. reflexivity.
    - destruct s as [|c t]; [injection He as <-; reflexivity|].
      cbn [length] in Hlen. cbn [forallb] in Hs.
      apply andb_true_iff in Hs as [Hc Ht]. apply N.ltb_lt in Hc.
      cbn [encodeURIComponent] in He.
      destruct (uriUnreserved c) eqn:Eu.
      + destruct (encodeURIComponent t) as [e'|] eqn:Et; [|discriminate].
        injection He as <-. cbn [forallb]. unfold isUriSafe at 1.
        rewrite Eu. cbn [orb andb]. apply (IH t); [lia|exact Ht|exact Et].
      + destruct (isLowSurrogate c); [discriminate|].
        destruct (isHighSurrogate c) eqn:Eh.
        * destruct t as [|c2 t']; [discriminate|].
          destruct (isLowSurrogate c2) eqn:El; [|discriminate].
          destruct (encodeURIComponent t') as [e'|] eqn:Et; [|discriminate].
          injection He as <-. cbn [forallb length] in *.
          apply andb_true_iff in Ht as [_ Ht].
          rewrite forallb_app, escapes_safe, (IH t' e'); [reflexivity|lia|exact Ht|exact Et|].
          unfold isHighSurrogate, isLowSurrogate, within in Eh, El.
          apply andb_true_iff in Eh as [Eh1 Eh2].
          apply andb_true_iff in El as [El1 El2].
          apply N.leb_le in Eh1, Eh2, El1, El2. lia.
        * destruct (encodeURIComponent t) as [e'|] eqn:Et; [|discriminate].
          injection He as <-.
          rewrite forallb_app, escapes_safe, (IH t e'); [reflexivity|lia|exact Ht|exact Et|lia]. }
  now apply (Hn (length s)).
Qed.

Lemma safe_notSurrogate s :
  forallb isUriSafe s = true -> forallb notSurrogate s = true.
Proof.
  induction s as [|c s IH]; [reflexivity|].
  cbn [forallb]. intros Hs. apply andb_true_iff in Hs as [Hc Hs].
  rewrite (IH Hs), andb_true_r. unfold notSurrogate, isUriSafe in *.
  apply orb_true_iff in Hc as [Hc|Hc].
  - now destruct (unreserved_not_surrogate c Hc) as [-> ->].
  - apply N.eqb_eq in Hc as ->. reflexivity.
Qed.

Lemma notSurrogate_wellFormed s :
  forallb notSurrogate s = true -> isWellFormed s = true.
Proof.
  induction s as [|c s IH]; [reflexivity|].
  cbn [forallb isWellFormed]. intros Hs. apply andb_true_iff in Hs as [Hc Hs].
  unfold notSurrogate in Hc. apply andb_true_iff in Hc as [Hl Hh].
  apply negb_true_iff in Hl, Hh. rewrite Hl, Hh. now apply IH.
Qed.

(** X10. The only [URIError] of layers 5 and 7 would be the caller's:
    the encoded URL is made of unreserved characters and [%] escapes,
    so the cache address and the 12ft address built around it encode,
    and these layers do not fail on their second [encodeURIComponent]. *)
Theorem nested_encodings_succeed (url enc : jsstring) :
  forallb isCodeUnit url = true ->
  encodeURIComponent url = Some enc ->
  forallb isUriSafe enc = true /\
  (exists target,
     encodeURIComponent
       (js "https://webcache.googleusercontent.com/search?q=cache:" ++
        enc ++ js "&hl=en") = Some target) /\
  (exists target,
     encodeURIComponent (js "https://12ft.io/proxy?q=" ++ enc) = Some target).
Proof.
  intros Hu He. pose proof (encodeURIComponent_safe url enc Hu He) as Hs.
  split; [exact Hs|].
  apply safe_notSurrogate in Hs.
  split; apply encodeURIComponent_defined, notSurrogate_wellFormed.
  - rewrite !forallb_app, Hs. reflexivity.
  - rewrite forallb_app, Hs. reflexivity.
Qed.

Lemma nested_encodings_succeed_witness :
  forallb isUriSafe encodedExample = true /\
  (exists target,
     encodeURIComponent
       (js "https://webcache.googleusercontent.com/search?q=cache:" ++
        encodedExample ++ js "&hl=en") = Some target) /\
  (exists target,
     encodeURIComponent (js "https://12ft.io/proxy?q=" ++ encodedExample)
       = Some target).
Proof.
  apply (nested_encodings_succeed exampleUrl encodedExample).
  - vm_compute. reflexivity.
  - vm_compute. reflexivity.
Defined.

(** * The five-layer engine *)

Section LegacyFacts.
Context `{Host} (world : Legacy.World).

Lemma legacy_fetch_answered {A} site url hdrs ms res (k : Response -> M A) st :
  Legacy.respond world site {| href := url; headers := hdrs; timeout := ms |}
    = Some res ->
  (Legacy.fetch world site url hdrs ms ≫= k) st = k res st.
Proof. intros E. unfold mbind, M_bind, Legacy.fetch. now rewrite E. Qed.

Lemma legacy_fetch_refused {A} site url hdrs ms (k : Response -> M A) st :
  Legacy.respond world site {| href := url; headers := hdrs; timeout := ms |}
    = None ->
  (Legacy.fetch world site url hdrs ms ≫= k) st = (Throw FetchError, st).
Proof. intros E. unfold mbind, M_bind, Legacy.fetch. now rewrite E. Qed.

Ltac simplify_decision :=
  match goal with
  | |- ?d = ?t -> ?G =>
      let t' := eval cbn [mbind option_bind orEmpty default from_option id
                          isEmpty negb andb] in t in
      change (d = t' -> G)
  end.

Ltac case_decision :=
  repeat (simplify_decision;
    match goal with
    | |- _ = ?rhs -> _ =>
        match rhs with
        | context [Legacy.respond ?w ?s ?r] =>
            destruct (Legacy.respond w s r) as [?res|] eqn:?
        | context [ok ?r] => destruct (ok r) eqn:?
        | context [json ?r] => destruct (json r) as [?data|] eqn:?
        | context [text ?r] => destruct (text r) as [?body|] eqn:?
        | context [contents ?d] => destruct (contents d) as [?c|] eqn:?
        | context [?n <? length ?s] => destruct (n <? length s) eqn:?
        end
    end).

Ltac replay_all :=
  repeat first
    [ progress cbv zeta
    | erewrite legacy_fetch_answered by eassumption
    | erewrite legacy_fetch_refused by eassumption
    | erewrite resJson_parsed by eassumption
    | erewrite resJson_unreadable by eassumption
    | erewrite resText_read by eassumption
    | erewrite resText_unreadable by eassumption
    | rewrite nonempty_above
    | match goal with
      | E : ?x = _ |- context [?x] => rewrite E
      end
    | progress cbn [orEmpty default from_option id isEmpty negb andb] ].

Lemma legacy_layerN_decision_aux (k : nat) (url enc : jsstring) (st : Run) d :
  k < 5 ->
  d = Legacy.decision world k url enc ->
  Legacy.layerN world k url enc st = (Normal d, settle k (verdict d) st).
Proof.
  intros Hk. destruct k as [|[|[|[|[|k]]]]]; [..|lia]; clear Hk.
  all: unfold Legacy.decision, Legacy.candidate; cbn [Nat.eqb Legacy.layerN].
  5: { intros ->. cbn [mbind option_bind verdict]. unfold Legacy.layer5.
       etransitivity; [apply attempt_eval|].
       destruct (Legacy.respond world Legacy.Direct
                   {| href := url; headers := []; timeout := 5000 |}) eqn:E.
       - erewrite legacy_fetch_answered by eassumption. reflexivity.
       - erewrite legacy_fetch_refused by eassumption. reflexivity. }
  all: case_decision.
  all: simplify_decision.
  all: intros ->; cbn [verdict].
  all: unfold Legacy.layer1, Legacy.layer2, Legacy.layer3, Legacy.layer4.
  all: (etransitivity; [apply attempt_eval|]).
  all: replay_all.
  all: reflexivity.
Qed.

Lemma legacy_layerN_decision (k : nat) (url enc : jsstring) (st : Run) :
  k < 5 ->
  Legacy.layerN world k url enc st =
    (Normal (Legacy.decision world k url enc),
     settle k (verdict (Legacy.decision world k url enc)) st).
Proof. intros Hk. now apply legacy_layerN_decision_aux. Qed.

Ltac decide_layer world url enc n :=
  let L := fresh "L" in let E := fresh "E" in
  pose proof (legacy_layerN_decision n url enc (Legacy.failedThrough n)) as L;
  cbn [Legacy.layerN] in L; rewrite L by lia; clear L; cbv iota beta;
  destruct (Legacy.decision world n url enc) as [?r|] eqn:E;
  [ reflexivity
  | cbn [verdict];
    change (settle n failed (Legacy.failedThrough n))
      with (Legacy.failedThrough (S n)) ].

Lemma legacy_run_firstAccepted (url : jsstring) :
  Legacy.run world url =
  match encodeURIComponent url with
  | None => (Throw URIError, unstarted)
  | Some enc =>
      match Legacy.firstAccepted world url enc 0 4 with
      | Some (k, r) => (Normal r, Legacy.succeededAt k)
      | None => (Throw exhaustion, Legacy.failedThrough 5)
      end
  end.
Proof.
  unfold Legacy.run, Legacy.scrapeUrl, encode.
  destruct (encodeURIComponent url) as [enc|]; [|reflexivity].
  unfold orNext, mbind, M_bind, mret, M_ret, Legacy.declareLayers, unstarted.
  cbn [emitted Legacy.firstAccepted].
  change {| layers := Legacy.initialLayers; emitted := [] |}
    with (Legacy.failedThrough 0).
  decide_layer world url enc 0. decide_layer world url enc 1.
  decide_layer world url enc 2. decide_layer world url enc 3.
  pose proof (legacy_layerN_decision 4 url enc (Legacy.failedThrough 4)) as L.
  cbn [Legacy.layerN] in L. rewrite L by lia. reflexivity.
Qed.

Lemma legacy_firstAccepted_range url enc s n k r :
  Legacy.firstAccepted world url enc s n = Some (k, r) ->
  s <= k < s + n /\ Legacy.decision world k url enc = Some r.
Proof.
  revert s. induction n as [|n IH]; intros s; [discriminate|].
  cbn [Legacy.firstAccepted].
  destruct (Legacy.decision world s url enc) as [r'|] eqn:E.
  - intros [= <- <-]. split; [lia|exact E].
  - intros Hf. destruct (IH _ Hf) as [Hr Hd]. split; [lia|exact Hd].
Qed.




(** X12. How a call of the five-layer engine leaves the [layers] array:
    after a result, the layers before the one that succeeded are
    [failed], that one is [success] and the rest [pending], and the one
    that succeeded is never the fifth; after [URIError] the array is
    not declared; after the exhaustion error all five are [failed]. *)
Theorem legacy_outcomes (url : jsstring) :
  let ss := statuses (layers (Legacy.run world url).2) in
  match (Legacy.run world url).1 with
  | Normal r =>
      exists k enc, k < 4 /\
        encodeURIComponent url = Some enc /\
        Legacy.decision world k url enc = Some r /\
        ss = replicate k failed ++ success :: replicate (4 - k) pending
  | Throw e =>
      (e = URIError /\ encodeURIComponent url = None /\ ss = []) \/
      (e = exhaustion /\ ss = replicate 5 failed)
  end.
Proof.
  cbv zeta. rewrite legacy_run_firstAccepted.
  destruct (encodeURIComponent url) as [enc|]; [|now left].
  destruct (Legacy.firstAccepted world url enc 0 4) as [[k r]|] eqn:Hf.
  - destruct (legacy_firstAccepted_range _ _ _ _ _ _ Hf) as [Hk Hd].
    cbn [fst snd]. exists k, enc. split; [lia|]. split; [reflexivity|].
    split; [exact Hd|].
    destruct k as [|[|[|[|k]]]]; [..|lia]; reflexivity.
  - right. now split.
Qed.

End LegacyFacts.

(** * The two engines side by side *)

Section Versions.
Context `{Host}.


(** X14. The reader layers differ the other way round: an answer of
    100 to 200 code units that [isJinaError] lets through is returned
    by the eight-layer engine and turned down by the five-layer one,
    whose only test is a length above 200. *)
Theorem reader_minimum_differs (old : Legacy.World) (world : World)
    (url enc t : jsstring) (res : Response) (st : Run) :
  respond world JinaReader (jinaRequest url) = Some res ->
  Legacy.candidate old 3 url enc = Some t ->
  ok res = true -> text res = Some t ->
  isJinaError t = false ->
  length t <= 200 ->
  layerN world 3 url enc st =
    (Normal (Some (makeResult (buildJinaMarkdown (now world) t url 4))),
     settle 3 success st) /\
  Legacy.layerN old 3 url enc st = (Normal None, settle 3 failed st).
Proof.
  intros Hres Hold Hok Ht Herr Hlen.
  rewrite legacy_layerN_decision, layerN_decision by lia.
  unfold Legacy.decision, decision. rewrite Hold. cbn [Nat.eqb].
  rewrite Hres. cbn [mbind option_bind]. rewrite Hok, Ht.
  cbn [mbind option_bind]. rewrite Herr.
  assert (E : (200 <? length t) = false) by (apply Nat.ltb_ge; lia).
  rewrite E. split; reflexivity.
Qed.

End Versions.


Lemma reader_minimum_differs_witness :
  layerN (H := plainHost) sampleReader 3 exampleUrl encodedExample declared =
    (Normal (Some (makeResult
                     (buildJinaMarkdown 0 (article 120)
                                        exampleUrl 4))),
     settle 3 success declared) /\
  Legacy.layerN (H := plainHost) (Legacy.worldServing (article 120) 0) 3
                exampleUrl encodedExample declared =
    (Normal None, settle 3 failed declared).
Proof.
  apply (reader_minimum_differs (H := plainHost)
           (Legacy.worldServing (article 120) 0) sampleReader
           exampleUrl encodedExample (article 120) (serving (article 120))
           declared).
  - reflexivity.
  - reflexivity.
  - reflexivity.
  - reflexivity.
  - vm_compute. reflexivity.
  - vm_compute. lia.
Defined.

(** * The history store *)

Section CodecFacts.
Import History.

Lemma zdecode_zcode z : zdecode (zcode z) = z.
Proof. now destruct z. Qed.

Lemma readEntries_written entries fuel :
  length entries < fuel ->
  readEntries fuel (concat (map writeEntry entries) ++ [93%N]) = Some entries.
Proof.
  revert fuel. induction entries as [|[u t d] entries IH]; intros fuel Hf.
  - destruct fuel; [lia|]. reflexivity.
  - destruct fuel as [|fuel]; [cbn in Hf; lia|].
    cbn [map concat length] in *. rewrite <- app_assoc.
    set (rest := concat (map writeEntry entries) ++ [93%N]) in *.
    unfold writeEntry at 1. cbn [url title timestamp app].
    repeat (rewrite <- app_assoc; cbn [app]). cbn [readEntries].
    assert (Hne : exists c k, u ++ N.of_nat (length t) :: t ++ zcode d :: rest
                              = c :: k)
      by (destruct u; cbn; eauto).
    destruct Hne as (c & k & Hck). rewrite Hck at 1. clear c k Hck.
    rewrite Nat2N.id, take_app_length, drop_app_length.
    rewrite Nat2N.id, take_app_length, drop_app_length.
    rewrite !Nat.eqb_refl. cbn [andb].
    rewrite IH by lia. cbn. now rewrite zdecode_zcode.
Qed.

Lemma plainParse_plainStringify entries :
  plainParse (plainStringify entries) = Some entries.
Proof.
  unfold plainParse, plainStringify. cbn [N.eqb Pos.eqb].
  apply readEntries_written. cbn [length]. rewrite length_app, length_concat.
  cbn [length].
  assert (length entries <= list_sum (map (@length _) (map writeEntry entries))).
  { induction entries as [|h entries IH]; [reflexivity|].
    cbn [map length]. unfold writeEntry at 1.
    change (list_sum (?x :: ?l)) with (x + list_sum l). cbn [length]. lia. }
  lia.
Qed.

Lemma plainStringify_nonempty entries : plainStringify entries <> [].
Proof. discriminate. Qed.

End CodecFacts.

(** The codec of the worked cases. *)
Definition plainJson : History.Json := {|
  History.stringify := History.plainStringify;
  History.parse := History.plainParse;
  History.parse_stringify := plainParse_plainStringify;
  History.stringify_nil := eq_refl;
  History.stringify_nonempty := plainStringify_nonempty
|}.

Section HistoryFacts.
Import History.
Context `{Json}.

Lemma parse_empty_array : parse (js "[]") = Some [].
Proof. rewrite <- stringify_nil. apply parse_stringify. Qed.

Lemma getHistory_written entries : getHistory (Some (stringify entries)) = entries.
Proof.
  unfold getHistory. pose proof (stringify_nonempty entries) as Hne.
  destruct (stringify entries) eqn:E; [now destruct Hne|].
  cbn [isEmpty]. rewrite <- E. now rewrite parse_stringify.
Qed.

(** Reading back after [addHistory]. *)
Lemma getHistory_addHistory u t date store :
  getHistory (addHistory u t date store) =
    take 5 (entry u t date :: List.filter (other u) (getHistory store)).
Proof. unfold addHistory. apply getHistory_written. Qed.

Lemma filter_other_absent u (l : list HistoryEntry) :
  Forall (fun h => url h <> u) l -> List.filter (other u) l = l.
Proof.
  induction 1 as [|h l Hh _ IH]; [reflexivity|].
  cbn [List.filter]. unfold other at 1.
  rewrite bool_decide_eq_false_2 by exact Hh. cbn [negb]. now rewrite IH.
Qed.

Lemma filter_other_clean u (l : list HistoryEntry) :
  Forall (fun h => url h <> u) (List.filter (other u) l).
Proof.
  apply Forall_forall. intros h Hin. apply list_elem_of_In, filter_In in Hin as [_ Hh].
  unfold other in Hh. apply negb_true_iff, bool_decide_eq_false in Hh. exact Hh.
Qed.


(** X16. A store that is absent, empty or not readable as JSON is an
    empty history: [getHistory] returns no entry instead of failing,
    and the next [addHistory] starts a history of one entry over it. *)
Theorem unreadable_store_is_empty (u t : jsstring) (date : Z) (store : Storage) :
  store = None \/ store = Some [] \/
    (exists s, store = Some s /\ parse s = None) ->
  getHistory store = [] /\
  getHistory (addHistory u t date store) = [entry u t date].
Proof.
  intros Hs. assert (E : getHistory store = []).
  { unfold getHistory. destruct Hs as [->|[->|(s & -> & Hp)]].
    - now rewrite parse_empty_array.
    - cbn [isEmpty]. now rewrite parse_empty_array.
    - destruct (isEmpty s); [now rewrite parse_empty_array|now rewrite Hp]. }
  split; [exact E|]. rewrite getHistory_addHistory, E. reflexivity.
Qed.

(** X17. Adding the same URL twice in a row is adding it once with
    the later title and time: the first of the two entries is replaced
    and nothing else is moved or lost. *)
Theorem revisit_refreshes (u t t' : jsstring) (date date' : Z) (store : Storage) :
  getHistory (addHistory u t' date' (addHistory u t date store)) =
  getHistory (addHistory u t' date' store).
Proof.
  rewrite !getHistory_addHistory.
  set (rest := List.filter (other u) (getHistory store)).
  assert (Hrest : Forall (fun h => url h <> u) rest) by apply filter_other_clean.
  cbn [take List.filter]. unfold other at 1. cbn [entry url].
  rewrite bool_decide_eq_true_2 by reflexivity. cbn [negb].
  rewrite (filter_other_absent u (take 4 rest)) by now apply Forall_take.
  f_equal. rewrite take_take. reflexivity.
Qed.


Lemma after_snoc calls c store :
  after (calls ++ [c]) store =
    addHistory (visited c) (titled c) (at_ c) (after calls store).
Proof. unfold after. now rewrite fold_left_app. Qed.

Lemma recency_snoc urls u :
  recency (urls ++ [u]) =
    u :: List.filter (fun v => negb (bool_decide (v = u))) (recency urls).
Proof. unfold recency. now rewrite fold_left_app. Qed.

Lemma NoDup_recency urls : List.NoDup (recency urls).
Proof.
  induction urls as [|u urls IH] using rev_ind; [constructor|].
  rewrite recency_snoc. constructor.
  - intros Hin. apply filter_In in Hin as [_ Hu].
    now rewrite bool_decide_eq_true_2 in Hu.
  - now apply List.NoDup_filter.
Qed.

Lemma In_take {A} (x : A) n (l : list A) : In x (take n l) -> In x l.
Proof.
  revert n. induction l as [|y l IH]; intros [|n]; cbn; try tauto.
  intros [->|Hin]; [now left|right; eauto].
Qed.

Lemma filter_absent {A} `{EqDecision A} (u : A) (l : list A) :
  ~ In u l -> List.filter (fun v => negb (bool_decide (v = u))) l = l.
Proof.
  induction l as [|x l IH]; intros Hu; [reflexivity|].
  cbn [List.filter]. rewrite bool_decide_eq_false_2 by (intros ->; apply Hu; now left).
  cbn [negb]. rewrite IH; [reflexivity|]. intros Hin. apply Hu. now right.
Qed.

(** Cutting a list without repetition one place further and then
    taking [u] out leaves the same first [n] elements as taking [u] out
    of the whole list. *)
Lemma take_filter_once {A} `{EqDecision A} (u : A) (l : list A) n :
  List.NoDup l ->
  take n (List.filter (fun v => negb (bool_decide (v = u))) (take (S n) l)) =
  take n (List.filter (fun v => negb (bool_decide (v = u))) l).
Proof.
  intros Hnd. revert n. induction Hnd as [|x l Hx Hnd IH]; intros n.
  - reflexivity.
  - destruct n as [|n]; [reflexivity|].
    change (take (S (S n)) (x :: l)) with (x :: take (S n) l).
    cbn [List.filter]. destruct (bool_decide (x = u)) eqn:E; cbn [negb].
    + apply bool_decide_eq_true in E as ->.
      rewrite !filter_absent; [now rewrite take_take, Nat.min_id|exact Hx|].
      intros Hin. apply Hx. eapply In_take, Hin.
    + cbn [take]. now rewrite IH.
Qed.

Lemma map_url_filter u (l : list HistoryEntry) :
  map url (List.filter (other u) l) =
  List.filter (fun v => negb (bool_decide (v = u))) (map url l).
Proof.
  induction l as [|h l IH]; [reflexivity|].
  cbn [List.filter map]. unfold other at 1.
  destruct (bool_decide (url h = u)); cbn [negb map]; now rewrite IH.
Qed.

(** X18. Starting from an empty store, after any sequence of calls the
    history lists the five URLs added last, each once, the most recent
    first: cutting at five at every call loses nothing that cutting
    once at the end would keep. *)
Theorem history_is_recent_five (calls : list Call) :
  let h := getHistory (after calls None) in
  map url h = take 5 (recency (map visited calls)) /\
  List.NoDup (map url h) /\
  length h <= 5.
Proof.
  cbv zeta.
  assert (E : map url (getHistory (after calls None)) =
              take 5 (recency (map visited calls))).
  { induction calls as [|c calls IH] using rev_ind.
    - unfold after, getHistory. cbn [fold_left]. now rewrite parse_empty_array.
    - rewrite after_snoc, getHistory_addHistory, map_app. cbn [map].
      rewrite recency_snoc. cbn [map take url entry]. f_equal.
      rewrite <- !firstn_map, map_url_filter, IH.
      apply take_filter_once, NoDup_recency. }
  split; [exact E|]. split.
  - rewrite E. clear E. generalize (NoDup_recency (map visited calls)).
    generalize (recency (map visited calls)) 5.
    intros l n Hnd. revert n. induction Hnd; intros [|n]; cbn; constructor; auto.
    intros Hin. apply H0. eapply In_take, Hin.
  - rewrite <- (length_map url), E, length_take. lia.
Qed.

Lemma StronglySorted_filter {A} (R : A -> A -> Prop) p (l : list A) :
  StronglySorted R l -> StronglySorted R (List.filter p l).
Proof.
  induction 1 as [|a l Hl IH Ha]; [constructor|].
  cbn [List.filter]. destruct (p a); [|exact IH].
  constructor; [exact IH|].
  apply List.Forall_forall. intros x Hin. apply filter_In in Hin as [Hin _].
  rewrite List.Forall_forall in Ha. now apply Ha.
Qed.

Lemma StronglySorted_take {A} (R : A -> A -> Prop) n (l : list A) :
  StronglySorted R l -> StronglySorted R (take n l).
Proof.
  intros Hl. revert n. induction Hl as [|a l Hl IH Ha]; intros [|n]; cbn;
    try constructor; auto.
  now apply Forall_take.
Qed.

Lemma StronglySorted_snoc {A} (R : A -> A -> Prop) (l : list A) x :
  StronglySorted R (l ++ [x]) ->
  StronglySorted R l /\ Forall (fun y => R y x) l.
Proof.
  induction l as [|a l IH]; [split; constructor|].
  cbn [app]. intros Hs. apply StronglySorted_inv in Hs as [Hs Ha].
  destruct (IH Hs) as [Hl Hx]. apply Forall_app in Ha as [Ha Hax].
  split; constructor; auto. now inversion Hax.
Qed.

(** X19. With a clock that does not run backwards, the history is in
    the order of its time stamps, the latest first, and every time
    stamp is the time of one of the calls. *)
Theorem history_newest_first (calls : list Call) :
  chronological calls ->
  let h := getHistory (after calls None) in
  newestFirst h /\
  Forall (fun e => exists c, In c calls /\ timestamp e = at_ c) h.
Proof.
  cbv zeta. induction calls as [|c calls IH] using rev_ind; intros Hc.
  - unfold after, getHistory. cbn [fold_left]. rewrite parse_empty_array.
    split; constructor.
  - apply StronglySorted_snoc in Hc as [Hc Hlast].
    rewrite List.Forall_forall in Hlast.
    destruct (IH Hc) as [Hs Hfrom]. rewrite after_snoc, getHistory_addHistory.
    set (rest := List.filter (other (visited c)) (getHistory (after calls None))).
    assert (Hrest : Forall (fun e => exists c', In c' calls /\ timestamp e = at_ c') rest).
    { apply List.Forall_forall. intros e Hin. apply filter_In in Hin as [Hin _].
      rewrite List.Forall_forall in Hfrom. now apply Hfrom. }
    split.
    + apply StronglySorted_take. constructor.
      * now apply StronglySorted_filter.
      * eapply Forall_impl; [exact Hrest|]. intros e (c' & Hin & ->).
        cbn [entry timestamp]. now apply Hlast.
    + apply Forall_take. constructor.
      * exists c. split; [apply in_or_app; right; now left|reflexivity].
      * eapply Forall_impl; [exact Hrest|]. intros e (c' & Hin & E).
        exists c'. split; [apply in_or_app; now left|exact E].
Qed.

End HistoryFacts.

Lemma unreadable_store_is_empty_witness :
  History.getHistory (H := plainJson) None = [] /\
  History.getHistory (H := plainJson)
    (History.addHistory (H := plainJson) exampleUrl (js "Example") 5 None) =
    [History.entry exampleUrl (js "Example") 5].
Proof.
  apply (unreadable_store_is_empty (H := plainJson) exampleUrl (js "Example") 5
                                   None).
  left. reflexivity.
Defined.

Lemma history_newest_first_witness :
  let calls :=
    [ {| History.visited := js "a"; History.titled := js "A"; History.at_ := 1 |};
      {| History.visited := js "b"; History.titled := js "B"; History.at_ := 2 |};
      {| History.visited := js "a"; History.titled := js "A"; History.at_ := 3 |} ] in
  let h := History.getHistory (H := plainJson)
             (History.after (H := plainJson) calls None) in
  History.newestFirst h /\
  Forall (fun e => exists c, In c calls /\
                             History.timestamp e = History.at_ c) h.
Proof.
  apply (history_newest_first (H := plainJson)).
  repeat constructor; cbn; lia.
Defined.

(** * The address to scrape *)

Lemma lastOr_None a : lastOr None a = None -> a = [].
Proof.
  unfold lastOr. destruct (last a) eqn:E; [discriminate|].
  intros _. now apply last_None.
Qed.

Lemma test_schemePattern scheme s :
  test (schemePattern scheme) s = true <-> beginsWith scheme s.
Proof.
  unfold test, beginsWith.
  assert (Hfound : search (schemePattern scheme) None s <> None <->
                   exists p rest, s = p ++ rest /\ caseless scheme p).
  { rewrite search_found. split.
    - intros (a & b & -> & Hm). unfold matchAt in Hm.
      change (items (schemePattern scheme)) with (Bol :: lit scheme) in Hm.
      change (ignoreCase (schemePattern scheme)) with true in Hm.
      change (multiline (schemePattern scheme)) with false in Hm.
      cbn [matchItems] in Hm.
      destruct (lastOr None a) as [c|] eqn:Ea; [now destruct Hm|].
      apply lastOr_None in Ea as ->. cbn [atLineStart app] in *.
      destruct (matchItems true false (lit scheme) None b) as [cur|] eqn:E;
        [|now destruct Hm].
      apply matchItems_sound in E as (w & Hb & Hw); [|apply bolFree_lit].
      unfold lit in Hw. rewrite <- (app_nil_r (map _ _)) in Hw.
      apply Matches_literal in Hw as (u & v & -> & Hu & Hv).
      cbn in Hv. subst v. rewrite app_nil_r in Hb.
      now exists u, cur.2.
    - intros (p & rest & -> & Hp). exists [], (p ++ rest). split; [reflexivity|].
      unfold matchAt.
      change (items (schemePattern scheme)) with (Bol :: lit scheme).
      change (ignoreCase (schemePattern scheme)) with true.
      change (multiline (schemePattern scheme)) with false.
      cbn [matchItems lastOr last atLineStart].
      apply matchItems_complete; [apply bolFree_lit|].
      unfold lit. rewrite <- (app_nil_r (map _ _)).
      apply Matches_literal. exists p, []. now rewrite app_nil_r. }
  destruct (search (schemePattern scheme) None s); split; intros Hx.
  - apply Hfound. discriminate.
  - reflexivity.
  - discriminate.
  - apply Hfound in Hx. now destruct Hx.
Qed.

Lemma hasScheme_spec s :
  hasScheme s = true <-> beginsWith "https://" s \/ beginsWith "http://" s.
Proof.
  unfold hasScheme. rewrite orb_true_iff, !test_schemePattern. reflexivity.
Qed.

Lemma caseless_refl str : caseless str (js str).
Proof. unfold caseless. induction (js str); constructor; auto. Qed.

Lemma hasScheme_https s : hasScheme (js "https://" ++ s) = true.
Proof.
  apply hasScheme_spec. left. exists (js "https://"), s.
  split; [reflexivity|apply caseless_refl].
Qed.

Lemma scrapeTarget_scheme targetUrl url u :
  scrapeTarget targetUrl url = Some u -> hasScheme u = true.
Proof.
  unfold scrapeTarget.
  set (entered := match targetUrl with
                  | Some t => if isEmpty t then url else t
                  | None => url
                  end).
  destruct (isEmpty entered); [discriminate|].
  destruct (hasScheme entered) eqn:Es; cbn [negb]; intros [= <-].
  - exact Es.
  - apply hasScheme_https.
Qed.


(** Nothing is scraped exactly when nothing was entered. *)
Lemma scrapeTarget_none targetUrl url :
  scrapeTarget targetUrl url = None <->
  url = [] /\ (targetUrl = None \/ targetUrl = Some []).
Proof.
  unfold scrapeTarget. destruct targetUrl as [[|c t]|]; cbn [isEmpty].
  - destruct url; cbn [isEmpty].
    + split; auto.
    + destruct (negb _); split; try discriminate; intros [? _]; discriminate.
  - destruct (negb _); split; try discriminate.
    all: intros [_ [?|?]]; discriminate.
  - destruct url; cbn [isEmpty].
    + split; auto.
    + destruct (negb _); split; try discriminate; intros [? _]; discriminate.
Qed.


(** * The progress log *)

(** X21. A row of the progress log tells the status of its layer:
    two statuses never share a label, the icon carries the colour class
    of the label, and the rows dimmed are exactly those labelled
    Pending. *)
Theorem log_row_tells_status (l l' : LayerStatus) :
  (statusLabel (status l) = statusLabel (status l') <-> status l = status l') /\
  lastClass (className (statusIcon (status l))) (labelClass l) /\
  (rowOpacity l = js "opacity-40" <-> statusLabel (status l) = js "Pending").
Proof.
  unfold rowOpacity, labelClass.
  destruct (status l), (status l'); cbn [Status_eqb statusLabel statusIcon className].
  all: split; [split; first [reflexivity | discriminate | intros _; reflexivity]|].
  all: split; [first [ exists (js "w-3.5 h-3.5"); reflexivity
                     | exists (js "w-3.5 h-3.5 animate-spin"); reflexivity ]|].
  all: split; first [reflexivity | discriminate | intros _; reflexivity].
Qed.
(** * The page *)








Section PageFacts.
Context `{Host} `{History.Json} `{Page.Browser} (world : World).




(** X23. An address that does not encode (one with an unpaired
    surrogate) is reported with the message that all 8 scraping layers
    failed, although the engine threw before trying any: the log is
    empty. *)
Theorem malformed_address_blames_layers (targetUrl : option jsstring)
    (ticks : nat) (clock : Z) (v : Page.View) (s : Page.Store) (u : jsstring) :
  scrapeTarget targetUrl (Page.url v) = Some u ->
  encodeURIComponent u = None ->
  let v' := (Page.handleScrape world targetUrl ticks clock v s).1 in
  Page.appState v' = Page.error /\
  Page.errorMsg v' = Page.failureMessage /\
  includes (Page.errorMsg v') (js "All 8 scraping layers failed") = true /\
  Page.layers v' = [].
Proof.
  intros Hu He. cbv zeta. unfold Page.handleScrape. rewrite Hu. cbv zeta.
  rewrite run_firstAccepted, He. cbn. repeat split.
Qed.

(** X25. The history only holds addresses with a scheme: if every
    address in it begins with [https://] or [http://], so does every
    address in it after [handleScrape], whatever was entered and
    however the scrape ended.  The history drawer can therefore hand any
    of its entries back to [handleScrape] and have that very address
    scraped. *)
Theorem history_keeps_schemes (targetUrl : option jsstring) (ticks : nat)
    (clock : Z) (v : Page.View) (s : Page.Store) :
  let held st :=
    Forall (fun e => hasScheme (History.url e) = true /\
                     forall url', scrapeTarget (Some (History.url e)) url'
                                  = Some (History.url e))
           (History.getHistory (Page.history st)) in
  held s -> held (Page.handleScrape world targetUrl ticks clock v s).2.
Proof.
  cbv zeta. intros Hs. unfold Page.handleScrape.
  destruct (scrapeTarget targetUrl (Page.url v)) as [u|] eqn:Hu; [|exact Hs].
  cbv zeta. destruct (run world u) as [[[md n words minutes]|e] final];
    cbn [fst snd]; [|exact Hs].
  destruct (Page.titleMatch md) as [t|]; [|destruct (Page.hostname u) as [t|]];
    cbn [snd Page.history]; try exact Hs.
  all: rewrite getHistory_addHistory; apply Forall_take; constructor.
  all: try (cbn [History.entry History.url];
            pose proof (scrapeTarget_scheme _ _ _ Hu) as Hsch;
            split; [exact Hsch|]; intros url'; unfold scrapeTarget;
            destruct u; [discriminate Hsch|]; cbn [isEmpty];
            now rewrite Hsch).
  all: apply List.Forall_forall; intros e Hin;
    apply filter_In in Hin as [Hin _];
    rewrite List.Forall_forall in Hs; now apply Hs.
Qed.

End PageFacts.


Lemma malformed_address_blames_layers_witness :
  let v' := (Page.handleScrape (H := plainHost) (H0 := plainJson)
               (H1 := plainBrowser) sampleProxy (Some [55296%N]) 0 0
               blankView emptyStore).1 in
  Page.appState v' = Page.error /\
  Page.errorMsg v' = Page.failureMessage /\
  includes (Page.errorMsg v') (js "All 8 scraping layers failed") = true /\
  Page.layers v' = [].
Proof.
  apply (malformed_address_blames_layers (H := plainHost) (H0 := plainJson)
           (H1 := plainBrowser) sampleProxy (Some [55296%N]) 0 0 blankView
           emptyStore (js "https://" ++ [55296%N])).
  - vm_compute. reflexivity.
  - vm_compute. reflexivity.
Defined.


Lemma history_keeps_schemes_witness :
  let w := worldServing [(CodeTabs, article 201)] 0 in
  let held st :=
    Forall (fun e => hasScheme (History.url e) = true /\
                     forall url', scrapeTarget (Some (History.url e)) url'
                                  = Some (History.url e))
           (History.getHistory (H := plainJson) (Page.history st)) in
  held (Page.handleScrape (H := plainHost) (H0 := plainJson)
          (H1 := plainBrowser) w (Some (js "example.com")) 0 7
          blankView emptyStore).2.
Proof.
  apply (history_keeps_schemes (H := plainHost) (H0 := plainJson)
           (H1 := plainBrowser)).
  vm_compute. constructor.
Defined.


Example page_examples :
  let w := worldServing [(CodeTabs, js "# Title" ++ [LF] ++ article 201)] 0 in
  let out := Page.handleScrape (H := plainHost) (H0 := plainJson)
               (H1 := plainBrowser) w None 14 7
               {| Page.url := js "example.com"; Page.appState := Page.idle;
                  Page.markdown := []; Page.layers := []; Page.loadingMsgIdx := 0;
                  Page.wordCount := 0; Page.readTime := 0;
                  Page.activeTab := Page.raw; Page.progressKey := 0;
                  Page.errorMsg := []; Page.ticking := false |} emptyStore in
  Page.url out.1 = js "https://example.com" /\
  Page.appState out.1 = Page.success /\
  Page.loadingMsgIdx out.1 = 3 /\
  History.getHistory (H := plainJson) (Page.history out.2) =
    [History.entry (js "https://example.com") (js "Title") 7] /\
  Page.downloadName (H1 := plainBrowser) out.1 1000000000000 =
    Some (js "example-com-2001-09-09.md").
Proof. vm_compute. repeat split. Qed.
